(** * Betflix: the bet lifecycle settlement engine

    A shallow embedding of [packages/hardhat/contracts/Betflix.sol] and the
    properties of its lifecycle (create, join, resolve, cancel), its escrow
    accounting and its price conversion.

    The source file holds two variants of the contract.  The current one
    (ENS trophies, whole-USD targets, [Ownable]) is embedded in module
    [Betflix]; the earlier one (no trophies, oracle-format targets, the
    creator's oracle fee folded into payout and refund) in module
    [BetflixLegacy].

    Modelling conventions.
    - Unsigned Solidity integers ([uint256], [address], [bytes32], ...) are
      [N]; signed ones ([int64], [int32], [int256]) are [Z].  Solidity 0.8
      arithmetic is checked: every [+], [-], [*], [**], [/] and unary minus
      of the source is a [checked_*] operation that panics out of range.
    - A transaction runs in the monad [M]: it reads the call environment
      ([msg], [block] and the answers of the external contracts), threads
      the contract's world (storage, ether balance, trace of outgoing
      effects) and either returns or reverts.  A revert carries no world:
      the EVM discards every change made by a reverted call, and [transact]
      keeps the world from before the call.
    - The answers of external contracts (the Pyth oracle, the ENS name
      wrapper, the recipients of ether) are fields of the environment, so
      every behaviour of the collaborators is covered.  An external call is
      atomic in the model; the four lifecycle entry points are
      [nonReentrant] in the source, so a callee cannot re-enter them.
    - What the atomic call leaves out: the owner's entry points are not
      [nonReentrant], so a recipient that is the owner can call them while
      a lifecycle call pays it (and any entry point while
      [emergencyWithdrawAll] pays it), and ether can be forced into the
      contract at any time.  Inside a lifecycle call neither writes a bet
      or a reservation, so what is proved of the bets, the reservations
      and the transfers of such a call holds of the source; the balance
      after a call that pays ether out is the source's only when the
      recipient does neither, and a statement about it says so. *)

From Stdlib Require Import ZArith NArith Lia Bool.
From stdpp Require Import base option list strings gmap.

Local Open Scope N_scope.

(** ** Machine integers and checked arithmetic *)

Module Evm.

Definition address := N.
Definition bytes32 := N.

Definition MAX_UINT256 : N := 2 ^ 256 - 1.
Definition MAX_INT256 : Z := (2 ^ 255 - 1)%Z.
Definition MIN_INT32 : Z := (- 2 ^ 31)%Z.
Definition MAX_INT32 : Z := (2 ^ 31 - 1)%Z.
Definition MIN_INT64 : Z := (- 2 ^ 63)%Z.
Definition MAX_INT64 : Z := (2 ^ 63 - 1)%Z.

(** The errors a call can end with: the custom errors of [Common.sol],
    the compiler's panics, the errors of the OpenZeppelin helpers the
    contract uses ([SafeCast], [Address.sendValue], [Ownable]), a revert
    bubbling up from the oracle, and the revert without data with which
    the caller itself stops when the target of a high-level call holds no
    code or what it returns does not decode. *)
Inductive Error :=
| ZeroAddress
| BetAmountTooLow
| BetDurationInvalid
| BetAlreadyExists
| BetDoesNotExist
| BetAlreadyJoined
| BetExpired
| BetNotExpired
| BetAlreadyResolved
| TransferFailed
| PriceFeedNotFound
| PriceStale
| InsufficientPythFee
| OnlyCreatorCanRefund
| BetNotMatched
| InvalidENSSubdomain
| ENSSubdomainTaken
| Panic (code : N)
| SafeCastOverflowedUintToInt (value : N)
| SafeCastOverflowedIntToUint (value : Z)
| SafeCastOverflowedIntDowncast (bits : N) (value : Z)
| InsufficientBalance (have need : N)
| FailedCall
| OwnableUnauthorizedAccount (account : address)
| OwnableInvalidOwner (account : address)
| CallValueNotZero
| OracleReverted
| RevertWithoutData.

(** Panic codes of the Solidity compiler. *)
Definition ARITHMETIC : N := 17.      (* 0x11 *)
Definition DIVISION_BY_ZERO : N := 18. (* 0x12 *)

Inductive result (A : Type) :=
| Ok (a : A)
| Revert (e : Error).
Arguments Ok {A} a.
Arguments Revert {A} e.

Definition checked_add (a b : N) : result N :=
  if MAX_UINT256 <? a + b then Revert (Panic ARITHMETIC) else Ok (a + b).

Definition checked_sub (a b : N) : result N :=
  if a <? b then Revert (Panic ARITHMETIC) else Ok (a - b).

Definition checked_mul (a b : N) : result N :=
  if MAX_UINT256 <? a * b then Revert (Panic ARITHMETIC) else Ok (a * b).

Definition checked_pow (a n : N) : result N :=
  if MAX_UINT256 <? a ^ n then Revert (Panic ARITHMETIC) else Ok (a ^ n).

Definition checked_div (a b : N) : result N :=
  if b =? 0 then Revert (Panic DIVISION_BY_ZERO) else Ok (a / b).

(** [-x] on an [int32]. *)
Definition checked_neg_int32 (x : Z) : result Z :=
  if (x =? MIN_INT32)%Z then Revert (Panic ARITHMETIC) else Ok (- x)%Z.

(** The explicit conversion [uint32(x)] of an [int32]: two's complement. *)
Definition to_uint32 (x : Z) : N := Z.to_N (x mod 2 ^ 32).

(** [SafeCast.toInt256], [SafeCast.toInt64] and [SafeCast.toUint256]. *)
Definition toInt256 (v : N) : result Z :=
  if (MAX_INT256 <? Z.of_N v)%Z then Revert (SafeCastOverflowedUintToInt v)
  else Ok (Z.of_N v).

Definition toInt64 (v : Z) : result Z :=
  if ((v <? MIN_INT64) || (MAX_INT64 <? v))%Z
  then Revert (SafeCastOverflowedIntDowncast 64 v)
  else Ok v.

Definition toUint256 (v : Z) : result N :=
  if (v <? 0)%Z then Revert (SafeCastOverflowedIntToUint v) else Ok (Z.to_N v).

Definition bind_result {A B} (r : result A) (k : A -> result B) : result B :=
  match r with
  | Ok a => k a
  | Revert e => Revert e
  end.

End Evm.
Export Evm.

Declare Scope result_scope.
Delimit Scope result_scope with result.
Notation "'let?' x ':=' r 'in' k" := (bind_result r (fun x => k))
  (at level 10, x name, r at level 100, k at level 200,
   format "'let?'  x  ':='  r  'in' '//' k") : result_scope.
Notation "'revert_when' c 'with' e 'in' k" :=
  (if c then Revert e else k)
  (at level 10, c at level 100, e at level 100, k at level 200,
   format "'revert_when'  c  'with'  e  'in' '//' k") : result_scope.

(** ** Price Conversion Unit *)

Module PriceConversion.
Local Open Scope result_scope.

(** [_convertToPythPrice(uint256 _usdPrice, int32 _expo)]. *)
Definition _convertToPythPrice (_usdPrice : N) (_expo : Z) : result Z :=
  revert_when _usdPrice =? 0 with PriceStale in
  revert_when 100000000 <? _usdPrice with PriceStale in
  revert_when ((-2 <? _expo) || (_expo <? -18))%Z with PriceStale in
  let? neg := checked_neg_int32 _expo in
  let? multiplier := checked_pow 10 (to_uint32 neg) in
  let? bound := checked_div MAX_UINT256 multiplier in
  revert_when bound <? _usdPrice with PriceStale in
  let? pythPrice := checked_mul _usdPrice multiplier in
  let? asInt256 := toInt256 pythPrice in
  toInt64 asInt256.

(** The arithmetic of [getBetTargetPriceUSD] once the bet is known to
    exist: [int256(targetPrice).toUint256() / 10 ** uint32(-priceExponent)]. *)
Definition toDisplayFormat (targetPrice priceExponent : Z) : result N :=
  let? neg := checked_neg_int32 priceExponent in
  let? divisor := checked_pow 10 (to_uint32 neg) in
  let? unsigned := toUint256 targetPrice in
  checked_div unsigned divisor.

End PriceConversion.
Export PriceConversion.

(** ** Transactions: environment, world and the monad [M] *)

Module Tx.

Definition bytes := list Byte.byte.

(** [PythStructs.Price]. *)
Record Price := {
  price : Z;        (* int64 *)
  conf : N;         (* uint64 *)
  expo : Z;         (* int32 *)
  publishTime : N
}.

(** What a call sees of its surroundings.  The fields after [msg_value]
    are the answers of the external contracts during this call:
    [None] and [false] stand for a call that reverts. *)
Record Env := {
  block_timestamp : N;
  block_prevrandao : N;
  msg_sender : address;
  msg_value : N;
  (* IPyth *)
  pyth_getUpdateFee : list bytes -> option N;
  pyth_updatePriceFeeds : list bytes -> N -> bool;
  pyth_getPriceNoOlderThan : bytes32 -> N -> option Price;
  (* the recipient of [Address.sendValue] accepts the ether *)
  accepts_value : address -> N -> bool;
  (* INameWrapper: the call returns a node, or the callee reverts *)
  nameWrapper_setSubnodeRecord :
    bytes32 -> string -> address -> address -> N -> N -> N -> option bytes32;
  (* the address called as name wrapper holds code, and the data it
     returns decode as a [bytes32] *)
  nameWrapper_callable : address -> bool
}.

(** What leaves the contract, in order; [Ev] is the contract's event type. *)
Inductive Effect (Ev : Type) :=
| Sent (recipient : address) (amount : N)
| PaidOracle (fee : N)
| TrophyAssigned (node : bytes32) (label : string) (owner resolver : address)
| Emitted (e : Ev).
Arguments Sent {Ev} recipient amount.
Arguments PaidOracle {Ev} fee.
Arguments TrophyAssigned {Ev} node label owner resolver.
Arguments Emitted {Ev} e.

(** The ether transfers of a trace made by [sendValue], in order. *)
Definition ether_sent {Ev} (t : list (Effect Ev)) : list (address * N) :=
  flat_map (fun e => match e with Sent r a => [(r, a)] | _ => [] end) t.

Record World (St Ev : Type) := {
  storage : St;
  balance : N;
  trace : list (Effect Ev)
}.
Arguments storage {St Ev} w.
Arguments balance {St Ev} w.
Arguments trace {St Ev} w.
Arguments Build_World {St Ev} storage balance trace.

Definition M (W A : Type) : Type := Env -> W -> result (A * W).

Definition ret {W A} (a : A) : M W A := fun _ w => Ok (a, w).

Definition bind {W A B} (m : M W A) (k : A -> M W B) : M W B :=
  fun env w =>
    match m env w with
    | Ok (a, w') => k a env w'
    | Revert e => Revert e
    end.

Definition revert {W A} (e : Error) : M W A := fun _ _ => Revert e.

Definition lift {W A} (r : result A) : M W A :=
  fun _ w => match r with Ok a => Ok (a, w) | Revert e => Revert e end.

Definition ask {W} : M W Env := fun env w => Ok (env, w).

Definition get {W} : M W W := fun _ w => Ok (w, w).

Definition put {W} (w : W) : M W unit := fun _ _ => Ok (tt, w).

(** [if (c) revert e();] *)
Definition revert_if {W} (c : bool) (e : Error) : M W unit :=
  fun _ w => if c then Revert e else Ok (tt, w).

(** The outcome of a call as the chain records it: a reverted call leaves
    the world as it was. *)
Definition transact {W A} (m : M W A) (env : Env) (w : W) : W * result A :=
  match m env w with
  | Ok (a, w') => (w', Ok a)
  | Revert e => (w, Revert e)
  end.

Section Ether.
Context {St Ev : Type}.
Abbreviation W := (World St Ev).

Definition read {A} (f : St -> A) : M W A :=
  fun _ w => Ok (f (storage w), w).

Definition write (f : St -> St) : M W unit :=
  fun _ w => Ok (tt, Build_World (f (storage w)) (balance w) (trace w)).

Definition emit (e : Ev) : M W unit :=
  fun _ w => Ok (tt, Build_World (storage w) (balance w) (trace w ++ [Emitted e])).

(** A [payable] entry point: the value sent is the contract's on entry. *)
Definition payable : M W unit :=
  fun env w =>
    Ok (tt, Build_World (storage w) (balance w + msg_value env) (trace w)).

(** An entry point that is not [payable] refuses ether. *)
Definition nonpayable : M W unit :=
  fun env w => if msg_value env =? 0 then Ok (tt, w) else Revert CallValueNotZero.

(** [Address.sendValue(recipient, amount)].  The recipient's code runs and
    accepts or refuses; it is taken not to call the contract back nor to
    push ether into it meanwhile (see the conventions at the head of the
    file). *)
Definition sendValue (recipient : address) (amount : N) : M W unit :=
  fun env w =>
    if balance w <? amount then Revert (InsufficientBalance (balance w) amount)
    else if accepts_value env recipient amount
         then Ok (tt, Build_World (storage w) (balance w - amount)
                                  (trace w ++ [Sent recipient amount]))
         else Revert FailedCall.

(** [pyth.getUpdateFee(data)] *)
Definition getUpdateFee (data : list bytes) : M W N :=
  fun env w =>
    match pyth_getUpdateFee env data with
    | Some fee => Ok (fee, w)
    | None => Revert OracleReverted
    end.

(** [pyth.updatePriceFeeds{ value: fee }(data)] *)
Definition updatePriceFeeds (fee : N) (data : list bytes) : M W unit :=
  fun env w =>
    if balance w <? fee then Revert OracleReverted
    else if pyth_updatePriceFeeds env data fee
         then Ok (tt, Build_World (storage w) (balance w - fee)
                                  (trace w ++ [PaidOracle fee]))
         else Revert OracleReverted.

(** [pyth.getPriceNoOlderThan(id, age)] *)
Definition getPriceNoOlderThan (id : bytes32) (age : N) : M W Price :=
  fun env w =>
    match pyth_getPriceNoOlderThan env id age with
    | Some p => Ok (p, w)
    | None => Revert OracleReverted
    end.

End Ether.

End Tx.
Export Tx.

Declare Scope tx_scope.
Delimit Scope tx_scope with tx.
Notation "'let!' x ':=' m 'in' k" := (bind m (fun x => k))
  (at level 10, x name, m at level 100, k at level 200,
   format "'let!'  x  ':='  m  'in' '//' k") : tx_scope.
Notation "m ';;' k" := (bind m (fun _ => k))
  (at level 100, k at level 200, right associativity,
   format "m  ';;' '//' k") : tx_scope.

(** ** The contract (current variant) *)

Module Betflix.
Local Open Scope tx_scope.

(** [struct Bet]. *)
Record Bet := {
  player1 : address;
  player2 : address;
  amount : N;
  targetPrice : Z;      (* int64 *)
  priceExponent : Z;    (* int32 *)
  deadline : N;
  joinDeadline : N;
  startPrice : Z;       (* int64 *)
  pythUpdateFee : N;
  resolved : bool;
  cancelled : bool;
  winner : address;
  priceFeedId : bytes32;
  ensLabel : bytes32;
  ensSubdomain : string
}.

(** The value of a mapping slot that was never written. *)
Definition zero_bet : Bet :=
  {| player1 := 0; player2 := 0; amount := 0; targetPrice := 0%Z;
     priceExponent := 0%Z; deadline := 0; joinDeadline := 0; startPrice := 0%Z;
     pythUpdateFee := 0; resolved := false; cancelled := false; winner := 0;
     priceFeedId := 0; ensLabel := 0; ensSubdomain := EmptyString |}.

Definition set_player2 (a : address) (b : Bet) : Bet :=
  {| player1 := player1 b; player2 := a; amount := amount b;
     targetPrice := targetPrice b; priceExponent := priceExponent b;
     deadline := deadline b; joinDeadline := joinDeadline b;
     startPrice := startPrice b; pythUpdateFee := pythUpdateFee b;
     resolved := resolved b; cancelled := cancelled b; winner := winner b;
     priceFeedId := priceFeedId b; ensLabel := ensLabel b;
     ensSubdomain := ensSubdomain b |}.

Definition set_resolved (v : bool) (b : Bet) : Bet :=
  {| player1 := player1 b; player2 := player2 b; amount := amount b;
     targetPrice := targetPrice b; priceExponent := priceExponent b;
     deadline := deadline b; joinDeadline := joinDeadline b;
     startPrice := startPrice b; pythUpdateFee := pythUpdateFee b;
     resolved := v; cancelled := cancelled b; winner := winner b;
     priceFeedId := priceFeedId b; ensLabel := ensLabel b;
     ensSubdomain := ensSubdomain b |}.

Definition set_cancelled (v : bool) (b : Bet) : Bet :=
  {| player1 := player1 b; player2 := player2 b; amount := amount b;
     targetPrice := targetPrice b; priceExponent := priceExponent b;
     deadline := deadline b; joinDeadline := joinDeadline b;
     startPrice := startPrice b; pythUpdateFee := pythUpdateFee b;
     resolved := resolved b; cancelled := v; winner := winner b;
     priceFeedId := priceFeedId b; ensLabel := ensLabel b;
     ensSubdomain := ensSubdomain b |}.

Definition set_winner (a : address) (b : Bet) : Bet :=
  {| player1 := player1 b; player2 := player2 b; amount := amount b;
     targetPrice := targetPrice b; priceExponent := priceExponent b;
     deadline := deadline b; joinDeadline := joinDeadline b;
     startPrice := startPrice b; pythUpdateFee := pythUpdateFee b;
     resolved := resolved b; cancelled := cancelled b; winner := a;
     priceFeedId := priceFeedId b; ensLabel := ensLabel b;
     ensSubdomain := ensSubdomain b |}.

(** The state variables of the contract; [owner] is [Ownable]'s. *)
Record Storage := {
  pyth : address;
  nameWrapper : address;
  ensDomainNode : bytes32;
  ensResolver : address;
  ensDomainName : string;
  bets : gmap N Bet;
  usedSubdomains : gmap N bool;
  owner : address
}.

(** [bets[id]] and [usedSubdomains[label]]: an absent key reads as zero. *)
Definition bet_at (s : Storage) (id : bytes32) : Bet :=
  default zero_bet (bets s !! id).

Definition used_at (s : Storage) (label : bytes32) : bool :=
  default false (usedSubdomains s !! label).

Definition set_bet (id : bytes32) (b : Bet) (s : Storage) : Storage :=
  {| pyth := pyth s; nameWrapper := nameWrapper s;
     ensDomainNode := ensDomainNode s; ensResolver := ensResolver s;
     ensDomainName := ensDomainName s; bets := <[id := b]> (bets s);
     usedSubdomains := usedSubdomains s; owner := owner s |}.

(** An assignment through the storage reference [bet] of slot [id]. *)
Definition update_bet (id : bytes32) (f : Bet -> Bet) (s : Storage) : Storage :=
  set_bet id (f (bet_at s id)) s.

Definition set_used (label : bytes32) (v : bool) (s : Storage) : Storage :=
  {| pyth := pyth s; nameWrapper := nameWrapper s;
     ensDomainNode := ensDomainNode s; ensResolver := ensResolver s;
     ensDomainName := ensDomainName s; bets := bets s;
     usedSubdomains := <[label := v]> (usedSubdomains s); owner := owner s |}.

Definition set_ens (w : address) (node : bytes32) (r : address) (name : string)
    (s : Storage) : Storage :=
  {| pyth := pyth s; nameWrapper := w; ensDomainNode := node; ensResolver := r;
     ensDomainName := name; bets := bets s;
     usedSubdomains := usedSubdomains s; owner := owner s |}.

Definition set_pyth (a : address) (s : Storage) : Storage :=
  {| pyth := a; nameWrapper := nameWrapper s;
     ensDomainNode := ensDomainNode s; ensResolver := ensResolver s;
     ensDomainName := ensDomainName s; bets := bets s;
     usedSubdomains := usedSubdomains s; owner := owner s |}.

Definition set_owner (a : address) (s : Storage) : Storage :=
  {| pyth := pyth s; nameWrapper := nameWrapper s;
     ensDomainNode := ensDomainNode s; ensResolver := ensResolver s;
     ensDomainName := ensDomainName s; bets := bets s;
     usedSubdomains := usedSubdomains s; owner := a |}.

Inductive Event :=
| BetCreated (betId : bytes32) (creator : address) (targetPrice : Z)
    (amount deadline joinDeadline : N) (ensSubdomain : string)
| BetJoined (betId : bytes32) (joiner : address)
| BetResolved (betId : bytes32) (winner loser : address) (finalPrice : Z)
    (payout : N) (ensSubdomain : string)
| BetCancelled (betId : bytes32) (creator : address) (refundAmount : N)
| ENSConfigUpdated (domainNode : bytes32) (resolver : address)
| OwnershipTransferred (previousOwner newOwner : address).

Abbreviation W := (World Storage Event).

Definition MIN_BET : N := 100000000.          (* 0.0000000001 ether *)
Definition MIN_DURATION : N := 60.
Definition MAX_DURATION : N := 3600.
Definition MAX_PRICE_AGE : N := 60.
Definition MIN_JOIN_DURATION : N := 60.
Definition MAX_JOIN_DURATION : N := 600.

(** [bytes(s).length] *)
Definition byte_length (s : string) : N := N.of_nat (String.length s).

(** [try nameWrapper.setSubnodeRecord(...) returns (bytes32) {} catch {}].
    The [catch] clause catches a revert inside the callee.  It does not
    catch the failures that are the caller's own: a target without code
    (refused by the check the compiler puts before a high-level call, or,
    where the compiler leaves that check to the decoder, by the decoding
    of the empty answer) and returned data that do not decode as a
    [bytes32].  On these the calling function reverts, without data. *)
Definition try_setSubnodeRecord (wrapper : address) (node : bytes32) (label : string)
    (newOwner resolver : address) : M W unit :=
  fun env w =>
    if nameWrapper_callable env wrapper then
      match nameWrapper_setSubnodeRecord env node label newOwner resolver 0 0 0 with
      | Some _ =>
          Ok (tt, Build_World (storage w) (balance w)
                    (trace w ++ [TrophyAssigned node label newOwner resolver]))
      | None => Ok (tt, w)
      end
    else Revert RevertWithoutData.

(** [modifier onlyOwner] *)
Definition onlyOwner : M W unit :=
  let! env := ask in
  let! o := read owner in
  revert_if (negb (o =? msg_sender env)) (OwnableUnauthorizedAccount (msg_sender env)).

(** [modifier isValidAddress(_address)] *)
Definition isValidAddress (_address : address) : M W unit :=
  revert_if (_address =? 0) ZeroAddress.

Section Contract.

(** [keccak256(abi.encodePacked(sender, feed, target, timestamp, prevrandao))]
    and [keccak256(bytes(label))]: the hash is a parameter. *)
Context (keccak256_packed : address -> bytes32 -> N -> N -> N -> bytes32).
Context (keccak256_bytes : string -> bytes32).

Definition _createBetWithENS (_betId : bytes32) (_betAmount : N) (_targetPrice : Z)
    (_currentPrice : Price) (_duration _joinDuration _pythFee : N)
    (_priceFeedId : bytes32) (_ensSubdomain : string) (_ensLabel : bytes32)
    : M W unit :=
  let! env := ask in
  let! deadline_ := lift (checked_add (block_timestamp env) _duration) in
  let! joinDeadline_ := lift (checked_add (block_timestamp env) _joinDuration) in
  write (set_bet _betId
    {| player1 := msg_sender env;
       player2 := 0;
       amount := _betAmount;
       targetPrice := _targetPrice;
       priceExponent := expo _currentPrice;
       deadline := deadline_;
       joinDeadline := joinDeadline_;
       startPrice := price _currentPrice;
       pythUpdateFee := _pythFee;
       resolved := false;
       cancelled := false;
       winner := 0;
       priceFeedId := _priceFeedId;
       ensLabel := _ensLabel;
       ensSubdomain := _ensSubdomain |}) ;;
  emit (BetCreated _betId (msg_sender env) _targetPrice _betAmount
          deadline_ joinDeadline_ _ensSubdomain).

Definition createBet (_pythUpdateData : list bytes) (_priceFeedId : bytes32)
    (_targetPrice _duration _joinDuration : N) (_ensSubdomain : string)
    : M W bytes32 :=
  payable ;;
  let! env := ask in
  let! pythFee := getUpdateFee _pythUpdateData in
  let! betAmount := lift (checked_sub (msg_value env) pythFee) in
  revert_if (betAmount <? MIN_BET) BetAmountTooLow ;;
  revert_if ((_duration <? MIN_DURATION) || (MAX_DURATION <? _duration))
            BetDurationInvalid ;;
  revert_if ((_joinDuration <? MIN_JOIN_DURATION) || (MAX_JOIN_DURATION <? _joinDuration))
            BetDurationInvalid ;;
  revert_if (_duration <? _joinDuration) BetDurationInvalid ;;
  let! due := lift (checked_add betAmount pythFee) in
  revert_if (msg_value env <? due) InsufficientPythFee ;;
  updatePriceFeeds pythFee _pythUpdateData ;;
  let! currentPrice := getPriceNoOlderThan _priceFeedId MAX_PRICE_AGE in
  revert_if (price currentPrice <=? 0)%Z PriceStale ;;
  let! targetPriceInPythFormat :=
    lift (_convertToPythPrice _targetPrice (expo currentPrice)) in
  let betId := keccak256_packed (msg_sender env) _priceFeedId _targetPrice
                 (block_timestamp env) (block_prevrandao env) in
  let! existing := read (fun s => player1 (bet_at s betId)) in
  revert_if (negb (existing =? 0)) BetAlreadyExists ;;
  revert_if (byte_length _ensSubdomain =? 0) InvalidENSSubdomain ;;
  revert_if (63 <? byte_length _ensSubdomain) InvalidENSSubdomain ;;
  let ensLabel_ := keccak256_bytes _ensSubdomain in
  let! taken := read (fun s => used_at s ensLabel_) in
  revert_if taken ENSSubdomainTaken ;;
  write (set_used ensLabel_ true) ;;
  _createBetWithENS betId betAmount targetPriceInPythFormat currentPrice
    _duration _joinDuration pythFee _priceFeedId _ensSubdomain ensLabel_ ;;
  ret betId.

Definition joinBet (_betId : bytes32) : M W unit :=
  payable ;;
  let! env := ask in
  let! bet := read (fun s => bet_at s _betId) in
  revert_if (player1 bet =? 0) BetDoesNotExist ;;
  revert_if (cancelled bet) BetAlreadyResolved ;;
  revert_if (resolved bet) BetAlreadyResolved ;;
  revert_if (negb (player2 bet =? 0)) BetAlreadyJoined ;;
  revert_if (joinDeadline bet <? block_timestamp env) BetExpired ;;
  revert_if (deadline bet <=? block_timestamp env) BetExpired ;;
  revert_if (negb (msg_value env =? amount bet)) BetAmountTooLow ;;
  write (update_bet _betId (set_player2 (msg_sender env))) ;;
  emit (BetJoined _betId (msg_sender env)).

Definition resolveBet (_betId : bytes32) (_pythUpdateData : list bytes) : M W unit :=
  payable ;;
  let! env := ask in
  let! bet := read (fun s => bet_at s _betId) in
  revert_if (player1 bet =? 0) BetDoesNotExist ;;
  revert_if (cancelled bet) BetAlreadyResolved ;;
  revert_if (player2 bet =? 0) BetNotMatched ;;
  revert_if (block_timestamp env <? deadline bet) BetNotExpired ;;
  revert_if (resolved bet) BetAlreadyResolved ;;
  let! pythFee := getUpdateFee _pythUpdateData in
  revert_if (msg_value env <? pythFee) InsufficientPythFee ;;
  updatePriceFeeds pythFee _pythUpdateData ;;
  let! finalPrice := getPriceNoOlderThan (priceFeedId bet) MAX_PRICE_AGE in
  revert_if (price finalPrice <=? 0)%Z PriceStale ;;
  revert_if (negb (expo finalPrice =? priceExponent bet)%Z) PriceStale ;;
  write (update_bet _betId (set_resolved true)) ;;
  let targetHit := (price finalPrice >=? targetPrice bet)%Z in
  let winner_ := if targetHit then player1 bet else player2 bet in
  let loser := if targetHit then player2 bet else player1 bet in
  write (update_bet _betId (set_winner winner_)) ;;
  let! totalPot := lift (checked_mul (amount bet) 2) in
  sendValue winner_ totalPot ;;
  sendValue (msg_sender env) pythFee ;;
  let! wrapper := read nameWrapper in
  let! node := read ensDomainNode in
  let! resolver := read ensResolver in
  (if negb (wrapper =? 0) && negb (node =? 0)
   then try_setSubnodeRecord wrapper node (ensSubdomain bet) winner_ resolver
   else ret tt) ;;
  emit (BetResolved _betId winner_ loser (price finalPrice) totalPot (ensSubdomain bet)).

Definition cancelBet (_betId : bytes32) : M W unit :=
  nonpayable ;;
  let! env := ask in
  let! bet := read (fun s => bet_at s _betId) in
  revert_if (player1 bet =? 0) BetDoesNotExist ;;
  revert_if (negb (player1 bet =? msg_sender env)) OnlyCreatorCanRefund ;;
  revert_if (cancelled bet) BetAlreadyResolved ;;
  revert_if (resolved bet) BetAlreadyResolved ;;
  revert_if (negb (player2 bet =? 0)) BetAlreadyJoined ;;
  revert_if (block_timestamp env <=? joinDeadline bet) BetNotExpired ;;
  write (update_bet _betId (set_cancelled true)) ;;
  write (set_used (ensLabel bet) false) ;;
  let refundAmount := amount bet in
  sendValue (msg_sender env) refundAmount ;;
  emit (BetCancelled _betId (msg_sender env) refundAmount).

Definition getBet (_betId : bytes32) : M W Bet :=
  read (fun s => bet_at s _betId).

Definition getBetTargetPriceUSD (_betId : bytes32) : M W N :=
  let! bet := read (fun s => bet_at s _betId) in
  if player1 bet =? 0 then ret 0
  else lift (toDisplayFormat (targetPrice bet) (priceExponent bet)).

Definition isSubdomainAvailable (_subdomain : string) : M W bool :=
  let label := keccak256_bytes _subdomain in
  read (fun s => negb (used_at s label)).

Definition getFullENSDomain (_subdomain : string) : M W string :=
  let! wrapper := read nameWrapper in
  let! name := read ensDomainName in
  if (wrapper =? 0) || (byte_length name =? 0) then ret EmptyString
  else ret (_subdomain +:+ "." +:+ name)%string.

End Contract.

Definition configureENS (_nameWrapper : address) (_domainNode : bytes32)
    (_resolver : address) (_domainName : string) : M W unit :=
  nonpayable ;;
  onlyOwner ;;
  write (set_ens _nameWrapper _domainNode _resolver _domainName) ;;
  emit (ENSConfigUpdated _domainNode _resolver).

Definition emergencyWithdrawAll : M W unit :=
  nonpayable ;;
  onlyOwner ;;
  let! w := get in
  let! o := read owner in
  sendValue o (balance w).

Definition emergencyUpdatePyth (_newPythAddress : address) : M W unit :=
  nonpayable ;;
  onlyOwner ;;
  isValidAddress _newPythAddress ;;
  write (set_pyth _newPythAddress).

(** [Ownable.transferOwnership] and [Ownable.renounceOwnership], inherited. *)
Definition transferOwnership (newOwner : address) : M W unit :=
  nonpayable ;;
  onlyOwner ;;
  revert_if (newOwner =? 0) (OwnableInvalidOwner 0) ;;
  let! o := read owner in
  write (set_owner newOwner) ;;
  emit (OwnershipTransferred o newOwner).

Definition renounceOwnership : M W unit :=
  nonpayable ;;
  onlyOwner ;;
  let! o := read owner in
  write (set_owner 0) ;;
  emit (OwnershipTransferred o 0).

(** [constructor(address _pythAddress) isValidAddress(_pythAddress)
    Ownable(msg.sender)], run on the empty storage of a new contract. *)
Definition empty_storage : Storage :=
  {| pyth := 0; nameWrapper := 0; ensDomainNode := 0; ensResolver := 0;
     ensDomainName := EmptyString; bets := ∅; usedSubdomains := ∅; owner := 0 |}.

Definition new_world : W := Build_World empty_storage 0 [].

Definition constructor (_pythAddress : address) : M W unit :=
  nonpayable ;;
  let! env := ask in
  revert_if (msg_sender env =? 0) (OwnableInvalidOwner 0) ;;
  write (set_owner (msg_sender env)) ;;
  emit (OwnershipTransferred 0 (msg_sender env)) ;;
  isValidAddress _pythAddress ;;
  write (set_pyth _pythAddress).

(** *** The contract as a transition system *)

(** The external entry points that change state. *)
Inductive Call :=
| CreateBet (_pythUpdateData : list bytes) (_priceFeedId : bytes32)
    (_targetPrice _duration _joinDuration : N) (_ensSubdomain : string)
| JoinBet (_betId : bytes32)
| ResolveBet (_betId : bytes32) (_pythUpdateData : list bytes)
| CancelBet (_betId : bytes32)
| ConfigureENS (_nameWrapper : address) (_domainNode : bytes32)
    (_resolver : address) (_domainName : string)
| EmergencyWithdrawAll
| EmergencyUpdatePyth (_newPythAddress : address)
| TransferOwnership (newOwner : address)
| RenounceOwnership.

Section Chain.

Context (keccak256_packed : address -> bytes32 -> N -> N -> N -> bytes32).
Context (keccak256_bytes : string -> bytes32).

Definition dispatch (c : Call) : M W unit :=
  match c with
  | CreateBet data feed target duration joinDuration label =>
      createBet keccak256_packed keccak256_bytes
        data feed target duration joinDuration label ;; ret tt
  | JoinBet id => joinBet id
  | ResolveBet id data => resolveBet id data
  | CancelBet id => cancelBet id
  | ConfigureENS w node r name => configureENS w node r name
  | EmergencyWithdrawAll => emergencyWithdrawAll
  | EmergencyUpdatePyth a => emergencyUpdatePyth a
  | TransferOwnership a => transferOwnership a
  | RenounceOwnership => renounceOwnership
  end.

(** One transaction: the world it leaves behind. *)
Definition step (env : Env) (c : Call) (w : W) : W :=
  fst (transact (dispatch c) env w).

(** [evolves w w']: [w'] is [w] after any number of transactions, each sent
    by some account (the zero address signs nothing). *)
Inductive evolves (w : W) : W -> Prop :=
| evolves_refl : evolves w w
| evolves_step (w' : W) (env : Env) (c : Call) :
    evolves w w' -> msg_sender env <> 0 -> evolves w (step env c w').

(** The states of a deployed contract. *)
Inductive reachable : W -> Prop :=
| reachable_deployed (env : Env) (_pythAddress : address) (w0 w : W) :
    constructor _pythAddress env new_world = Ok (tt, w0) ->
    evolves w0 w -> reachable w.

End Chain.

End Betflix.

(** ** The contract (earlier variant, second in the source file) *)

Module BetflixLegacy.
Local Open Scope tx_scope.

Record Bet := {
  player1 : address;
  player2 : address;
  amount : N;
  targetPrice : Z;
  priceExponent : Z;
  deadline : N;
  joinDeadline : N;
  startPrice : Z;
  pythUpdateFee : N;
  resolved : bool;
  cancelled : bool;
  winner : address;
  priceFeedId : bytes32
}.

Definition zero_bet : Bet :=
  {| player1 := 0; player2 := 0; amount := 0; targetPrice := 0%Z;
     priceExponent := 0%Z; deadline := 0; joinDeadline := 0; startPrice := 0%Z;
     pythUpdateFee := 0; resolved := false; cancelled := false; winner := 0;
     priceFeedId := 0 |}.

Definition set_player2 (a : address) (b : Bet) : Bet :=
  {| player1 := player1 b; player2 := a; amount := amount b;
     targetPrice := targetPrice b; priceExponent := priceExponent b;
     deadline := deadline b; joinDeadline := joinDeadline b;
     startPrice := startPrice b; pythUpdateFee := pythUpdateFee b;
     resolved := resolved b; cancelled := cancelled b; winner := winner b;
     priceFeedId := priceFeedId b |}.

Definition set_resolved (v : bool) (b : Bet) : Bet :=
  {| player1 := player1 b; player2 := player2 b; amount := amount b;
     targetPrice := targetPrice b; priceExponent := priceExponent b;
     deadline := deadline b; joinDeadline := joinDeadline b;
     startPrice := startPrice b; pythUpdateFee := pythUpdateFee b;
     resolved := v; cancelled := cancelled b; winner := winner b;
     priceFeedId := priceFeedId b |}.

Definition set_cancelled (v : bool) (b : Bet) : Bet :=
  {| player1 := player1 b; player2 := player2 b; amount := amount b;
     targetPrice := targetPrice b; priceExponent := priceExponent b;
     deadline := deadline b; joinDeadline := joinDeadline b;
     startPrice := startPrice b; pythUpdateFee := pythUpdateFee b;
     resolved := resolved b; cancelled := v; winner := winner b;
     priceFeedId := priceFeedId b |}.

Definition set_winner (a : address) (b : Bet) : Bet :=
  {| player1 := player1 b; player2 := player2 b; amount := amount b;
     targetPrice := targetPrice b; priceExponent := priceExponent b;
     deadline := deadline b; joinDeadline := joinDeadline b;
     startPrice := startPrice b; pythUpdateFee := pythUpdateFee b;
     resolved := resolved b; cancelled := cancelled b; winner := a;
     priceFeedId := priceFeedId b |}.

Record Storage := {
  pyth : address;
  bets : gmap N Bet
}.

Definition bet_at (s : Storage) (id : bytes32) : Bet :=
  default zero_bet (bets s !! id).

Definition set_bet (id : bytes32) (b : Bet) (s : Storage) : Storage :=
  {| pyth := pyth s; bets := <[id := b]> (bets s) |}.

Definition update_bet (id : bytes32) (f : Bet -> Bet) (s : Storage) : Storage :=
  set_bet id (f (bet_at s id)) s.

Inductive Event :=
| BetCreated (betId : bytes32) (creator : address) (targetPrice : Z)
    (amount deadline joinDeadline : N)
| BetJoined (betId : bytes32) (joiner : address)
| BetResolved (betId : bytes32) (winner loser : address) (finalPrice : Z)
    (payout : N)
| BetCancelled (betId : bytes32) (creator : address) (refundAmount : N).

Abbreviation W := (World Storage Event).

Definition MIN_BET : N := 10000000000000000.  (* 0.01 ether *)
Definition MIN_DURATION : N := 60.
Definition MAX_DURATION : N := 3600.
Definition MAX_PRICE_AGE : N := 60.
Definition MIN_JOIN_DURATION : N := 60.
Definition MAX_JOIN_DURATION : N := 600.

Section Contract.

(** [keccak256(abi.encodePacked(sender, feed, int64 target, timestamp,
    prevrandao))] *)
Context (keccak256_packed : address -> bytes32 -> Z -> N -> N -> bytes32).

Definition createBet (_pythUpdateData : list bytes) (_priceFeedId : bytes32)
    (_targetPrice : Z) (_duration _joinDuration : N) : M W bytes32 :=
  payable ;;
  let! env := ask in
  let! pythFee := getUpdateFee _pythUpdateData in
  let! betAmount := lift (checked_sub (msg_value env) pythFee) in
  revert_if (betAmount <? MIN_BET) BetAmountTooLow ;;
  revert_if ((_duration <? MIN_DURATION) || (MAX_DURATION <? _duration))
            BetDurationInvalid ;;
  revert_if ((_joinDuration <? MIN_JOIN_DURATION) || (MAX_JOIN_DURATION <? _joinDuration))
            BetDurationInvalid ;;
  revert_if (_duration <? _joinDuration) BetDurationInvalid ;;
  let! due := lift (checked_add betAmount pythFee) in
  revert_if (msg_value env <? due) InsufficientPythFee ;;
  updatePriceFeeds pythFee _pythUpdateData ;;
  let! currentPrice := getPriceNoOlderThan _priceFeedId MAX_PRICE_AGE in
  revert_if (price currentPrice <=? 0)%Z PriceStale ;;
  let betId := keccak256_packed (msg_sender env) _priceFeedId _targetPrice
                 (block_timestamp env) (block_prevrandao env) in
  let! existing := read (fun s => player1 (bet_at s betId)) in
  revert_if (negb (existing =? 0)) BetAlreadyExists ;;
  let! deadline_ := lift (checked_add (block_timestamp env) _duration) in
  let! joinDeadline_ := lift (checked_add (block_timestamp env) _joinDuration) in
  write (set_bet betId
    {| player1 := msg_sender env;
       player2 := 0;
       amount := betAmount;
       targetPrice := _targetPrice;
       priceExponent := expo currentPrice;
       deadline := deadline_;
       joinDeadline := joinDeadline_;
       startPrice := price currentPrice;
       pythUpdateFee := pythFee;
       resolved := false;
       cancelled := false;
       winner := 0;
       priceFeedId := _priceFeedId |}) ;;
  emit (BetCreated betId (msg_sender env) _targetPrice betAmount
          deadline_ joinDeadline_) ;;
  ret betId.

End Contract.

Definition joinBet (_betId : bytes32) : M W unit :=
  payable ;;
  let! env := ask in
  let! bet := read (fun s => bet_at s _betId) in
  revert_if (player1 bet =? 0) BetDoesNotExist ;;
  revert_if (cancelled bet) BetAlreadyResolved ;;
  revert_if (resolved bet) BetAlreadyResolved ;;
  revert_if (negb (player2 bet =? 0)) BetAlreadyJoined ;;
  revert_if (joinDeadline bet <? block_timestamp env) BetExpired ;;
  revert_if (deadline bet <=? block_timestamp env) BetExpired ;;
  revert_if (negb (msg_value env =? amount bet)) BetAmountTooLow ;;
  write (update_bet _betId (set_player2 (msg_sender env))) ;;
  emit (BetJoined _betId (msg_sender env)).

Definition resolveBet (_betId : bytes32) (_pythUpdateData : list bytes) : M W unit :=
  payable ;;
  let! env := ask in
  let! bet := read (fun s => bet_at s _betId) in
  revert_if (player1 bet =? 0) BetDoesNotExist ;;
  revert_if (cancelled bet) BetAlreadyResolved ;;
  revert_if (player2 bet =? 0) BetAlreadyJoined ;;
  revert_if (block_timestamp env <? deadline bet) BetNotExpired ;;
  revert_if (resolved bet) BetAlreadyResolved ;;
  let! pythFee := getUpdateFee _pythUpdateData in
  revert_if (msg_value env <? pythFee) InsufficientPythFee ;;
  updatePriceFeeds pythFee _pythUpdateData ;;
  let! finalPrice := getPriceNoOlderThan (priceFeedId bet) MAX_PRICE_AGE in
  revert_if (price finalPrice <=? 0)%Z PriceStale ;;
  revert_if (negb (expo finalPrice =? priceExponent bet)%Z) PriceStale ;;
  write (update_bet _betId (set_resolved true)) ;;
  let targetHit := (price finalPrice >=? targetPrice bet)%Z in
  let winner_ := if targetHit then player1 bet else player2 bet in
  let loser := if targetHit then player2 bet else player1 bet in
  write (update_bet _betId (set_winner winner_)) ;;
  let! totalPot := lift (checked_mul (amount bet) 2) in
  let! payout := lift (checked_add totalPot (pythUpdateFee bet)) in
  sendValue winner_ payout ;;
  sendValue (msg_sender env) pythFee ;;
  emit (BetResolved _betId winner_ loser (price finalPrice) totalPot).

Definition cancelBet (_betId : bytes32) : M W unit :=
  nonpayable ;;
  let! env := ask in
  let! bet := read (fun s => bet_at s _betId) in
  revert_if (player1 bet =? 0) BetDoesNotExist ;;
  revert_if (negb (player1 bet =? msg_sender env)) OnlyCreatorCanRefund ;;
  revert_if (cancelled bet) BetAlreadyResolved ;;
  revert_if (resolved bet) BetAlreadyResolved ;;
  revert_if (negb (player2 bet =? 0)) BetAlreadyJoined ;;
  revert_if (block_timestamp env <=? joinDeadline bet) BetNotExpired ;;
  write (update_bet _betId (set_cancelled true)) ;;
  let! refundAmount := lift (checked_add (amount bet) (pythUpdateFee bet)) in
  sendValue (msg_sender env) refundAmount ;;
  emit (BetCancelled _betId (msg_sender env) refundAmount).

Definition getBet (_betId : bytes32) : M W Bet :=
  read (fun s => bet_at s _betId).

(** [constructor(address _pythAddress) isValidAddress(_pythAddress)] *)
Definition new_world : W := Build_World {| pyth := 0; bets := ∅ |} 0 [].

Definition constructor (_pythAddress : address) : M W unit :=
  nonpayable ;;
  revert_if (_pythAddress =? 0) ZeroAddress ;;
  write (fun s => {| pyth := _pythAddress; bets := bets s |}).

End BetflixLegacy.

(** ** Summaries of the entry points

    For each lifecycle entry point: the tests a call has to pass, as a
    proposition, and the world a successful call leaves.  The lemmas
    [*_Ok_iff] below prove that the functions above succeed exactly under
    these tests and produce exactly these worlds. *)

Module Summary.
Import Betflix.

Definition winner_of (b : Bet) (finalPrice : Z) : address :=
  if (finalPrice >=? targetPrice b)%Z then player1 b else player2 b.

Definition loser_of (b : Bet) (finalPrice : Z) : address :=
  if (finalPrice >=? targetPrice b)%Z then player2 b else player1 b.

(** What the trophy call adds to the trace: nothing unless ENS is
    configured and the name wrapper accepts the call. *)
Definition trophy_trace (env : Env) (s : Storage) (b : Bet) (newOwner : address)
    : list (Effect Event) :=
  if negb (nameWrapper s =? 0) && negb (ensDomainNode s =? 0) then
    match nameWrapper_setSubnodeRecord env (ensDomainNode s) (ensSubdomain b)
            newOwner (ensResolver s) 0 0 0 with
    | Some _ => [TrophyAssigned (ensDomainNode s) (ensSubdomain b) newOwner (ensResolver s)]
    | None => []
    end
  else [].

(** [resolveBet]: everything up to the transfers. *)
Record ready_to_settle (env : Env) (w : W) (id : bytes32) (data : list bytes)
    (fee : N) (fp : Price) : Prop := {
  rs_exists : player1 (bet_at (storage w) id) <> 0;
  rs_not_cancelled : cancelled (bet_at (storage w) id) = false;
  rs_matched : player2 (bet_at (storage w) id) <> 0;
  rs_deadline : deadline (bet_at (storage w) id) <= block_timestamp env;
  rs_not_resolved : resolved (bet_at (storage w) id) = false;
  rs_quote : pyth_getUpdateFee env data = Some fee;
  rs_fee_paid : fee <= msg_value env;
  rs_update : pyth_updatePriceFeeds env data fee = true;
  rs_price :
    pyth_getPriceNoOlderThan env (priceFeedId (bet_at (storage w) id)) MAX_PRICE_AGE
    = Some fp;
  rs_positive : (0 < price fp)%Z;
  rs_exponent : expo fp = priceExponent (bet_at (storage w) id);
  rs_pot : amount (bet_at (storage w) id) * 2 <= MAX_UINT256
}.

(** [resolveBet]: the two transfers go through, and the trophy call, where
    ENS is configured, can be made. *)
Record paid_out (env : Env) (w : W) (id : bytes32) (fee : N) (fp : Price) : Prop := {
  po_pot_funded :
    amount (bet_at (storage w) id) * 2 <= balance w + msg_value env - fee;
  po_pot_accepted :
    accepts_value env (winner_of (bet_at (storage w) id) (price fp))
      (amount (bet_at (storage w) id) * 2) = true;
  po_refund_funded :
    fee <= balance w + msg_value env - fee - amount (bet_at (storage w) id) * 2;
  po_refund_accepted : accepts_value env (msg_sender env) fee = true;
  po_trophy_callable :
    negb (nameWrapper (storage w) =? 0) && negb (ensDomainNode (storage w) =? 0) = true ->
    nameWrapper_callable env (nameWrapper (storage w)) = true
}.

Definition resolved_world (env : Env) (w : W) (id : bytes32) (fee : N) (fp : Price)
    : W :=
  let b := bet_at (storage w) id in
  let win := winner_of b (price fp) in
  {| storage :=
       update_bet id (set_winner win) (update_bet id (set_resolved true) (storage w));
     balance := balance w + msg_value env - fee - amount b * 2 - fee;
     trace :=
       trace w
       ++ [PaidOracle fee; Sent win (amount b * 2); Sent (msg_sender env) fee]
       ++ trophy_trace env (storage w) b win
       ++ [Emitted (BetResolved id win (loser_of b (price fp)) (price fp)
                      (amount b * 2) (ensSubdomain b))] |}.

(** [joinBet] *)
Record joinable (env : Env) (w : W) (id : bytes32) : Prop := {
  jo_exists : player1 (bet_at (storage w) id) <> 0;
  jo_not_cancelled : cancelled (bet_at (storage w) id) = false;
  jo_not_resolved : resolved (bet_at (storage w) id) = false;
  jo_unmatched : player2 (bet_at (storage w) id) = 0;
  jo_join_deadline : block_timestamp env <= joinDeadline (bet_at (storage w) id);
  jo_deadline : block_timestamp env < deadline (bet_at (storage w) id);
  jo_stake : msg_value env = amount (bet_at (storage w) id)
}.

Definition joined_world (env : Env) (w : W) (id : bytes32) : W :=
  {| storage := update_bet id (set_player2 (msg_sender env)) (storage w);
     balance := balance w + msg_value env;
     trace := trace w ++ [Emitted (BetJoined id (msg_sender env))] |}.

(** [cancelBet] *)
Record cancellable (env : Env) (w : W) (id : bytes32) : Prop := {
  ca_no_value : msg_value env = 0;
  ca_exists : player1 (bet_at (storage w) id) <> 0;
  ca_creator : player1 (bet_at (storage w) id) = msg_sender env;
  ca_not_cancelled : cancelled (bet_at (storage w) id) = false;
  ca_not_resolved : resolved (bet_at (storage w) id) = false;
  ca_unmatched : player2 (bet_at (storage w) id) = 0;
  ca_join_deadline : joinDeadline (bet_at (storage w) id) < block_timestamp env;
  ca_funded : amount (bet_at (storage w) id) <= balance w;
  ca_accepted :
    accepts_value env (msg_sender env) (amount (bet_at (storage w) id)) = true
}.

Definition cancelled_world (env : Env) (w : W) (id : bytes32) : W :=
  let b := bet_at (storage w) id in
  {| storage :=
       set_used (ensLabel b) false (update_bet id (set_cancelled true) (storage w));
     balance := balance w - amount b;
     trace :=
       trace w ++ [Sent (msg_sender env) (amount b);
                   Emitted (BetCancelled id (msg_sender env) (amount b))] |}.

Section Create.
Context (keccak256_packed : address -> bytes32 -> N -> N -> N -> bytes32).
Context (keccak256_bytes : string -> bytes32).

Definition new_id (env : Env) (feed : bytes32) (target : N) : bytes32 :=
  keccak256_packed (msg_sender env) feed target
    (block_timestamp env) (block_prevrandao env).

(** [createBet]: every test except the one on the label's reservation. *)
Record creatable (env : Env) (w : W) (data : list bytes) (feed : bytes32)
    (target duration joinDuration : N) (label : string)
    (fee : N) (cp : Price) (tp : Z) : Prop := {
  cr_quote : pyth_getUpdateFee env data = Some fee;
  cr_fee_paid : fee <= msg_value env;
  cr_value : msg_value env <= MAX_UINT256;
  cr_stake : MIN_BET <= msg_value env - fee;
  cr_duration : MIN_DURATION <= duration <= MAX_DURATION;
  cr_join_duration : MIN_JOIN_DURATION <= joinDuration <= MAX_JOIN_DURATION;
  cr_join_within : joinDuration <= duration;
  cr_update : pyth_updatePriceFeeds env data fee = true;
  cr_price : pyth_getPriceNoOlderThan env feed MAX_PRICE_AGE = Some cp;
  cr_positive : (0 < price cp)%Z;
  cr_target : _convertToPythPrice target (expo cp) = Ok tp;
  cr_fresh : player1 (bet_at (storage w) (new_id env feed target)) = 0;
  cr_label_length : 1 <= byte_length label <= 63;
  cr_deadline : block_timestamp env + duration <= MAX_UINT256
}.

Definition created_bet (env : Env) (feed : bytes32) (duration joinDuration : N)
    (label : string) (fee : N) (cp : Price) (tp : Z) : Bet :=
  {| player1 := msg_sender env;
     player2 := 0;
     amount := msg_value env - fee;
     targetPrice := tp;
     priceExponent := expo cp;
     deadline := block_timestamp env + duration;
     joinDeadline := block_timestamp env + joinDuration;
     startPrice := price cp;
     pythUpdateFee := fee;
     resolved := false;
     cancelled := false;
     winner := 0;
     priceFeedId := feed;
     ensLabel := keccak256_bytes label;
     ensSubdomain := label |}.

Definition created_world (env : Env) (w : W) (feed : bytes32)
    (target duration joinDuration : N) (label : string)
    (fee : N) (cp : Price) (tp : Z) : W :=
  {| storage :=
       set_bet (new_id env feed target)
         (created_bet env feed duration joinDuration label fee cp tp)
         (set_used (keccak256_bytes label) true (storage w));
     balance := balance w + msg_value env - fee;
     trace :=
       trace w ++ [PaidOracle fee;
                   Emitted (BetCreated (new_id env feed target) (msg_sender env) tp
                              (msg_value env - fee)
                              (block_timestamp env + duration)
                              (block_timestamp env + joinDuration) label)] |}.

(** What a transaction can do to the world: nothing (it reverted, or was
    a no-op), one of the four lifecycle changes, or an administrative
    change that leaves the bets and the reservations alone. *)
Inductive effect_of (env : Env) (w : W) : Call -> W -> Prop :=
| eff_none c : effect_of env w c w
| eff_create data feed target duration joinDuration label fee cp tp :
    creatable env w data feed target duration joinDuration label fee cp tp ->
    used_at (storage w) (keccak256_bytes label) = false ->
    effect_of env w (CreateBet data feed target duration joinDuration label)
      (created_world env w feed target duration joinDuration label fee cp tp)
| eff_join id :
    joinable env w id -> effect_of env w (JoinBet id) (joined_world env w id)
| eff_resolve id data fee fp :
    ready_to_settle env w id data fee fp -> paid_out env w id fee fp ->
    effect_of env w (ResolveBet id data) (resolved_world env w id fee fp)
| eff_cancel id :
    cancellable env w id -> effect_of env w (CancelBet id) (cancelled_world env w id)
| eff_admin c w' :
    bets (storage w') = bets (storage w) ->
    usedSubdomains (storage w') = usedSubdomains (storage w) ->
    effect_of env w c w'.

End Create.

Definition is_create (c : Call) : Prop :=
  match c with CreateBet _ _ _ _ _ _ => True | _ => False end.

(** A bet that exists and was not cancelled: it holds its trophy label. *)
Definition live (b : Bet) : Prop := player1 b <> 0 /\ cancelled b = false.

(** A bet in a terminal state. *)
Definition terminal (b : Bet) : Prop := resolved b = true \/ cancelled b = true.

(** The store is consistent: flags exclude each other, a flagged bet
    exists, a live bet holds its label, and no two live bets share one. *)
Record consistent (w : W) : Prop := {
  inv_flags : forall id,
    ~ (resolved (bet_at (storage w) id) = true /\
       cancelled (bet_at (storage w) id) = true);
  inv_terminal_exists : forall id,
    terminal (bet_at (storage w) id) -> player1 (bet_at (storage w) id) <> 0;
  inv_label_held : forall id,
    live (bet_at (storage w) id) ->
    used_at (storage w) (ensLabel (bet_at (storage w) id)) = true;
  inv_label_unique : forall id1 id2,
    live (bet_at (storage w) id1) -> live (bet_at (storage w) id2) ->
    ensLabel (bet_at (storage w) id1) = ensLabel (bet_at (storage w) id2) ->
    id1 = id2
}.

End Summary.

(** ** A worked scenario

    The end-to-end scenario of the specification, run on the embedding: a
    creator stakes one ether on a target of 50000 USD (duration 300 s, join
    window 60 s, label "alpha"), a joiner matches it, and after the
    deadline a third party resolves it at a price equal to the target,
    while the name wrapper refuses the trophy call.  A second history
    cancels the unmatched bet instead.  The two hash
    functions are stand-ins for [keccak256]; the theorems hold for any. *)

Module Sample.
Import Betflix.

Definition hash_packed (sender : address) (feed : bytes32) (target ts rand : N)
    : bytes32 :=
  1 + sender + 1000 * feed + 1000000 * target + ts + rand.

Fixpoint hash_bytes (s : string) : bytes32 :=
  match s with
  | EmptyString => 1
  | String c rest => Ascii.N_of_ascii c + 256 * hash_bytes rest
  end.

Definition deployer : address := 1.
Definition creator : address := 11.
Definition joiner : address := 22.
Definition resolver : address := 33.
Definition oracle : address := 99.
Definition feed : bytes32 := 7.
Definition quote : N := 10.
Definition ether : N := 1000000000000000000.

Definition usd (p : Z) : Price :=
  {| price := (p * 100000000)%Z; conf := 0; expo := (-8)%Z; publishTime := 0 |}.

(** A call at time [now] by [sender] with [value], while the oracle
    reports [p] USD, quotes [quote] per update, every recipient accepts
    ether and the name wrapper, a contract, answers [wrapper]. *)
Definition call_env (now : N) (sender : address) (value : N) (p : Z)
    (wrapper : option bytes32) : Env :=
  {| block_timestamp := now;
     block_prevrandao := 5;
     msg_sender := sender;
     msg_value := value;
     pyth_getUpdateFee := fun _ => Some quote;
     pyth_updatePriceFeeds := fun _ _ => true;
     pyth_getPriceNoOlderThan := fun _ _ => Some (usd p);
     accepts_value := fun _ _ => true;
     nameWrapper_setSubnodeRecord := fun _ _ _ _ _ _ _ => wrapper;
     nameWrapper_callable := fun _ => true |}.

(** The same call when the recipients named by [refuses] reject ether. *)
Definition refusing (refuses : address -> bool) (env : Env) : Env :=
  {| block_timestamp := block_timestamp env;
     block_prevrandao := block_prevrandao env;
     msg_sender := msg_sender env;
     msg_value := msg_value env;
     pyth_getUpdateFee := pyth_getUpdateFee env;
     pyth_updatePriceFeeds := pyth_updatePriceFeeds env;
     pyth_getPriceNoOlderThan := pyth_getPriceNoOlderThan env;
     accepts_value := fun a _ => negb (refuses a);
     nameWrapper_setSubnodeRecord := nameWrapper_setSubnodeRecord env;
     nameWrapper_callable := nameWrapper_callable env |}.

Abbreviation run := (step hash_packed hash_bytes).

Definition deploy_env : Env := call_env 900 deployer 0 49000 None.
Definition config_env : Env := call_env 950 deployer 0 49000 None.
Definition create_env : Env := call_env 1000 creator (ether + quote) 49000 None.
Definition join_env : Env := call_env 1030 joiner ether 49500 None.
Definition early_env : Env := call_env 1200 resolver quote 49900 None.
Definition resolve_env : Env := call_env 1300 resolver (2 * quote) 50000 None.
Definition cancel_env : Env := call_env 1061 creator 0 49500 None.
Definition short_env : Env := call_env 1000 creator 5 49000 None.
Definition retry_env : Env := call_env 1400 joiner (ether + quote) 51000 None.

Definition bet_id : bytes32 := hash_packed creator feed 50000 1000 5.

Definition create_call : Call := CreateBet [] feed 50000 300 60 "alpha".
Definition retry_call : Call := CreateBet [] feed 52000 300 60 "alpha".

Definition deployed : W := fst (transact (constructor oracle) deploy_env new_world).
Definition configured : W :=
  run config_env (ConfigureENS 77 88 66 "betflix.eth") deployed.
Definition opened : W := run create_env create_call configured.
Definition matched : W := run join_env (JoinBet bet_id) opened.
Definition settled : W := run resolve_env (ResolveBet bet_id []) matched.
Definition called_off : W := run cancel_env (CancelBet bet_id) opened.

(** Variations: the creator refuses ether; the owner has swept the
    contract's balance before the resolution. *)
Definition refused_env : Env := refusing (N.eqb creator) resolve_env.
Definition withdraw_env : Env := call_env 1250 deployer 0 49900 None.
Definition drained : W := run withdraw_env EmergencyWithdrawAll matched.

End Sample.


(** ** Summaries of the owner's entry points *)

Module Admin.
Import Betflix.

(** [onlyOwner], on a function that takes no ether. *)
Record owner_call (env : Env) (w : W) : Prop := {
  oc_no_value : msg_value env = 0;
  oc_owner : owner (storage w) = msg_sender env
}.

Definition configured_world (w : W) (wrapper : address) (node : bytes32)
    (resolver : address) (name : string) : W :=
  {| storage := set_ens wrapper node resolver name (storage w);
     balance := balance w;
     trace := trace w ++ [Emitted (ENSConfigUpdated node resolver)] |}.

Definition swept_world (w : W) : W :=
  {| storage := storage w;
     balance := 0;
     trace := trace w ++ [Sent (owner (storage w)) (balance w)] |}.

Definition repointed_world (w : W) (a : address) : W :=
  {| storage := set_pyth a (storage w); balance := balance w; trace := trace w |}.

Definition handed_over_world (w : W) (a : address) : W :=
  {| storage := set_owner a (storage w);
     balance := balance w;
     trace := trace w ++ [Emitted (OwnershipTransferred (owner (storage w)) a)] |}.

End Admin.

(** ** What holds of every stored bet *)

Module Wellformed.
Import Betflix Summary.

Section Hashing.
Context (keccak256_packed : address -> bytes32 -> N -> N -> N -> bytes32).
Context (keccak256_bytes : string -> bytes32).

(** The shape [createBet] gives a bet and the other calls keep. *)
Record well_formed (b : Bet) : Prop := {
  wf_join_window : joinDeadline b <= deadline b;
  wf_window_length : deadline b <= joinDeadline b + 3540;
  wf_deadline_range : deadline b <= MAX_UINT256;
  wf_stake : MIN_BET <= amount b;
  wf_stake_range : amount b + pythUpdateFee b <= MAX_UINT256;
  wf_target : exists usd,
    1 <= usd <= 100000000 /\
    _convertToPythPrice usd (priceExponent b) = Ok (targetPrice b);
  wf_start : (0 < startPrice b)%Z;
  wf_label : ensLabel b = keccak256_bytes (ensSubdomain b);
  wf_label_length : 1 <= byte_length (ensSubdomain b) <= 63;
  wf_resolved_matched : resolved b = true -> player2 b <> 0;
  wf_cancelled_unmatched : cancelled b = true -> player2 b = 0;
  wf_winner_unset : resolved b = false -> winner b = 0;
  wf_winner_set : resolved b = true -> winner b = player1 b \/ winner b = player2 b
}.

(** The whole world: every written slot holds a well-formed bet, every
    other slot reads as zero, a label is reserved only for a live bet, the
    oracle's address is set, and the trace announces every bet. *)
Record sound (w : W) : Prop := {
  snd_bets : forall id,
    player1 (bet_at (storage w) id) <> 0 -> well_formed (bet_at (storage w) id);
  snd_unwritten : forall id,
    player1 (bet_at (storage w) id) = 0 -> bet_at (storage w) id = zero_bet;
  snd_reserved : forall label,
    used_at (storage w) label = true ->
    exists id, live (bet_at (storage w) id) /\ ensLabel (bet_at (storage w) id) = label;
  snd_pyth : pyth (storage w) <> 0;
  snd_created : forall id,
    player1 (bet_at (storage w) id) <> 0 ->
    In (Emitted (BetCreated id (player1 (bet_at (storage w) id))
                   (targetPrice (bet_at (storage w) id))
                   (amount (bet_at (storage w) id))
                   (deadline (bet_at (storage w) id))
                   (joinDeadline (bet_at (storage w) id))
                   (ensSubdomain (bet_at (storage w) id)))) (trace w);
  snd_joined : forall id,
    player2 (bet_at (storage w) id) <> 0 ->
    In (Emitted (BetJoined id (player2 (bet_at (storage w) id)))) (trace w);
  snd_resolved : forall id,
    resolved (bet_at (storage w) id) = true ->
    exists loser finalPrice,
      In (Emitted (BetResolved id (winner (bet_at (storage w) id)) loser finalPrice
                     (amount (bet_at (storage w) id) * 2)
                     (ensSubdomain (bet_at (storage w) id)))) (trace w);
  snd_cancelled : forall id,
    cancelled (bet_at (storage w) id) = true ->
    In (Emitted (BetCancelled id (player1 (bet_at (storage w) id))
                   (amount (bet_at (storage w) id)))) (trace w)
}.

(** What one transaction does, entry point by entry point. *)
Inductive transition (env : Env) (w : W) : Call -> W -> Prop :=
| tr_reverted c : transition env w c w
| tr_create data feed target duration joinDuration label fee cp tp :
    creatable keccak256_packed env w data feed target duration joinDuration label
      fee cp tp ->
    used_at (storage w) (keccak256_bytes label) = false ->
    transition env w (CreateBet data feed target duration joinDuration label)
      (created_world keccak256_packed keccak256_bytes env w feed target
         duration joinDuration label fee cp tp)
| tr_join id :
    joinable env w id -> transition env w (JoinBet id) (joined_world env w id)
| tr_resolve id data fee fp :
    ready_to_settle env w id data fee fp -> paid_out env w id fee fp ->
    transition env w (ResolveBet id data) (resolved_world env w id fee fp)
| tr_cancel id :
    cancellable env w id -> transition env w (CancelBet id) (cancelled_world env w id)
| tr_configure wrapper node resolver name :
    Admin.owner_call env w ->
    transition env w (ConfigureENS wrapper node resolver name)
      (Admin.configured_world w wrapper node resolver name)
| tr_sweep :
    Admin.owner_call env w ->
    accepts_value env (owner (storage w)) (balance w) = true ->
    transition env w EmergencyWithdrawAll (Admin.swept_world w)
| tr_repoint a :
    Admin.owner_call env w -> a <> 0 ->
    transition env w (EmergencyUpdatePyth a) (Admin.repointed_world w a)
| tr_transfer a :
    Admin.owner_call env w -> a <> 0 ->
    transition env w (TransferOwnership a) (Admin.handed_over_world w a)
| tr_renounce :
    Admin.owner_call env w ->
    transition env w RenounceOwnership (Admin.handed_over_world w 0).

End Hashing.

End Wellformed.

(** ** The tests of [createBet], in stages *)

Module Creation.
Import Betflix Summary.

(** The arguments and the payment pass the tests made before the oracle
    is called. *)
Record funded (env : Env) (data : list bytes) (duration joinDuration : N)
    (fee : N) : Prop := {
  fu_quote : pyth_getUpdateFee env data = Some fee;
  fu_fee_paid : fee <= msg_value env;
  fu_value : msg_value env <= MAX_UINT256;
  fu_stake : MIN_BET <= msg_value env - fee;
  fu_duration : MIN_DURATION <= duration <= MAX_DURATION;
  fu_join_duration : MIN_JOIN_DURATION <= joinDuration <= MAX_JOIN_DURATION;
  fu_join_within : joinDuration <= duration
}.

(** The oracle took the update and reported a positive price into which
    the target converts. *)
Record priced (env : Env) (data : list bytes) (feed : bytes32) (target : N)
    (fee : N) (cp : Price) (tp : Z) : Prop := {
  pr_update : pyth_updatePriceFeeds env data fee = true;
  pr_price : pyth_getPriceNoOlderThan env feed MAX_PRICE_AGE = Some cp;
  pr_positive : (0 < price cp)%Z;
  pr_target : _convertToPythPrice target (expo cp) = Ok tp
}.

End Creation.

(** ** Variations on the worked scenario *)

Module Variations.
Import Betflix.

Definition exact_fee_env : Env :=
  Sample.call_env 1300 Sample.resolver Sample.quote 50000 None.

(** The resolution when the address configured as name wrapper holds no
    code (an account, or a contract that was destroyed). *)
Definition codeless_env : Env :=
  {| block_timestamp := block_timestamp Sample.resolve_env;
     block_prevrandao := block_prevrandao Sample.resolve_env;
     msg_sender := msg_sender Sample.resolve_env;
     msg_value := msg_value Sample.resolve_env;
     pyth_getUpdateFee := pyth_getUpdateFee Sample.resolve_env;
     pyth_updatePriceFeeds := pyth_updatePriceFeeds Sample.resolve_env;
     pyth_getPriceNoOlderThan := pyth_getPriceNoOlderThan Sample.resolve_env;
     accepts_value := accepts_value Sample.resolve_env;
     nameWrapper_setSubnodeRecord := nameWrapper_setSubnodeRecord Sample.resolve_env;
     nameWrapper_callable := fun _ => false |}.


(** The deployer renounces ownership, then tries to configure ENS. *)
Definition renounced : W := Sample.run Sample.config_env RenounceOwnership Sample.deployed.
Definition after_renounce : W :=
  Sample.run Sample.withdraw_env (ConfigureENS 77 88 66 "betflix.eth") renounced.

End Variations.

(** ** The worked scenario in the earlier variant *)

Module LegacySample.
Import BetflixLegacy.

Definition hash_packed (sender : address) (feed : bytes32) (target : Z) (ts rand : N)
    : bytes32 :=
  1 + sender + 1000 * feed + 1000000 * Z.to_N target + ts + rand.

Definition target : Z := 5000000000000.

Definition create_env : Env :=
  Sample.call_env 1000 Sample.creator (Sample.ether + Sample.quote) 49000 None.
Definition second_env : Env :=
  Sample.call_env 1010 Sample.joiner (Sample.ether + Sample.quote) 49000 None.
Definition resolve_env : Env :=
  Sample.call_env 1300 Sample.resolver (3 * Sample.quote) 50000 None.

Definition bet_id : bytes32 := hash_packed Sample.creator Sample.feed target 1000 5.

Definition deployed : W :=
  fst (transact (constructor Sample.oracle) Sample.deploy_env new_world).
Definition opened : W :=
  fst (transact (createBet hash_packed [] Sample.feed target 300 60) create_env deployed).
Definition matched : W := fst (transact (joinBet bet_id) Sample.join_env opened).
Definition settled : W := fst (transact (resolveBet bet_id []) resolve_env matched).

(** A second creator opens a bet of their own; the first then cancels. *)
Definition opened_twice : W :=
  fst (transact (createBet hash_packed [] Sample.feed target 300 60) second_env opened).
Definition called_off : W :=
  fst (transact (cancelBet bet_id) Sample.cancel_env opened_twice).

End LegacySample.

(** * Properties *)

(** ** Price conversion *)

Section PriceConversionFacts.

Lemma to_uint32_neg_band (e : Z) :
  (-18 <= e <= -2)%Z ->
  checked_neg_int32 e = Ok (- e)%Z /\ to_uint32 (- e) = Z.to_N (- e).
Proof.
  intros He. split.
  - unfold checked_neg_int32, MIN_INT32.
    destruct (Z.eqb_spec e (- 2 ^ 31)) as [->|_]; [lia|reflexivity].
  - unfold to_uint32. rewrite Z.mod_small; [reflexivity|lia].
Qed.

Lemma pow10_band (k : N) : 2 <= k <= 18 -> 100 <= 10 ^ k <= 10 ^ 18.
Proof.
  intros Hk. split.
  - change 100 with (10 ^ 2). apply N.pow_le_mono_r; lia.
  - apply N.pow_le_mono_r; lia.
Qed.

(** What the conversion does on the whole accepted band: the product, or
    the downcast error of [SafeCast.toInt64] when the product is too wide. *)
Lemma convert_in_band (x : N) (e : Z) :
  1 <= x <= 100000000 -> (-18 <= e <= -2)%Z ->
  _convertToPythPrice x e =
    if (MAX_INT64 <? Z.of_N (x * 10 ^ Z.to_N (- e)))%Z
    then Revert (SafeCastOverflowedIntDowncast 64 (Z.of_N (x * 10 ^ Z.to_N (- e))))
    else Ok (Z.of_N (x * 10 ^ Z.to_N (- e))).
Proof.
  intros Hx He.
  destruct (to_uint32_neg_band e He) as [Hneg Hcast].
  pose proof (pow10_band (Z.to_N (- e)) ltac:(lia)) as [Hm2 Hm18].
  unfold _convertToPythPrice.
  destruct (N.eqb_spec x 0) as [?|_]; [lia|].
  destruct (N.ltb_spec 100000000 x) as [?|_]; [lia|].
  destruct (Z.ltb_spec (-2) e) as [?|_]; [lia|].
  destruct (Z.ltb_spec e (-18)) as [?|_]; [lia|].
  cbn [orb]. rewrite Hneg. cbn [bind_result]. rewrite Hcast.
  unfold checked_pow, checked_div, checked_mul, toInt256, toInt64.
  remember (10 ^ Z.to_N (- e)) as m eqn:Em. clear Em Hneg Hcast.
  change (10 ^ 18) with 1000000000000000000 in Hm18.
  assert (Hprod : x * m <= 100000000 * 1000000000000000000)
    by (apply N.mul_le_mono; lia).
  assert (Hmax : 100000000 * 1000000000000000000 < MAX_UINT256) by reflexivity.
  assert (Hmax' : (Z.of_N (100000000 * 1000000000000000000) < MAX_INT256)%Z)
    by reflexivity.
  assert (Hmin : (MIN_INT64 < 0)%Z) by reflexivity.
  destruct (N.ltb_spec MAX_UINT256 m) as [Hbig|_]; [lia|].
  cbn [bind_result].
  destruct (N.eqb_spec m 0) as [Hm0|Hm0]; [lia|].
  cbn [bind_result].
  destruct (N.ltb_spec (MAX_UINT256 / m) x) as [Hlt|_].
  { exfalso.
    assert (x <= MAX_UINT256 / m) by (apply N.div_le_lower_bound; lia).
    lia. }
  destruct (N.ltb_spec MAX_UINT256 (x * m)) as [Hbig|_]; [lia|].
  cbn [bind_result].
  destruct (Z.ltb_spec MAX_INT256 (Z.of_N (x * m))) as [Hbig|_]; [lia|].
  cbn [bind_result].
  destruct (Z.ltb_spec (Z.of_N (x * m)) MIN_INT64) as [Hneg'|_]; [lia|].
  cbn [orb]. reflexivity.
Qed.

(** The three input checks all answer [PriceStale]. *)
Lemma convert_rejects (x : N) (e : Z) :
  x = 0 \/ 100000000 < x \/ (e < -18)%Z \/ (-2 < e)%Z ->
  _convertToPythPrice x e = Revert PriceStale.
Proof.
  intros H. unfold _convertToPythPrice.
  destruct (N.eqb_spec x 0) as [?|Hx0]; [reflexivity|].
  destruct (N.ltb_spec 100000000 x) as [?|Hx]; [reflexivity|].
  destruct (Z.ltb_spec (-2) e) as [?|He1]; [reflexivity|].
  destruct (Z.ltb_spec e (-18)) as [?|He2]; [reflexivity|].
  lia.
Qed.

(** A successful conversion pins down its inputs and its output. *)
Lemma convert_Ok_inv (x : N) (e p : Z) :
  _convertToPythPrice x e = Ok p ->
  1 <= x <= 100000000 /\ (-18 <= e <= -2)%Z /\
  p = Z.of_N (x * 10 ^ Z.to_N (- e)) /\ (p <= MAX_INT64)%Z.
Proof.
  intros H.
  assert (Hx : 1 <= x <= 100000000).
  { destruct (N.eq_dec x 0) as [Hx0|]; [|destruct (N.lt_ge_cases 100000000 x)].
    - rewrite convert_rejects in H by auto. discriminate.
    - rewrite convert_rejects in H by auto. discriminate.
    - lia. }
  assert (He : (-18 <= e <= -2)%Z).
  { destruct (Z.lt_ge_cases e (-18)); [|destruct (Z.lt_ge_cases (-2) e)].
    - rewrite convert_rejects in H by auto. discriminate.
    - rewrite convert_rejects in H by auto. discriminate.
    - lia. }
  rewrite (convert_in_band x e Hx He) in H.
  destruct (Z.ltb_spec MAX_INT64 (Z.of_N (x * 10 ^ Z.to_N (- e)))); [discriminate|].
  injection H as <-. auto.
Qed.

(** The inverse division undoes the multiplication. *)
Lemma display_of_convert (x : N) (e p : Z) :
  _convertToPythPrice x e = Ok p -> toDisplayFormat p e = Ok x.
Proof.
  intros H. apply convert_Ok_inv in H as (Hx & He & -> & _).
  destruct (to_uint32_neg_band e He) as [Hneg Hcast].
  pose proof (pow10_band (Z.to_N (- e)) ltac:(lia)) as [Hm2 Hm18].
  unfold toDisplayFormat. rewrite Hneg. cbn [bind_result]. rewrite Hcast.
  unfold checked_pow, toUint256, checked_div.
  remember (10 ^ Z.to_N (- e)) as m eqn:Em. clear Em Hneg Hcast.
  change (10 ^ 18) with 1000000000000000000 in Hm18.
  assert (Hmax : 1000000000000000000 < MAX_UINT256) by reflexivity.
  destruct (N.ltb_spec MAX_UINT256 m) as [Hbig|_]; [lia|].
  cbn [bind_result].
  destruct (Z.ltb_spec (Z.of_N (x * m)) 0) as [?|_]; [lia|].
  cbn [bind_result]. rewrite N2Z.id.
  destruct (N.eqb_spec m 0) as [?|Hm0]; [lia|].
  rewrite N.div_mul by exact Hm0. reflexivity.
Qed.

End PriceConversionFacts.

(** ** Reasoning about transactions *)

Section TxFacts.
Context {W A B : Type}.

Lemma bind_Ok (m : M W A) (k : A -> M W B) env w r :
  bind m k env w = Ok r <->
  exists a w1, m env w = Ok (a, w1) /\ k a env w1 = Ok r.
Proof.
  unfold bind. split.
  - destruct (m env w) as [[a w1]|e]; [eauto|discriminate].
  - intros (a & w1 & -> & Hk). exact Hk.
Qed.

Lemma bind_Revert (m : M W A) (k : A -> M W B) env w e :
  bind m k env w = Revert e <->
  m env w = Revert e \/ exists a w1, m env w = Ok (a, w1) /\ k a env w1 = Revert e.
Proof.
  unfold bind. split.
  - destruct (m env w) as [[a w1]|e']; [eauto|intros [= ->]; auto].
  - intros [-> | (a & w1 & -> & Hk)]; [reflexivity|exact Hk].
Qed.

(** A reverted transaction changes nothing; a successful one installs the
    world it computed. *)
Lemma transact_Revert (m : M W A) env w e :
  m env w = Revert e -> transact m env w = (w, Revert e).
Proof. unfold transact. intros ->. reflexivity. Qed.

Lemma transact_Ok (m : M W A) env w a w' :
  m env w = Ok (a, w') -> transact m env w = (w', Ok a).
Proof. unfold transact. intros ->. reflexivity. Qed.

End TxFacts.

(** Boolean tests of the source as propositions. *)
Ltac bool_to_prop :=
  repeat match goal with
  | H : negb _ = true |- _ => apply negb_true_iff in H
  | H : negb _ = false |- _ => apply negb_false_iff in H
  | H : (_ || _)%bool = false |- _ => apply orb_false_iff in H; destruct H
  | H : (_ || _)%bool = true |- _ => apply orb_true_iff in H; destruct H
  | H : (_ && _)%bool = false |- _ => apply andb_false_iff in H; destruct H
  | H : (_ && _)%bool = true |- _ => apply andb_true_iff in H; destruct H
  | H : (_ <? _) = true |- _ => apply N.ltb_lt in H
  | H : (_ <? _) = false |- _ => apply N.ltb_ge in H
  | H : (_ <=? _) = true |- _ => apply N.leb_le in H
  | H : (_ <=? _) = false |- _ => apply N.leb_gt in H
  | H : (_ =? _) = true |- _ => apply N.eqb_eq in H
  | H : (_ =? _) = false |- _ => apply N.eqb_neq in H
  | H : (_ <? _)%Z = true |- _ => apply Z.ltb_lt in H
  | H : (_ <? _)%Z = false |- _ => apply Z.ltb_ge in H
  | H : (_ <=? _)%Z = true |- _ => apply Z.leb_le in H
  | H : (_ <=? _)%Z = false |- _ => apply Z.leb_gt in H
  | H : (_ =? _)%Z = true |- _ => apply Z.eqb_eq in H
  | H : (_ =? _)%Z = false |- _ => apply Z.eqb_neq in H
  end.

(** Unfolding of the primitive actions of [M]. *)
Ltac tx_prims :=
  unfold ret, revert, lift, ask, get, put, revert_if, read, write, emit,
    payable, nonpayable, sendValue, getUpdateFee, updatePriceFeeds,
    getPriceNoOlderThan, checked_add, checked_sub, checked_mul in *.

(** Inversion of a successful run [H : m env w = Ok r]: one hypothesis per
    test passed on the way, and the final world. *)
Ltac tx_inv H :=
  lazymatch type of H with
  | bind _ _ _ _ = Ok _ =>
      let Hm := fresh "Hm" in
      apply bind_Ok in H; destruct H as (? & ? & Hm & H);
      tx_inv Hm; cbv beta zeta in H; tx_inv H
  | _ => idtac
  end.

Ltac tx_simpl :=
  repeat (match goal with
   | H : Ok _ = Ok _ |- _ => injection H as H
   | H : Revert _ = Ok _ |- _ => discriminate H
   | H : (_, _) = (_, _) |- _ => injection H as ? ?
   | H : (if ?c then _ else _) = Ok _ |- _ =>
       let E := fresh "Hc" in destruct c eqn:E
   | H : (if ?c then _ else _) _ _ = Ok _ |- _ =>
       let E := fresh "Hc" in destruct c eqn:E
   | H : match ?o with Some _ => _ | None => _ end = Ok _ |- _ =>
       let E := fresh "Ho" in destruct o eqn:E
   | H : match ?o with Ok _ => _ | Revert _ => _ end = Ok _ |- _ =>
       let E := fresh "Hr" in destruct o eqn:E
   end; subst; cbn [storage balance trace] in *).

Ltac tx_invert H := tx_inv H; tx_prims; tx_simpl.

(** Forward execution of a goal [m env w = Ok _] whose tests are all known. *)
Ltac tx_run :=
  repeat (cbn [storage balance trace fst snd];
    match goal with
    | H : ?o = Some _ |- context [match ?o with Some _ => _ | None => _ end] =>
        rewrite H
    | H : ?o = Ok _ |- context [match ?o with Ok _ => _ | Revert _ => _ end] =>
        rewrite H
    | H : ?c = true |- context [if ?c then _ else _] => rewrite H
    | H : ?c = false |- context [if ?c then _ else _] => rewrite H
    | |- context [if ?c then Revert _ else _] =>
        let E := fresh "E" in
        destruct c eqn:E;
        [exfalso; bool_to_prop; first [contradiction | congruence | lia] | ]
    | |- context [if ?c then _ else Revert _] =>
        let E := fresh "E" in
        destruct c eqn:E;
        [ | exfalso; bool_to_prop; first [contradiction | congruence | lia]]
    end);
  cbn [storage balance trace fst snd].

(** ** The entry points of the current contract, characterised *)

Section EntryPoints.
Import Betflix Summary.

Lemma joinBet_Ok_iff id env (w w' : W) :
  joinBet id env w = Ok (tt, w') <->
  joinable env w id /\ w' = joined_world env w id.
Proof.
  split.
  - intros H. unfold joinBet in H. tx_invert H.
    split; [constructor; bool_to_prop; first [eassumption | lia]|reflexivity].
  - intros [[] ->]. unfold joinBet, joined_world. tx_prims. unfold bind.
    tx_run. reflexivity.
Qed.

Lemma resolveBet_Ok_iff id data env (w w' : W) :
  resolveBet id data env w = Ok (tt, w') <->
  exists fee fp,
    ready_to_settle env w id data fee fp /\ paid_out env w id fee fp /\
    w' = resolved_world env w id fee fp.
Proof.
  split.
  - intros H. unfold resolveBet in H. tx_invert H.
    all: cbn [nameWrapper ensDomainNode ensResolver update_bet set_bet] in *.
    all: unfold try_setSubnodeRecord in *; tx_simpl.
    all: eexists _, _; split; [|split].
    all: try (constructor; try (intros ?; first [assumption | congruence]);
              bool_to_prop; unfold winner_of; first [eassumption | lia]).
    all: unfold resolved_world, trophy_trace, winner_of, loser_of;
      repeat match goal with H : _ = _ |- _ => rewrite H end;
      cbn [storage balance trace]; rewrite <- ?app_assoc; reflexivity.
  - intros (fee & fp & [] & [] & ->).
    unfold resolveBet, resolved_world, trophy_trace, winner_of, loser_of in *.
    tx_prims. unfold bind. tx_run.
    cbn [storage nameWrapper ensDomainNode ensResolver update_bet set_bet].
    destruct (negb (nameWrapper (storage w) =? 0)
              && negb (ensDomainNode (storage w) =? 0)) eqn:Hens.
    + unfold try_setSubnodeRecord.
      cbn [storage nameWrapper ensDomainNode ensResolver update_bet set_bet].
      rewrite po_trophy_callable0 by reflexivity.
      destruct (nameWrapper_setSubnodeRecord env _ _ _ _ 0 0 0);
        cbn [storage balance trace]; rewrite <- ?app_assoc; reflexivity.
    + cbn [storage balance trace]. rewrite <- ?app_assoc. reflexivity.
Qed.

Lemma cancelBet_Ok_iff id env (w w' : W) :
  cancelBet id env w = Ok (tt, w') <->
  cancellable env w id /\ w' = cancelled_world env w id.
Proof.
  split.
  - intros H. unfold cancelBet in H. tx_invert H.
    split.
    + constructor; bool_to_prop; first [eassumption | lia | congruence].
    + unfold cancelled_world. rewrite <- ?app_assoc. reflexivity.
  - intros [[] ->]. unfold cancelBet, cancelled_world. tx_prims. unfold bind.
    tx_run. rewrite <- ?app_assoc. reflexivity.
Qed.

Section Create.
Context (keccak256_packed : address -> bytes32 -> N -> N -> N -> bytes32).
Context (keccak256_bytes : string -> bytes32).

Lemma createBet_Ok_iff data feed target duration joinDuration label env (w w' : W) id :
  createBet keccak256_packed keccak256_bytes
    data feed target duration joinDuration label env w = Ok (id, w') <->
  exists fee cp tp,
    creatable keccak256_packed env w data feed target duration joinDuration label
      fee cp tp /\
    used_at (storage w) (keccak256_bytes label) = false /\
    id = new_id keccak256_packed env feed target /\
    w' = created_world keccak256_packed keccak256_bytes env w feed target
           duration joinDuration label fee cp tp.
Proof.
  split.
  - intros H. unfold createBet, _createBetWithENS in H. tx_invert H.
    eexists _, _, _. split; [|split; [|split]].
    + constructor; bool_to_prop; unfold new_id, MAX_UINT256 in *;
        first [eassumption | lia].
    + assumption.
    + reflexivity.
    + unfold created_world, created_bet, new_id.
      rewrite <- ?app_assoc. reflexivity.
  - intros (fee & cp & tp & [] & Hfree & -> & ->).
    unfold createBet, _createBetWithENS, created_world, created_bet, new_id in *.
    tx_prims. unfold bind. tx_run.
    rewrite <- ?app_assoc. reflexivity.
Qed.

End Create.

End EntryPoints.

(** ** Storage reads after writes *)

Section StorageFacts.
Import Betflix Summary.

Lemma bet_at_set_bet (s : Storage) (id id' : bytes32) (b : Bet) :
  bet_at (set_bet id b s) id' = if decide (id = id') then b else bet_at s id'.
Proof.
  unfold bet_at, set_bet. cbn [bets].
  rewrite lookup_insert. destruct (decide (id = id')); reflexivity.
Qed.

Lemma bet_at_update_bet (s : Storage) (id id' : bytes32) (f : Bet -> Bet) :
  bet_at (update_bet id f s) id' =
    if decide (id = id') then f (bet_at s id) else bet_at s id'.
Proof. unfold update_bet. apply bet_at_set_bet. Qed.

Lemma bet_at_set_used (s : Storage) (l : bytes32) (v : bool) (id : bytes32) :
  bet_at (set_used l v s) id = bet_at s id.
Proof. reflexivity. Qed.

Lemma used_at_set_used (s : Storage) (l l' : bytes32) (v : bool) :
  used_at (set_used l v s) l' = if decide (l = l') then v else used_at s l'.
Proof.
  unfold used_at, set_used. cbn [usedSubdomains].
  rewrite lookup_insert. destruct (decide (l = l')); reflexivity.
Qed.

Lemma used_at_set_bet (s : Storage) (id : bytes32) (b : Bet) (l : bytes32) :
  used_at (set_bet id b s) l = used_at s l.
Proof. reflexivity. Qed.

Lemma used_at_update_bet (s : Storage) (id : bytes32) (f : Bet -> Bet) (l : bytes32) :
  used_at (update_bet id f s) l = used_at s l.
Proof. reflexivity. Qed.

End StorageFacts.

(** ** One transaction at a time *)

Section Steps.
Import Betflix Summary.
Context (keccak256_packed : address -> bytes32 -> N -> N -> N -> bytes32).
Context (keccak256_bytes : string -> bytes32).

Abbreviation step' := (step keccak256_packed keccak256_bytes).
Abbreviation evolves' := (evolves keccak256_packed keccak256_bytes).
Abbreviation reachable' := (reachable keccak256_packed keccak256_bytes).

Lemma step_effect env c w :
  effect_of keccak256_packed keccak256_bytes env w c (step' env c w).
Proof.
  unfold step, transact.
  destruct (dispatch keccak256_packed keccak256_bytes c env w) as [[[] w']|e] eqn:H;
    cbn [fst]; [|apply eff_none].
  destruct c; cbn [dispatch] in H.
  - apply bind_Ok in H as (id & w1 & H & Hret).
    unfold ret in Hret. injection Hret as ->.
    apply createBet_Ok_iff in H as (fee & cp & tp & Hc & Hfree & _ & ->).
    apply eff_create; assumption.
  - apply joinBet_Ok_iff in H as [Hj ->]. apply eff_join; assumption.
  - apply resolveBet_Ok_iff in H as (fee & fp & Hr & Hp & ->).
    apply eff_resolve; assumption.
  - apply cancelBet_Ok_iff in H as [Hc ->]. apply eff_cancel; assumption.
  - unfold configureENS, onlyOwner in H. tx_invert H. apply eff_admin; reflexivity.
  - unfold emergencyWithdrawAll, onlyOwner in H. tx_invert H.
    apply eff_admin; reflexivity.
  - unfold emergencyUpdatePyth, onlyOwner, isValidAddress in H. tx_invert H.
    apply eff_admin; reflexivity.
  - unfold transferOwnership, onlyOwner in H. tx_invert H.
    apply eff_admin; reflexivity.
  - unfold renounceOwnership, onlyOwner in H. tx_invert H.
    apply eff_admin; reflexivity.
Qed.

End Steps.

(** ** Invariants of the bet store and the reservation table *)

Section Invariants.
Import Betflix Summary.
Context (keccak256_packed : address -> bytes32 -> N -> N -> N -> bytes32).
Context (keccak256_bytes : string -> bytes32).

Lemma bet_at_same_bets (w w' : W) id :
  bets (storage w') = bets (storage w) ->
  bet_at (storage w') id = bet_at (storage w) id.
Proof. unfold bet_at. intros ->. reflexivity. Qed.

Lemma used_at_same_table (w w' : W) l :
  usedSubdomains (storage w') = usedSubdomains (storage w) ->
  used_at (storage w') l = used_at (storage w) l.
Proof. unfold used_at. intros ->. reflexivity. Qed.

Ltac split_id id id' :=
  destruct (decide (id = id')) as [<-|?].

Lemma effect_consistent env c w w' :
  (is_create c -> msg_sender env <> 0) ->
  effect_of keccak256_packed keccak256_bytes env w c w' ->
  consistent w -> consistent w'.
Proof.
  intros Hsender Heff [I1 I2 I3 I4].
  destruct Heff as [c | data feed target duration joinDuration label fee cp tp Hc Hfree
                   | id0 Hj | id0 data fee fp Hr Hp | id0 Hc | c w' Hb Hu].
  - constructor; assumption.
  - (* createBet *)
    specialize (Hsender I).
    destruct Hc. unfold created_world. cbn [storage].
    set (nid := new_id keccak256_packed env feed target) in *.
    set (nb := created_bet keccak256_bytes env feed duration joinDuration label fee cp tp).
    assert (Hlive_old : forall id, id <> nid ->
              live (bet_at (storage w) id) ->
              ensLabel (bet_at (storage w) id) <> keccak256_bytes label).
    { intros id _ Hl Heq. apply I3 in Hl. rewrite Heq in Hl. congruence. }
    constructor; intros *; cbn [storage]; rewrite ?bet_at_set_bet, ?bet_at_set_used,
      ?used_at_set_bet, ?used_at_set_used.
    + split_id nid id; [intros [H _]; discriminate H|apply I1].
    + split_id nid id; [intros _; exact Hsender|apply I2].
    + split_id nid id.
      * intros _. cbn [nb created_bet ensLabel].
        destruct (decide _); [reflexivity|congruence].
      * intros Hl. destruct (decide _); [reflexivity|apply I3; exact Hl].
    + split_id nid id1; split_id nid id2; try reflexivity.
      * intros _ Hl Heq. exfalso. eapply Hlive_old; [|exact Hl|]; [congruence|].
        symmetry. exact Heq.
      * intros Hl _ Heq. exfalso. eapply Hlive_old; [|exact Hl|]; [congruence|].
        exact Heq.
      * apply I4.
  - (* joinBet *)
    destruct Hj. unfold joined_world. cbn [storage].
    constructor; intros *; cbn [storage]; rewrite ?bet_at_update_bet, ?used_at_update_bet.
    + split_id id0 id; [cbn; intros [H1 H2]; congruence|apply I1].
    + split_id id0 id; [intros _; assumption|apply I2].
    + split_id id0 id; [|apply I3]. intros Hl. apply (I3 id0). exact Hl.
    + intros H1 H2 H3. apply I4.
      * split_id id0 id1; [exact H1|exact H1].
      * split_id id0 id2; [exact H2|exact H2].
      * revert H3. split_id id0 id1; split_id id0 id2; cbn; auto.
  - (* resolveBet *)
    destruct Hr. unfold resolved_world. cbn [storage].
    assert (Hb : forall id,
      bet_at (update_bet id0 (set_winner (winner_of (bet_at (storage w) id0) (price fp)))
               (update_bet id0 (set_resolved true) (storage w))) id =
      if decide (id0 = id)
      then set_winner (winner_of (bet_at (storage w) id0) (price fp))
             (set_resolved true (bet_at (storage w) id0))
      else bet_at (storage w) id).
    { intros id. rewrite !bet_at_update_bet.
      split_id id0 id; [rewrite decide_True by reflexivity|]; reflexivity. }
    constructor; intros *; cbn [storage]; rewrite ?Hb, ?used_at_update_bet.
    + split_id id0 id; [cbn; intros [H1 H2]; congruence|apply I1].
    + split_id id0 id; [intros _; assumption|apply I2].
    + split_id id0 id; [|apply I3]. intros Hl. apply (I3 id0). exact Hl.
    + intros H1 H2 H3. apply I4.
      * split_id id0 id1; [exact H1|exact H1].
      * split_id id0 id2; [exact H2|exact H2].
      * revert H3. split_id id0 id1; split_id id0 id2; cbn; auto.
  - (* cancelBet *)
    destruct Hc. unfold cancelled_world. cbn [storage].
    assert (Hlive0 : live (bet_at (storage w) id0)) by (split; assumption).
    constructor; intros *; cbn [storage];
      rewrite ?bet_at_set_used, ?bet_at_update_bet, ?used_at_set_used,
        ?used_at_update_bet.
    + split_id id0 id; [cbn; intros [H1 H2]; congruence|apply I1].
    + split_id id0 id; [intros _; assumption|apply I2].
    + split_id id0 id; [intros [_ Hl]; cbn in Hl; discriminate|].
      intros Hl. destruct (decide _) as [Heq|_]; [|apply I3; exact Hl].
      exfalso. apply n. apply I4; auto.
    + split_id id0 id1; [intros [_ Hl]; cbn in Hl; discriminate|].
      split_id id0 id2; [intros _ [_ Hl]; cbn in Hl; discriminate|].
      apply I4.
  - (* administration *)
    constructor; intros *;
      rewrite ?(bet_at_same_bets w w') by assumption;
      rewrite ?(used_at_same_table w w') by assumption; auto.
Qed.

Lemma step_consistent env c w :
  msg_sender env <> 0 -> consistent w ->
  consistent (step keccak256_packed keccak256_bytes env c w).
Proof. intros Hs. eapply effect_consistent; [intros _; exact Hs|apply step_effect]. Qed.

Lemma evolves_consistent w w' :
  evolves keccak256_packed keccak256_bytes w w' -> consistent w -> consistent w'.
Proof.
  induction 1 as [|w' env c _ IH Hs]; intros Hw; [exact Hw|].
  apply step_consistent; auto.
Qed.

Lemma deployed_consistent addr env w0 :
  constructor addr env new_world = Ok (tt, w0) -> consistent w0.
Proof.
  intros H. unfold constructor, isValidAddress in H. tx_invert H.
  constructor; intros id; unfold bet_at, used_at, terminal, live;
    cbn; rewrite ?lookup_empty; cbn; try congruence; intros; intuition congruence.
Qed.

Lemma reachable_consistent w :
  reachable keccak256_packed keccak256_bytes w -> consistent w.
Proof.
  intros [env addr w0 w' Hd Hev].
  eapply evolves_consistent; [exact Hev|]. eapply deployed_consistent, Hd.
Qed.

Lemma evolves_trans w1 w2 w3 :
  evolves keccak256_packed keccak256_bytes w1 w2 ->
  evolves keccak256_packed keccak256_bytes w2 w3 ->
  evolves keccak256_packed keccak256_bytes w1 w3.
Proof.
  intros H12 H23. induction H23; [exact H12|]. apply evolves_step; assumption.
Qed.

Lemma reachable_evolves w w' :
  reachable keccak256_packed keccak256_bytes w ->
  evolves keccak256_packed keccak256_bytes w w' ->
  reachable keccak256_packed keccak256_bytes w'.
Proof.
  intros [env addr w0 w1 Hd Hev] H. econstructor; [exact Hd|].
  eapply evolves_trans; eassumption.
Qed.

End Invariants.

(** ** Resolution: winner and payout *)

Section Resolution.
Import Betflix Summary.

Lemma ether_sent_app {Ev} (t1 t2 : list (Effect Ev)) :
  ether_sent (t1 ++ t2) = ether_sent t1 ++ ether_sent t2.
Proof. unfold ether_sent. apply flat_map_app. Qed.

Lemma ether_sent_trophy env s b a : ether_sent (trophy_trace env s b a) = [].
Proof.
  unfold trophy_trace.
  destruct (negb (nameWrapper s =? 0) && negb (ensDomainNode s =? 0)); [|reflexivity].
  destruct (nameWrapper_setSubnodeRecord env _ _ _ _ 0 0 0); reflexivity.
Qed.

(** The bet record after a resolution. *)
Lemma resolved_world_bet env (w : W) id fee fp :
  bet_at (storage (resolved_world env w id fee fp)) id =
  set_winner (winner_of (bet_at (storage w) id) (price fp))
    (set_resolved true (bet_at (storage w) id)).
Proof.
  unfold resolved_world. cbn [storage]. rewrite !bet_at_update_bet.
  rewrite !decide_True by reflexivity. reflexivity.
Qed.

(** The ether a resolution moves: the pot to the winner, then the quoted
    fee to the caller. *)
Lemma resolveBet_transfers id data env (w w' : W) :
  resolveBet id data env w = Ok (tt, w') ->
  exists fee new,
    pyth_getUpdateFee env data = Some fee /\
    fee <= msg_value env /\
    trace w' = trace w ++ new /\
    ether_sent new =
      [(winner (bet_at (storage w') id), amount (bet_at (storage w) id) * 2);
       (msg_sender env, fee)].
Proof.
  intros H. apply resolveBet_Ok_iff in H as (fee & fp & Hr & Hp & ->).
  destruct Hr. eexists fee, _. split; [assumption|]. split; [assumption|].
  split; [reflexivity|].
  rewrite resolved_world_bet.
  change ([PaidOracle fee; ?a; ?b] ++ ?t) with ([PaidOracle fee; a; b] ++ t).
  rewrite !ether_sent_app, ether_sent_trophy. reflexivity.
Qed.

(** The winner a resolution records. *)
Lemma resolveBet_winner id data env (w w' : W) fp :
  resolveBet id data env w = Ok (tt, w') ->
  pyth_getPriceNoOlderThan env (priceFeedId (bet_at (storage w) id)) MAX_PRICE_AGE
    = Some fp ->
  resolved (bet_at (storage w') id) = true /\
  winner (bet_at (storage w') id) = winner_of (bet_at (storage w) id) (price fp).
Proof.
  intros H Hprice.
  apply resolveBet_Ok_iff in H as (fee & fp' & Hr & Hp & ->).
  destruct Hr. assert (fp' = fp) as -> by congruence.
  rewrite resolved_world_bet. split; reflexivity.
Qed.

Lemma winner_of_hit (b : Bet) (p : Z) :
  (targetPrice b <= p)%Z -> winner_of b p = player1 b.
Proof.
  intros H. unfold winner_of. rewrite Z.geb_leb.
  destruct (Z.leb_spec (targetPrice b) p); [reflexivity|lia].
Qed.

Lemma winner_of_miss (b : Bet) (p : Z) :
  (p < targetPrice b)%Z -> winner_of b p = player2 b.
Proof.
  intros H. unfold winner_of. rewrite Z.geb_leb.
  destruct (Z.leb_spec (targetPrice b) p); [lia|reflexivity].
Qed.

(** Two resolutions of the same bet in the same state, at a lower and at a
    higher final price: if the lower price makes the creator win, so does
    the higher; if the higher makes the joiner win, so does the lower. *)
Lemma resolveBet_winner_monotone id data1 data2 env1 env2 (w w1 w2 : W) fp1 fp2 :
  resolveBet id data1 env1 w = Ok (tt, w1) ->
  resolveBet id data2 env2 w = Ok (tt, w2) ->
  pyth_getPriceNoOlderThan env1 (priceFeedId (bet_at (storage w) id)) MAX_PRICE_AGE
    = Some fp1 ->
  pyth_getPriceNoOlderThan env2 (priceFeedId (bet_at (storage w) id)) MAX_PRICE_AGE
    = Some fp2 ->
  (price fp1 <= price fp2)%Z ->
  ((targetPrice (bet_at (storage w) id) <= price fp1)%Z ->
   winner (bet_at (storage w2) id) = player1 (bet_at (storage w) id)) /\
  ((price fp2 < targetPrice (bet_at (storage w) id))%Z ->
   winner (bet_at (storage w1) id) = player2 (bet_at (storage w) id)).
Proof.
  intros H1 H2 Hp1 Hp2 Hle.
  destruct (resolveBet_winner _ _ _ _ _ _ H1 Hp1) as [_ ->].
  destruct (resolveBet_winner _ _ _ _ _ _ H2 Hp2) as [_ ->].
  split; intros H; [apply winner_of_hit|apply winner_of_miss]; lia.
Qed.

(** C1. For every matched bet resolved after its deadline with a positive
    final price whose exponent equals the bet's stored [priceExponent],
    [resolveBet] marks the bet resolved and sets [winner] to the creator
    ([player1]) if [finalPrice >= targetPrice] and to the joiner ([player2])
    otherwise.  At [finalPrice = targetPrice] the creator wins.  For a
    fixed target the winner is the joiner for every price below the target
    and the creator for every price at or above it: one flip, at the
    target. *)
Theorem resolveBet_winner_by_target (id : bytes32) (data : list bytes)
    (env : Env) (w w' : W) (finalPrice : Price) :
  resolveBet id data env w = Ok (tt, w') ->
  pyth_getPriceNoOlderThan env (priceFeedId (bet_at (storage w) id)) MAX_PRICE_AGE
    = Some finalPrice ->
  let bet := bet_at (storage w) id in
  let bet' := bet_at (storage w') id in
  (player2 bet <> 0 /\ deadline bet <= block_timestamp env /\
   (0 < price finalPrice)%Z /\ expo finalPrice = priceExponent bet) /\
  resolved bet' = true /\
  ((price finalPrice >= targetPrice bet)%Z -> winner bet' = player1 bet) /\
  (price finalPrice = targetPrice bet -> winner bet' = player1 bet) /\
  ((price finalPrice < targetPrice bet)%Z -> winner bet' = player2 bet).
Proof.
  intros H Hprice bet bet'.
  apply resolveBet_Ok_iff in H as (fee & fp & Hr & Hp & ->).
  destruct Hr. unfold bet in *.
  assert (fp = finalPrice) as -> by congruence.
  unfold bet'. rewrite resolved_world_bet. cbn [winner resolved set_winner set_resolved].
  unfold winner_of. rewrite Z.geb_leb.
  repeat split; try assumption.
  - intros Hge. destruct (Z.leb_spec (targetPrice (bet_at (storage w) id)) (price finalPrice));
      [reflexivity|lia].
  - intros Heq. rewrite Heq, Z.leb_refl. reflexivity.
  - intros Hlt. destruct (Z.leb_spec (targetPrice (bet_at (storage w) id)) (price finalPrice));
      [lia|reflexivity].
Qed.

Lemma resolveBet_winner_by_target_witness :
  resolved (bet_at (storage Sample.settled) Sample.bet_id) = true /\
  winner (bet_at (storage Sample.settled) Sample.bet_id)
    = player1 (bet_at (storage Sample.matched) Sample.bet_id).
Proof.
  assert (Hrun : resolveBet Sample.bet_id [] Sample.resolve_env Sample.matched
                 = Ok (tt, Sample.settled)) by (vm_compute; reflexivity).
  assert (Hprice :
    pyth_getPriceNoOlderThan Sample.resolve_env
      (priceFeedId (bet_at (storage Sample.matched) Sample.bet_id)) MAX_PRICE_AGE
    = Some (Sample.usd 50000)) by reflexivity.
  destruct (resolveBet_winner_by_target Sample.bet_id [] Sample.resolve_env
              Sample.matched Sample.settled (Sample.usd 50000) Hrun Hprice)
    as (_ & Hres & _ & Htie & _).
  split; [exact Hres|]. apply Htie. vm_compute. reflexivity.
Defined.

(** What a resolution costs the contract, the transfers being atomic: the
    pot and the refund leave it, and so did the oracle's fee; only the
    caller's payment came in. *)
Remark resolveBet_balance id data env (w w' : W) :
  resolveBet id data env w = Ok (tt, w') ->
  exists fee,
    pyth_getUpdateFee env data = Some fee /\
    balance w' + 2 * amount (bet_at (storage w) id) + 2 * fee
    = balance w + msg_value env.
Proof.
  intros H. apply resolveBet_Ok_iff in H as (fee & fp & Hr & Hp & ->).
  destruct Hr, Hp. exists fee. split; [assumption|].
  unfold resolved_world. cbn [balance]. lia.
Qed.

(** C3. For every resolution, the transfers [resolveBet] makes with
    [sendValue] are the pot to the winner and the quoted oracle fee to the
    caller; their sum never exceeds what was escrowed for the bet (both
    stakes, the creator's oracle fee and the caller's payment), and the
    caller gets back the quoted fee exactly, whatever they sent above it. *)
Theorem resolveBet_payout_conservation (id : bytes32) (data : list bytes)
    (env : Env) (w w' : W) :
  resolveBet id data env w = Ok (tt, w') ->
  let bet := bet_at (storage w) id in
  exists quotedFee payout refund new,
    pyth_getUpdateFee env data = Some quotedFee /\
    trace w' = trace w ++ new /\
    ether_sent new =
      [(winner (bet_at (storage w') id), payout); (msg_sender env, refund)] /\
    payout + refund <= 2 * amount bet + pythUpdateFee bet + msg_value env /\
    refund = quotedFee /\
    quotedFee <= msg_value env.
Proof.
  intros H bet.
  apply resolveBet_transfers in H as (fee & new & Hq & Hfee & Htr & Hsent).
  exists fee, (amount bet * 2), fee, new. fold bet in Hsent.
  repeat split; try assumption. lia.
Qed.

Lemma resolveBet_payout_conservation_witness :
  exists quotedFee payout refund new,
    pyth_getUpdateFee Sample.resolve_env [] = Some quotedFee /\
    trace Sample.settled = trace Sample.matched ++ new /\
    ether_sent new =
      [(winner (bet_at (storage Sample.settled) Sample.bet_id), payout);
       (msg_sender Sample.resolve_env, refund)] /\
    payout + refund <=
      2 * amount (bet_at (storage Sample.matched) Sample.bet_id)
      + pythUpdateFee (bet_at (storage Sample.matched) Sample.bet_id)
      + msg_value Sample.resolve_env /\
    refund = quotedFee /\
    quotedFee <= msg_value Sample.resolve_env.
Proof.
  assert (Hrun : resolveBet Sample.bet_id [] Sample.resolve_env Sample.matched
                 = Ok (tt, Sample.settled)) by (vm_compute; reflexivity).
  exact (resolveBet_payout_conservation Sample.bet_id [] Sample.resolve_env
           Sample.matched Sample.settled Hrun).
Defined.

End Resolution.

(** ** The creator's oracle fee *)

Section OracleFee.
Import Betflix Summary.

(** C4. The oracle fee paid at creation is never returned.  [resolveBet]
    transfers exactly twice the stake to the winner, whatever the bet's
    stored [pythUpdateFee] (the only other transfer is the caller's own
    quoted fee), and [cancelBet] transfers exactly the stake to the
    creator, nothing for the [pythUpdateFee]. *)
Theorem oracle_fee_never_returned :
  (forall (id : bytes32) (data : list bytes) (env : Env) (w w' : W),
     resolveBet id data env w = Ok (tt, w') ->
     exists quotedFee new,
       pyth_getUpdateFee env data = Some quotedFee /\
       trace w' = trace w ++ new /\
       ether_sent new =
         [(winner (bet_at (storage w') id), 2 * amount (bet_at (storage w) id));
          (msg_sender env, quotedFee)]) /\
  (forall (id : bytes32) (env : Env) (w w' : W),
     cancelBet id env w = Ok (tt, w') ->
     exists new,
       msg_sender env = player1 (bet_at (storage w) id) /\
       trace w' = trace w ++ new /\
       ether_sent new =
         [(player1 (bet_at (storage w) id), amount (bet_at (storage w) id))]).
Proof.
  split.
  - intros id data env w w' H.
    apply resolveBet_transfers in H as (fee & new & Hq & _ & Htr & Hsent).
    exists fee, new. rewrite N.mul_comm. auto.
  - intros id env w w' H.
    apply cancelBet_Ok_iff in H as [Hc ->]. destruct Hc.
    eexists. split; [congruence|]. split; [reflexivity|].
    cbn. congruence.
Qed.

Lemma oracle_fee_never_returned_witness :
  (exists quotedFee new,
     pyth_getUpdateFee Sample.resolve_env [] = Some quotedFee /\
     trace Sample.settled = trace Sample.matched ++ new /\
     ether_sent new =
       [(winner (bet_at (storage Sample.settled) Sample.bet_id),
         2 * amount (bet_at (storage Sample.matched) Sample.bet_id));
        (msg_sender Sample.resolve_env, quotedFee)]) /\
  (exists new,
     msg_sender Sample.cancel_env = player1 (bet_at (storage Sample.opened) Sample.bet_id) /\
     trace Sample.called_off = trace Sample.opened ++ new /\
     ether_sent new =
       [(player1 (bet_at (storage Sample.opened) Sample.bet_id),
         amount (bet_at (storage Sample.opened) Sample.bet_id))]).
Proof.
  assert (Hrun : resolveBet Sample.bet_id [] Sample.resolve_env Sample.matched
                 = Ok (tt, Sample.settled)) by (vm_compute; reflexivity).
  assert (Hcancel : cancelBet Sample.bet_id Sample.cancel_env Sample.opened
                    = Ok (tt, Sample.called_off)) by (vm_compute; reflexivity).
  split.
  - exact (proj1 oracle_fee_never_returned Sample.bet_id [] Sample.resolve_env
             Sample.matched Sample.settled Hrun).
  - exact (proj2 oracle_fee_never_returned Sample.bet_id Sample.cancel_env
             Sample.opened Sample.called_off Hcancel).
Defined.

End OracleFee.

(** ** Resolution too early or without a joiner *)

Section ResolveGuards.
Import Betflix Summary.

(** C9, as the code has it.  For every existing, non-cancelled bet:
    [resolveBet] on an unmatched bet fails with [BetNotMatched] at any
    time, before the deadline as well as after it; on a matched bet,
    [resolveBet] strictly before the deadline fails with [BetNotExpired]. *)
Theorem resolveBet_unmatched_or_early (id : bytes32) (data : list bytes)
    (env : Env) (w : W) :
  let bet := bet_at (storage w) id in
  player1 bet <> 0 -> cancelled bet = false ->
  (player2 bet = 0 -> resolveBet id data env w = Revert BetNotMatched) /\
  (player2 bet <> 0 -> block_timestamp env < deadline bet ->
   resolveBet id data env w = Revert BetNotExpired).
Proof.
  intros bet Hexists Hlive. unfold bet in *.
  apply N.eqb_neq in Hexists.
  split.
  - intros Hopen. apply N.eqb_eq in Hopen.
    unfold resolveBet. tx_prims. unfold bind. cbn [storage balance trace].
    rewrite Hexists, Hlive, Hopen. reflexivity.
  - intros Hmatched Hearly. apply N.eqb_neq in Hmatched. apply N.ltb_lt in Hearly.
    unfold resolveBet. tx_prims. unfold bind. cbn [storage balance trace].
    rewrite Hexists, Hlive, Hmatched, Hearly. reflexivity.
Qed.

Lemma resolveBet_unmatched_or_early_witness :
  resolveBet Sample.bet_id [] Sample.resolve_env Sample.opened = Revert BetNotMatched /\
  resolveBet Sample.bet_id [] Sample.early_env Sample.matched = Revert BetNotExpired.
Proof.
  split.
  - refine (proj1 (resolveBet_unmatched_or_early Sample.bet_id [] Sample.resolve_env
                     Sample.opened _ _) _);
      vm_compute; first [reflexivity | discriminate].
  - refine (proj2 (resolveBet_unmatched_or_early Sample.bet_id [] Sample.early_env
                     Sample.matched _ _) _ _);
      vm_compute; first [reflexivity | discriminate].
Defined.

(** C9 as stated fails: an existing, non-cancelled bet that nobody joined,
    resolved strictly before its deadline, is refused with [BetNotMatched],
    not with [BetNotExpired]. *)
Lemma resolveBet_before_deadline_counterexample :
  let bet := bet_at (storage Sample.opened) Sample.bet_id in
  player1 bet <> 0 /\ cancelled bet = false /\
  block_timestamp Sample.early_env < deadline bet /\
  resolveBet Sample.bet_id [] Sample.early_env Sample.opened = Revert BetNotMatched /\
  resolveBet Sample.bet_id [] Sample.early_env Sample.opened <> Revert BetNotExpired.
Proof.
  vm_compute. repeat split; discriminate.
Qed.

End ResolveGuards.

(** ** Reverted runs

    Case analysis of a reverted run [H : m env w = Revert e]: one goal per
    place where the run can stop. *)
Ltac tx_rev H :=
  lazymatch type of H with
  | bind _ _ _ _ = Revert _ =>
      let Hm := fresh "Hm" in
      apply bind_Revert in H; destruct H as [H | (? & ? & Hm & H)];
      [tx_rev H | tx_inv Hm; cbv beta zeta in H; tx_rev H]
  | _ => idtac
  end.

Ltac tx_rev_simpl :=
  repeat (match goal with
   | H : Ok _ = Revert _ |- _ => discriminate H
   | H : Revert _ = Revert _ |- _ => injection H as H
   | H : (if ?c then _ else _) = Revert _ |- _ =>
       let E := fresh "Hc" in destruct c eqn:E
   | H : match ?o with Some _ => _ | None => _ end = Revert _ |- _ =>
       let E := fresh "Ho" in destruct o eqn:E
   | H : match ?o with Ok _ => _ | Revert _ => _ end = Revert _ |- _ =>
       let E := fresh "Hr" in destruct o eqn:E
   end; cbn [storage balance trace] in *).

Ltac tx_revert_cases H := tx_rev H; tx_prims; tx_simpl; tx_rev_simpl.

(** ** The fee guard of [createBet] *)

Section FeeGuard.
Import Betflix Summary.
Context (keccak256_packed : address -> bytes32 -> N -> N -> N -> bytes32).
Context (keccak256_bytes : string -> bytes32).

Lemma convert_error_kinds (x : N) (e : Z) (err : Error) :
  _convertToPythPrice x e = Revert err ->
  err = PriceStale \/ exists v, err = SafeCastOverflowedIntDowncast 64 v.
Proof.
  intros H.
  destruct (N.eq_dec x 0) as [Hx0|Hx0].
  { rewrite convert_rejects in H by auto. injection H as <-. auto. }
  destruct (N.lt_ge_cases 100000000 x).
  { rewrite convert_rejects in H by auto. injection H as <-. auto. }
  destruct (Z.lt_ge_cases e (-18)).
  { rewrite convert_rejects in H by auto. injection H as <-. auto. }
  destruct (Z.lt_ge_cases (-2) e).
  { rewrite convert_rejects in H by auto. injection H as <-. auto. }
  rewrite convert_in_band in H by lia.
  destruct (_ <? _)%Z; [|discriminate]. injection H as <-. eauto.
Qed.

(** C10. In [createBet], a value below the quoted oracle fee makes the
    subtraction [msg.value - pythFee] underflow: the call ends with the
    compiler's arithmetic panic, not with a named error.  Whenever the test
    [msg.value < betAmount + pythFee] is reached it is false, and no input
    makes [createBet] end with [InsufficientPythFee]. *)
Theorem createBet_fee_guard_unreachable (data : list bytes) (feed : bytes32)
    (target duration joinDuration : N) (label : string) (env : Env) (w : W) :
  (forall quotedFee,
     pyth_getUpdateFee env data = Some quotedFee -> msg_value env < quotedFee ->
     createBet keccak256_packed keccak256_bytes
       data feed target duration joinDuration label env w
     = Revert (Panic ARITHMETIC)) /\
  (forall pythFee betAmount due,
     checked_sub (msg_value env) pythFee = Ok betAmount ->
     checked_add betAmount pythFee = Ok due ->
     (msg_value env <? due) = false) /\
  createBet keccak256_packed keccak256_bytes
    data feed target duration joinDuration label env w
  <> Revert InsufficientPythFee.
Proof.
  split; [|split].
  - intros fee Hq Hlt. apply N.ltb_lt in Hlt.
    unfold createBet. tx_prims. unfold bind. cbn [storage balance trace].
    rewrite Hq, Hlt. reflexivity.
  - intros fee betAmount due Hsub Hadd. unfold checked_sub, checked_add in *.
    destruct (N.ltb_spec (msg_value env) fee); [discriminate|].
    injection Hsub as <-.
    destruct (MAX_UINT256 <? _); [discriminate|]. injection Hadd as <-.
    apply N.ltb_ge. lia.
  - intros H. unfold createBet, _createBetWithENS in H.
    tx_revert_cases H; try congruence.
    all: try (bool_to_prop; lia).
    all: try match goal with
             | Hr : _convertToPythPrice _ _ = Revert _ |- _ =>
                 apply convert_error_kinds in Hr; destruct Hr as [?|[? ?]]; congruence
             end.
Qed.

End FeeGuard.

Lemma createBet_fee_guard_unreachable_witness :
  Betflix.createBet Sample.hash_packed Sample.hash_bytes
    [] Sample.feed 50000 300 60 "alpha" Sample.short_env Sample.deployed
  = Revert (Panic ARITHMETIC) /\
  (msg_value Sample.create_env <? Sample.ether + Sample.quote) = false.
Proof.
  split.
  - refine (proj1 (createBet_fee_guard_unreachable Sample.hash_packed
                     Sample.hash_bytes [] Sample.feed 50000 300 60 "alpha"
                     Sample.short_env Sample.deployed) Sample.quote _ _);
      vm_compute; reflexivity.
  - refine (proj1 (proj2 (createBet_fee_guard_unreachable Sample.hash_packed
                     Sample.hash_bytes [] Sample.feed 50000 300 60 "alpha"
                     Sample.create_env Sample.deployed))
              Sample.quote Sample.ether (Sample.ether + Sample.quote) _ _);
      vm_compute; reflexivity.
Defined.


(** ** External calls during resolution *)

Section ExternalCalls.
Import Betflix Summary.

(** What [resolveBet] does get right about its external calls, once the
    checks have passed.  If the name wrapper is a contract whose answers
    decode and it reverts in the trophy call, the resolution still
    succeeds, the bet ends resolved with its winner set, and the pot and
    the caller's fee refund are transferred; if the winner refuses the pot
    (or the contract cannot fund it), the whole call reverts with the
    transfer's error and the world is left as it was. *)
Lemma resolveBet_trophy_swallowed_payout_propagates (id : bytes32)
    (data : list bytes) (env : Env) (w : W) (fee : N) (finalPrice : Price) :
  ready_to_settle env w id data fee finalPrice ->
  let bet := bet_at (storage w) id in
  let winner_ :=
    if (price finalPrice >=? targetPrice bet)%Z then player1 bet else player2 bet in
  let totalPot := amount bet * 2 in
  (totalPot <= balance w + msg_value env - fee ->
   accepts_value env winner_ totalPot = true ->
   fee <= balance w + msg_value env - fee - totalPot ->
   accepts_value env (msg_sender env) fee = true ->
   nameWrapper_callable env (nameWrapper (storage w)) = true ->
   nameWrapper_setSubnodeRecord env (ensDomainNode (storage w)) (ensSubdomain bet)
     winner_ (ensResolver (storage w)) 0 0 0 = None ->
   exists w',
     transact (resolveBet id data) env w = (w', Ok tt) /\
     resolved (bet_at (storage w') id) = true /\
     winner (bet_at (storage w') id) = winner_ /\
     exists new,
       trace w' = trace w ++ new /\
       ether_sent new = [(winner_, totalPot); (msg_sender env, fee)]) /\
  (totalPot <= balance w + msg_value env - fee ->
   accepts_value env winner_ totalPot = false ->
   transact (resolveBet id data) env w = (w, Revert FailedCall)) /\
  (balance w + msg_value env - fee < totalPot ->
   transact (resolveBet id data) env w =
     (w, Revert (InsufficientBalance (balance w + msg_value env - fee) totalPot))).
Proof.
  intros Hready. cbv zeta.
  split; [|split].
  - intros Hfund Hacc Hfund' Hacc' Hcode Htrophy.
    assert (Hpaid : paid_out env w id fee finalPrice)
      by (constructor; first [assumption | intros _; assumption]).
    exists (resolved_world env w id fee finalPrice).
    split; [|split; [|split]].
    + apply transact_Ok. apply resolveBet_Ok_iff. eauto.
    + rewrite resolved_world_bet. reflexivity.
    + rewrite resolved_world_bet. reflexivity.
    + eexists. split; [reflexivity|].
      change ([PaidOracle fee; ?a; ?b] ++ ?t) with ([PaidOracle fee; a; b] ++ t).
      rewrite !ether_sent_app, ether_sent_trophy. reflexivity.
  - intros Hfund Hrefuse. apply transact_Revert.
    destruct Hready.
    unfold resolveBet. tx_prims. unfold bind. tx_run. reflexivity.
  - intros Hshort. apply transact_Revert.
    destruct Hready.
    apply N.ltb_lt in Hshort.
    unfold resolveBet. tx_prims. unfold bind. tx_run. reflexivity.
Qed.

(** C6. Not every failure of the trophy call is swallowed.  The call is
    wrapped in [try]/[catch], which catches a revert inside the name
    wrapper; but when ENS is configured and the address stored as name
    wrapper holds no code, or returns data that do not decode, a
    resolution that passes every check and whose two transfers go through
    reverts as a whole, without data: the bet is not resolved and neither
    the pot nor the refund is paid. *)
Theorem resolveBet_trophy_call_uncaught (id : bytes32) (data : list bytes)
    (env : Env) (w : W) (fee : N) (finalPrice : Price) :
  ready_to_settle env w id data fee finalPrice ->
  let bet := bet_at (storage w) id in
  let winner_ :=
    if (price finalPrice >=? targetPrice bet)%Z then player1 bet else player2 bet in
  let totalPot := amount bet * 2 in
  totalPot <= balance w + msg_value env - fee ->
  accepts_value env winner_ totalPot = true ->
  fee <= balance w + msg_value env - fee - totalPot ->
  accepts_value env (msg_sender env) fee = true ->
  nameWrapper (storage w) <> 0 -> ensDomainNode (storage w) <> 0 ->
  nameWrapper_callable env (nameWrapper (storage w)) = false ->
  transact (resolveBet id data) env w = (w, Revert RevertWithoutData).
Proof.
  intros Hready. cbv zeta. intros Hfund Hacc Hfund' Hacc' Hwrapper Hnode Hcode.
  apply transact_Revert. destruct Hready.
  apply N.eqb_neq in Hwrapper. apply N.eqb_neq in Hnode.
  unfold resolveBet. tx_prims. unfold bind. tx_run.
  cbn [storage nameWrapper ensDomainNode ensResolver update_bet set_bet].
  rewrite Hwrapper, Hnode. cbn [negb andb].
  unfold try_setSubnodeRecord. rewrite Hcode. reflexivity.
Qed.

End ExternalCalls.

(** ** Terminal states and trophy labels *)

Section Terminal.
Import Betflix Summary.
Context (keccak256_packed : address -> bytes32 -> N -> N -> N -> bytes32).
Context (keccak256_bytes : string -> bytes32).

Abbreviation evolves' := (evolves keccak256_packed keccak256_bytes).
Abbreviation reachable' := (reachable keccak256_packed keccak256_bytes).
Abbreviation createBet' := (createBet keccak256_packed keccak256_bytes).

(** No transaction touches the record of a terminal bet. *)
Lemma effect_keeps_terminal env c (w w' : W) id :
  effect_of keccak256_packed keccak256_bytes env w c w' ->
  consistent w -> terminal (bet_at (storage w) id) ->
  bet_at (storage w') id = bet_at (storage w) id.
Proof.
  intros Heff Hinv Hterm.
  pose proof (inv_terminal_exists w Hinv id Hterm) as Hexists.
  destruct Hterm as [Hterm|Hterm];
  destruct Heff as [c | data feed target duration joinDuration label fee cp tp Hc Hfree
                   | id0 Hj | id0 data fee fp Hr Hp | id0 Hc | c w' Hb Hu];
    try reflexivity;
    try (apply bet_at_same_bets; assumption).
  all: try (destruct Hc; unfold created_world; cbn [storage];
            rewrite bet_at_set_bet, bet_at_set_used;
            destruct (decide _) as [<-|_]; [congruence|reflexivity]).
  all: try (destruct Hj; unfold joined_world; cbn [storage];
            rewrite bet_at_update_bet;
            destruct (decide _) as [<-|_]; [congruence|reflexivity]).
  all: try (destruct Hr; unfold resolved_world; cbn [storage];
            rewrite !bet_at_update_bet;
            destruct (decide _) as [<-|_]; [congruence|reflexivity]).
  all: try (destruct Hc; unfold cancelled_world; cbn [storage];
            rewrite bet_at_set_used, bet_at_update_bet;
            destruct (decide _) as [<-|_]; [congruence|reflexivity]).
Qed.

Lemma evolves_keeps_terminal (w w' : W) id :
  evolves' w w' -> consistent w -> terminal (bet_at (storage w) id) ->
  bet_at (storage w') id = bet_at (storage w) id.
Proof.
  induction 1 as [|w' env c Hev IH Hs]; intros Hinv Hterm; [reflexivity|].
  rewrite <- IH by assumption.
  eapply effect_keeps_terminal.
  - apply step_effect.
  - eapply evolves_consistent; eassumption.
  - rewrite IH by assumption. exact Hterm.
Qed.

(** Every lifecycle call on a terminal bet reverts. *)
Lemma terminal_refuses_calls (w : W) id env :
  terminal (bet_at (storage w) id) ->
  (exists e, transact (joinBet id) env w = (w, Revert e)) /\
  (forall data, exists e, transact (resolveBet id data) env w = (w, Revert e)) /\
  (exists e, transact (cancelBet id) env w = (w, Revert e)).
Proof.
  intros Hterm. split; [|split].
  - destruct (joinBet id env w) as [[[] w']|e] eqn:H.
    + apply joinBet_Ok_iff in H as [[] _]. destruct Hterm; congruence.
    + exists e. apply transact_Revert, H.
  - intros data. destruct (resolveBet id data env w) as [[[] w']|e] eqn:H.
    + apply resolveBet_Ok_iff in H as (fee & fp & [] & _). destruct Hterm; congruence.
    + exists e. apply transact_Revert, H.
  - destruct (cancelBet id env w) as [[[] w']|e] eqn:H.
    + apply cancelBet_Ok_iff in H as [[] _]. destruct Hterm; congruence.
    + exists e. apply transact_Revert, H.
Qed.

(** C5. In every reachable state no bet has both flags set; and once a bet
    has either flag set, its record never changes again and every later
    [joinBet], [resolveBet] or [cancelBet] on it reverts, leaving the
    world (hence the record) as it was. *)
Theorem terminal_bets_are_final (w : W) (id : bytes32) :
  reachable' w ->
  let bet := bet_at (storage w) id in
  ~ (resolved bet = true /\ cancelled bet = true) /\
  (resolved bet = true \/ cancelled bet = true ->
   forall w', evolves' w w' ->
     bet_at (storage w') id = bet /\
     forall env,
       (exists e, transact (joinBet id) env w' = (w', Revert e)) /\
       (forall data, exists e, transact (resolveBet id data) env w' = (w', Revert e)) /\
       (exists e, transact (cancelBet id) env w' = (w', Revert e))).
Proof.
  intros Hreach. cbv zeta.
  pose proof (reachable_consistent _ _ w Hreach) as Hinv.
  split; [apply (inv_flags w Hinv)|].
  intros Hterm w' Hev.
  pose proof (evolves_keeps_terminal w w' id Hev Hinv Hterm) as Hsame.
  split; [exact Hsame|].
  intros env. apply terminal_refuses_calls. rewrite Hsame. exact Hterm.
Qed.

(** [createBet] with a reserved label, every other test passing. *)
Lemma createBet_label_taken data feed target duration joinDuration label env (w : W)
    fee cp tp :
  creatable keccak256_packed env w data feed target duration joinDuration label
    fee cp tp ->
  used_at (storage w) (keccak256_bytes label) = true ->
  createBet' data feed target duration joinDuration label env w
  = Revert ENSSubdomainTaken.
Proof.
  intros [] Hused. unfold createBet, new_id in *.
  tx_prims. unfold bind. tx_run. reflexivity.
Qed.

(** C8. A trophy label is released by cancellation only.  After a
    successful [cancelBet] the bet's label is free, and a [createBet] with
    that label that passes the other tests succeeds.  After a successful
    [resolveBet] the label stays reserved in every later state: a
    [createBet] with that label never succeeds, and one that passes the
    other tests fails with [ENSSubdomainTaken]. *)
Theorem label_released_by_cancel_only :
  (forall (id : bytes32) (env : Env) (w w1 : W),
     cancelBet id env w = Ok (tt, w1) ->
     used_at (storage w1) (ensLabel (bet_at (storage w) id)) = false /\
     forall env' data feed target duration joinDuration label fee cp tp,
       keccak256_bytes label = ensLabel (bet_at (storage w) id) ->
       creatable keccak256_packed env' w1 data feed target duration joinDuration
         label fee cp tp ->
       exists newId w2,
         createBet' data feed target duration joinDuration label env' w1
         = Ok (newId, w2) /\
         ensSubdomain (bet_at (storage w2) newId) = label) /\
  (forall (id : bytes32) (data : list bytes) (env : Env) (w w1 : W),
     reachable' w ->
     resolveBet id data env w = Ok (tt, w1) ->
     forall w2, evolves' w1 w2 ->
       used_at (storage w2) (ensLabel (bet_at (storage w) id)) = true /\
       forall env' data' feed target duration joinDuration label,
         keccak256_bytes label = ensLabel (bet_at (storage w) id) ->
         (exists e,
            createBet' data' feed target duration joinDuration label env' w2
            = Revert e) /\
         (forall fee cp tp,
            creatable keccak256_packed env' w2 data' feed target duration
              joinDuration label fee cp tp ->
            createBet' data' feed target duration joinDuration label env' w2
            = Revert ENSSubdomainTaken)).
Proof.
  split.
  - intros id env w w1 H.
    apply cancelBet_Ok_iff in H as [Hc ->].
    assert (Hfree : used_at (storage (cancelled_world env w id))
                      (ensLabel (bet_at (storage w) id)) = false).
    { unfold cancelled_world. cbn [storage]. rewrite used_at_set_used.
      rewrite decide_True by reflexivity. reflexivity. }
    split; [exact Hfree|].
    intros env' data feed target duration joinDuration label fee cp tp Hlabel Hcr.
    eexists _, _. split.
    + apply createBet_Ok_iff. exists fee, cp, tp.
      split; [exact Hcr|]. split; [rewrite Hlabel; exact Hfree|].
      split; reflexivity.
    + unfold created_world. cbn [storage]. rewrite bet_at_set_bet.
      rewrite decide_True by reflexivity. reflexivity.
  - intros id data env w w1 Hreach H w2 Hev.
    pose proof (reachable_consistent _ _ w Hreach) as Hinv.
    apply resolveBet_Ok_iff in H as (fee & fp & Hr & Hp & ->).
    set (w1 := resolved_world env w id fee fp) in *.
    assert (Hinv1 : consistent w1).
    { eapply (effect_consistent keccak256_packed keccak256_bytes);
        [| apply eff_resolve; eassumption | exact Hinv].
      intros []. }
    assert (Hbet1 : bet_at (storage w1) id =
              set_winner (winner_of (bet_at (storage w) id) (price fp))
                (set_resolved true (bet_at (storage w) id)))
      by apply resolved_world_bet.
    assert (Hterm1 : terminal (bet_at (storage w1) id))
      by (left; rewrite Hbet1; reflexivity).
    pose proof (evolves_keeps_terminal w1 w2 id Hev Hinv1 Hterm1) as Hsame.
    pose proof (evolves_consistent _ _ w1 w2 Hev Hinv1) as Hinv2.
    assert (Hused : used_at (storage w2) (ensLabel (bet_at (storage w) id)) = true).
    { pose proof (inv_label_held w2 Hinv2 id) as Hheld.
      rewrite Hsame, Hbet1 in Hheld. cbn in Hheld. apply Hheld.
      destruct Hr. split; assumption. }
    split; [exact Hused|].
    intros env' data' feed target duration joinDuration label Hlabel.
    rewrite <- Hlabel in Hused. split.
    + destruct (createBet' data' feed target duration joinDuration label env' w2)
        as [[newId w3]|e] eqn:H; [|eauto].
      apply createBet_Ok_iff in H as (? & ? & ? & _ & Hfree & _). congruence.
    + intros fee' cp tp Hcr. eapply createBet_label_taken; eassumption.
Qed.

End Terminal.

(** ** The scenario, checked *)

Ltac by_evaluation :=
  vm_compute; repeat split; first [reflexivity | discriminate | (intros ?; discriminate)].

Lemma deployed_ok :
  Betflix.constructor Sample.oracle Sample.deploy_env Betflix.new_world
  = Ok (tt, Sample.deployed).
Proof. vm_compute. reflexivity. Qed.

Lemma matched_reachable :
  Betflix.reachable Sample.hash_packed Sample.hash_bytes Sample.matched.
Proof.
  apply (Betflix.reachable_deployed _ _ Sample.deploy_env Sample.oracle Sample.deployed);
    [exact deployed_ok|].
  unfold Sample.matched, Sample.opened, Sample.configured.
  repeat (apply Betflix.evolves_step; [|by_evaluation]).
  apply Betflix.evolves_refl.
Qed.

Lemma settled_reachable :
  Betflix.reachable Sample.hash_packed Sample.hash_bytes Sample.settled.
Proof.
  apply (reachable_evolves _ _ Sample.matched); [exact matched_reachable|].
  unfold Sample.settled. apply Betflix.evolves_step; [apply Betflix.evolves_refl|].
  by_evaluation.
Qed.

Lemma matched_ready :
  Summary.ready_to_settle Sample.resolve_env Sample.matched Sample.bet_id []
    Sample.quote (Sample.usd 50000).
Proof. constructor; by_evaluation. Qed.

Lemma matched_ready_refused :
  Summary.ready_to_settle Sample.refused_env Sample.matched Sample.bet_id []
    Sample.quote (Sample.usd 50000).
Proof. constructor; by_evaluation. Qed.

Lemma drained_ready :
  Summary.ready_to_settle Sample.resolve_env Sample.drained Sample.bet_id []
    Sample.quote (Sample.usd 50000).
Proof. constructor; by_evaluation. Qed.

Lemma resolveBet_trophy_swallowed_payout_propagates_witness :
  (exists w',
     transact (Betflix.resolveBet Sample.bet_id []) Sample.resolve_env Sample.matched
     = (w', Ok tt) /\
     Betflix.resolved (Betflix.bet_at (storage w') Sample.bet_id) = true) /\
  transact (Betflix.resolveBet Sample.bet_id []) Sample.refused_env Sample.matched
  = (Sample.matched, Revert FailedCall) /\
  exists have need,
    transact (Betflix.resolveBet Sample.bet_id []) Sample.resolve_env Sample.drained
    = (Sample.drained, Revert (InsufficientBalance have need)).
Proof.
  split; [|split].
  - destruct (proj1 (resolveBet_trophy_swallowed_payout_propagates Sample.bet_id []
                       Sample.resolve_env Sample.matched Sample.quote
                       (Sample.usd 50000) matched_ready))
      as (w' & Hrun & Hres & _); [by_evaluation ..|].
    exists w'. split; [exact Hrun|exact Hres].
  - apply (proj1 (proj2 (resolveBet_trophy_swallowed_payout_propagates Sample.bet_id []
                           Sample.refused_env Sample.matched Sample.quote
                           (Sample.usd 50000) matched_ready_refused)));
      by_evaluation.
  - eexists _, _.
    apply (proj2 (proj2 (resolveBet_trophy_swallowed_payout_propagates Sample.bet_id []
                           Sample.resolve_env Sample.drained Sample.quote
                           (Sample.usd 50000) drained_ready))).
    by_evaluation.
Defined.

Lemma matched_ready_codeless :
  Summary.ready_to_settle Variations.codeless_env Sample.matched Sample.bet_id []
    Sample.quote (Sample.usd 50000).
Proof. constructor; by_evaluation. Qed.

Lemma resolveBet_trophy_call_uncaught_witness :
  transact (Betflix.resolveBet Sample.bet_id []) Variations.codeless_env Sample.matched
  = (Sample.matched, Revert RevertWithoutData).
Proof.
  refine (resolveBet_trophy_call_uncaught Sample.bet_id [] Variations.codeless_env
            Sample.matched Sample.quote (Sample.usd 50000) matched_ready_codeless
            _ _ _ _ _ _ _);
    by_evaluation.
Defined.

Lemma terminal_bets_are_final_witness :
  Betflix.bet_at (storage (Sample.run Sample.retry_env Sample.retry_call Sample.settled))
    Sample.bet_id
  = Betflix.bet_at (storage Sample.settled) Sample.bet_id /\
  exists e,
    transact (Betflix.cancelBet Sample.bet_id) Sample.cancel_env Sample.settled
    = (Sample.settled, Revert e).
Proof.
  destruct (terminal_bets_are_final Sample.hash_packed Sample.hash_bytes
              Sample.settled Sample.bet_id settled_reachable) as [_ Hfinal].
  assert (Hterm :
    Betflix.resolved (Betflix.bet_at (storage Sample.settled) Sample.bet_id) = true \/
    Betflix.cancelled (Betflix.bet_at (storage Sample.settled) Sample.bet_id) = true)
    by (left; vm_compute; reflexivity).
  split.
  - apply (Hfinal Hterm). apply Betflix.evolves_step; [apply Betflix.evolves_refl|].
    by_evaluation.
  - apply (proj2 (Hfinal Hterm Sample.settled (Betflix.evolves_refl _ _ _))
             Sample.cancel_env).
Defined.

Lemma called_off_creatable :
  Summary.creatable Sample.hash_packed Sample.retry_env Sample.called_off
    [] Sample.feed 52000 300 60 "alpha" Sample.quote (Sample.usd 51000)
    5200000000000%Z.
Proof. constructor; by_evaluation. Qed.

Lemma settled_creatable :
  Summary.creatable Sample.hash_packed Sample.retry_env Sample.settled
    [] Sample.feed 52000 300 60 "alpha" Sample.quote (Sample.usd 51000)
    5200000000000%Z.
Proof. constructor; by_evaluation. Qed.

Lemma label_released_by_cancel_only_witness :
  (exists newId w2,
     Betflix.createBet Sample.hash_packed Sample.hash_bytes
       [] Sample.feed 52000 300 60 "alpha" Sample.retry_env Sample.called_off
     = Ok (newId, w2) /\
     Betflix.ensSubdomain (Betflix.bet_at (storage w2) newId) = "alpha") /\
  Betflix.createBet Sample.hash_packed Sample.hash_bytes
    [] Sample.feed 52000 300 60 "alpha" Sample.retry_env Sample.settled
  = Revert ENSSubdomainTaken.
Proof.
  assert (Hcancel : Betflix.cancelBet Sample.bet_id Sample.cancel_env Sample.opened
                    = Ok (tt, Sample.called_off)) by (vm_compute; reflexivity).
  assert (Hrun : Betflix.resolveBet Sample.bet_id [] Sample.resolve_env Sample.matched
                 = Ok (tt, Sample.settled)) by (vm_compute; reflexivity).
  split.
  - apply (proj2 (proj1 (label_released_by_cancel_only Sample.hash_packed
                           Sample.hash_bytes)
                    Sample.bet_id Sample.cancel_env Sample.opened Sample.called_off
                    Hcancel)
             Sample.retry_env [] Sample.feed 52000 300 60 "alpha"%string Sample.quote
             (Sample.usd 51000) 5200000000000%Z);
      [by_evaluation|exact called_off_creatable].
  - refine (proj2 (proj2 (proj2 (label_released_by_cancel_only Sample.hash_packed
                                   Sample.hash_bytes)
                            Sample.bet_id [] Sample.resolve_env Sample.matched
                            Sample.settled matched_reachable Hrun
                            Sample.settled (Betflix.evolves_refl _ _ _))
                     Sample.retry_env [] Sample.feed 52000 300 60 "alpha"%string _)
              Sample.quote (Sample.usd 51000) 5200000000000%Z settled_creatable).
    by_evaluation.
Defined.

(** ** Round trip of the price conversion *)

Section RoundTrip.
Import Betflix Summary.

(** C2, where the code departs from it.  The conversion of the ceiling
    price at the lowest accepted exponent does not succeed: the product
    [10^8 * 10^18] passes the [uint256] overflow test and is then refused
    by [SafeCast.toInt64], with the downcast error and not with
    [PriceStale]. *)
Theorem convertToPythPrice_ceiling_overflows_int64 :
  _convertToPythPrice 100000000 (-18)
  = Revert (SafeCastOverflowedIntDowncast 64 100000000000000000000000000).
Proof. vm_compute. reflexivity. Qed.

(** On the accepted band the conversion succeeds exactly when the product
    fits in an [int64]. *)
Lemma convert_succeeds_iff (x : N) (e : Z) :
  1 <= x <= 100000000 -> (-18 <= e <= -2)%Z ->
  (exists p, _convertToPythPrice x e = Ok p) <->
  (Z.of_N x * 10 ^ (- e) <= MAX_INT64)%Z.
Proof.
  intros Hx He. rewrite (convert_in_band x e Hx He).
  assert (Hprod : Z.of_N (x * 10 ^ Z.to_N (- e)) = (Z.of_N x * 10 ^ (- e))%Z).
  { rewrite N2Z.inj_mul, N2Z.inj_pow, Z2N.id by lia. reflexivity. }
  rewrite Hprod.
  destruct (Z.ltb_spec MAX_INT64 (Z.of_N x * 10 ^ (- e))); split.
  - intros [p Hp]. discriminate.
  - lia.
  - intros _. lia.
  - eauto.
Qed.

(** The test [_usdPrice > type(uint256).max / multiplier] never decides:
    a price it would refuse is above the ceiling already. *)
Lemma uint256_overflow_above_ceiling (x : N) (e : Z) :
  (-18 <= e <= -2)%Z -> MAX_UINT256 / 10 ^ Z.to_N (- e) < x -> 100000000 < x.
Proof.
  intros He Hx.
  pose proof (pow10_band (Z.to_N (- e)) ltac:(lia)) as [Hm2 Hm18].
  change (10 ^ 18) with 1000000000000000000 in Hm18.
  assert (Hmax : 100000000 * 1000000000000000000 <= MAX_UINT256) by discriminate.
  assert (100000000 <= MAX_UINT256 / 10 ^ Z.to_N (- e)); [|lia].
  apply N.div_le_lower_bound; [lia|].
  rewrite N.mul_comm.
  etransitivity; [apply N.mul_le_mono_l, Hm18|exact Hmax].
Qed.

(** The round trip, and the refusals that do give [PriceStale].  For
    every price [x] and exponent [e] the conversion accepts, dividing the
    converted price back by [10 ^ -e] (integer division, which truncates)
    returns [x]: [getBetTargetPriceUSD] of an existing bet whose
    [targetPrice] is [_convertToPythPrice x e] and whose [priceExponent]
    is [e] returns [x].  A zero price, a price above the ceiling or beyond
    the [uint256] overflow test, and an exponent outside the band are
    refused with [PriceStale]. *)
Lemma price_conversion_round_trip (x : N) (e : Z) :
  (forall (p : Z) (id : bytes32) (env : Env) (w : W),
     _convertToPythPrice x e = Ok p ->
     player1 (bet_at (storage w) id) <> 0 ->
     targetPrice (bet_at (storage w) id) = p ->
     priceExponent (bet_at (storage w) id) = e ->
     toDisplayFormat p e = Ok x /\
     getBetTargetPriceUSD id env w = Ok (x, w)) /\
  (x = 0 \/ 100000000 < x \/ MAX_UINT256 / 10 ^ Z.to_N (- e) < x \/
   (e < -18)%Z \/ (-2 < e)%Z ->
   _convertToPythPrice x e = Revert PriceStale).
Proof.
  split.
  - intros p id env w Hconv Hexists Htarget Hexpo.
    pose proof (display_of_convert x e p Hconv) as Hback.
    split; [exact Hback|].
    unfold getBetTargetPriceUSD. tx_prims. unfold bind. cbn [storage].
    apply N.eqb_neq in Hexists. rewrite Hexists, Htarget, Hexpo, Hback. reflexivity.
  - intros [H|[H|[H|H]]]; try (apply convert_rejects; tauto).
    destruct (Z.lt_ge_cases e (-18)); [apply convert_rejects; tauto|].
    destruct (Z.lt_ge_cases (-2) e); [apply convert_rejects; tauto|].
    apply convert_rejects. right. left.
    apply (uint256_overflow_above_ceiling x e); [lia|exact H].
Qed.

(** C7. An overflowing price does not always fail with [PriceStale].  The
    test that would answer [PriceStale] on overflow compares with the
    256-bit maximum, which no price up to the ceiling reaches; a price
    whose product with [10 ^ -e] exceeds the 64-bit maximum, such as 10 at
    exponent -18 or 100000000 at exponent -11, passes every test and fails
    in the downcast with [SafeCastOverflowedIntDowncast].  This holds for
    every price and exponent in range whose product overflows 64 bits. *)
Theorem price_conversion_overflow_not_price_stale :
  _convertToPythPrice 10 (-18)
  = Revert (SafeCastOverflowedIntDowncast 64 10000000000000000000) /\
  _convertToPythPrice 100000000 (-11)
  = Revert (SafeCastOverflowedIntDowncast 64 10000000000000000000) /\
  (forall (x : N) (e : Z),
     1 <= x <= 100000000 -> (-18 <= e <= -2)%Z ->
     (MAX_INT64 < Z.of_N x * 10 ^ (- e))%Z ->
     ~ (MAX_UINT256 / 10 ^ Z.to_N (- e) < x) /\
     _convertToPythPrice x e <> Revert PriceStale).
Proof.
  split; [vm_compute; reflexivity|]. split; [vm_compute; reflexivity|].
  intros x e Hx He Hbig. split.
  - intros Hover. pose proof (uint256_overflow_above_ceiling x e He Hover). lia.
  - rewrite (convert_in_band x e Hx He).
    assert (Hprod : Z.of_N (x * 10 ^ Z.to_N (- e)) = (Z.of_N x * 10 ^ (- e))%Z).
    { rewrite N2Z.inj_mul, N2Z.inj_pow, Z2N.id by lia. reflexivity. }
    rewrite Hprod.
    destruct (Z.ltb_spec MAX_INT64 (Z.of_N x * 10 ^ (- e))); [discriminate|lia].
Qed.

(** The division truncates: a target one unit above 50000 USD at eight
    decimals still displays as 50000. *)
Example toDisplayFormat_truncates :
  toDisplayFormat 5000000000001 (-8) = Ok 50000.
Proof. vm_compute. reflexivity. Qed.

End RoundTrip.

Lemma price_conversion_round_trip_witness :
  Betflix.getBetTargetPriceUSD Sample.bet_id Sample.join_env Sample.opened
  = Ok (50000, Sample.opened) /\
  _convertToPythPrice 0 (-8) = Revert PriceStale.
Proof.
  split.
  - refine (proj2 (proj1 (price_conversion_round_trip 50000 (-8))
                     5000000000000%Z Sample.bet_id Sample.join_env Sample.opened
                     _ _ _ _));
      by_evaluation.
  - apply (proj2 (price_conversion_round_trip 0 (-8))). left. reflexivity.
Defined.

(** ** The earlier variant *)

Section Legacy.
Import BetflixLegacy.

Lemma legacy_bet_at_update_bet (s : Storage) (id : bytes32) (f : Bet -> Bet) :
  bet_at (update_bet id f s) id = f (bet_at s id).
Proof.
  unfold bet_at, update_bet, set_bet. cbn [bets].
  rewrite lookup_insert_eq. reflexivity.
Qed.

(** What a successful resolution does in the earlier variant: the same
    winner rule; the payout is the pot plus the creator's oracle fee. *)
Lemma legacy_resolveBet_Ok_inv id data env (w w' : W) :
  resolveBet id data env w = Ok (tt, w') ->
  exists fee fp,
    pyth_getUpdateFee env data = Some fee /\
    fee <= msg_value env /\
    pyth_getPriceNoOlderThan env (priceFeedId (bet_at (storage w) id)) MAX_PRICE_AGE
      = Some fp /\
    player2 (bet_at (storage w) id) <> 0 /\
    deadline (bet_at (storage w) id) <= block_timestamp env /\
    resolved (bet_at (storage w') id) = true /\
    winner (bet_at (storage w') id) =
      (if (price fp >=? targetPrice (bet_at (storage w) id))%Z
       then player1 (bet_at (storage w) id) else player2 (bet_at (storage w) id)) /\
    exists new,
      trace w' = trace w ++ new /\
      ether_sent new =
        [(winner (bet_at (storage w') id),
          amount (bet_at (storage w) id) * 2 + pythUpdateFee (bet_at (storage w) id));
         (msg_sender env, fee)].
Proof.
  intros H. unfold resolveBet in H. tx_invert H.
  eexists _, _. bool_to_prop.
  repeat match goal with |- _ /\ _ => split end;
    try first [eassumption | reflexivity | lia].
  - rewrite !legacy_bet_at_update_bet. reflexivity.
  - rewrite !legacy_bet_at_update_bet. reflexivity.
  - eexists. rewrite <- !app_assoc. split; [reflexivity|].
    rewrite !legacy_bet_at_update_bet. reflexivity.
Qed.

(** C1 and C3 in the earlier variant. *)
Lemma legacy_resolveBet_winner_and_conservation id data env (w w' : W) :
  resolveBet id data env w = Ok (tt, w') ->
  let bet := bet_at (storage w) id in
  exists fp payout refund,
    pyth_getPriceNoOlderThan env (priceFeedId bet) MAX_PRICE_AGE = Some fp /\
    ((price fp >= targetPrice bet)%Z -> winner (bet_at (storage w') id) = player1 bet) /\
    ((price fp < targetPrice bet)%Z -> winner (bet_at (storage w') id) = player2 bet) /\
    pyth_getUpdateFee env data = Some refund /\
    payout = 2 * amount bet + pythUpdateFee bet /\
    payout + refund <= 2 * amount bet + pythUpdateFee bet + msg_value env.
Proof.
  intros H. cbv zeta.
  apply legacy_resolveBet_Ok_inv in H
    as (fee & fp & Hq & Hfee & Hp & _ & _ & _ & Hw & _).
  exists fp, (2 * amount (bet_at (storage w) id) + pythUpdateFee (bet_at (storage w) id)), fee.
  rewrite Hw, Z.geb_leb.
  repeat split; try assumption; try lia.
  - intros Hge. destruct (Z.leb_spec (targetPrice (bet_at (storage w) id)) (price fp));
      [reflexivity|lia].
  - intros Hlt. destruct (Z.leb_spec (targetPrice (bet_at (storage w) id)) (price fp));
      [lia|reflexivity].
Qed.

(** In the earlier variant the creator's oracle fee is returned: it is
    added to the winner's payout and to the creator's refund. *)
Lemma legacy_oracle_fee_returned :
  (forall id data env (w w' : W),
     resolveBet id data env w = Ok (tt, w') ->
     exists fee new,
       trace w' = trace w ++ new /\
       ether_sent new =
         [(winner (bet_at (storage w') id),
           amount (bet_at (storage w) id) * 2 + pythUpdateFee (bet_at (storage w) id));
          (msg_sender env, fee)]) /\
  (forall id env (w w' : W),
     cancelBet id env w = Ok (tt, w') ->
     exists new,
       trace w' = trace w ++ new /\
       ether_sent new =
         [(msg_sender env,
           amount (bet_at (storage w) id) + pythUpdateFee (bet_at (storage w) id))]).
Proof.
  split.
  - intros id data env w w' H.
    apply legacy_resolveBet_Ok_inv in H
      as (fee & fp & _ & _ & _ & _ & _ & _ & _ & new & Htr & Hsent).
    eauto.
  - intros id env w w' H. unfold cancelBet in H. tx_invert H.
    eexists. rewrite <- !app_assoc. split; reflexivity.
Qed.

(** C9 in the earlier variant: an unmatched bet is refused with
    [BetAlreadyJoined]. *)
Lemma legacy_resolveBet_unmatched_or_early id data env (w : W) :
  let bet := bet_at (storage w) id in
  player1 bet <> 0 -> cancelled bet = false ->
  (player2 bet = 0 -> resolveBet id data env w = Revert BetAlreadyJoined) /\
  (player2 bet <> 0 -> block_timestamp env < deadline bet ->
   resolveBet id data env w = Revert BetNotExpired).
Proof.
  cbv zeta. intros Hexists Hlive. apply N.eqb_neq in Hexists.
  split.
  - intros Hopen. apply N.eqb_eq in Hopen.
    unfold resolveBet. tx_prims. unfold bind. cbn [storage balance trace].
    rewrite Hexists, Hlive, Hopen. reflexivity.
  - intros Hmatched Hearly. apply N.eqb_neq in Hmatched. apply N.ltb_lt in Hearly.
    unfold resolveBet. tx_prims. unfold bind. cbn [storage balance trace].
    rewrite Hexists, Hlive, Hmatched, Hearly. reflexivity.
Qed.

(** C10 in the earlier variant. *)
Lemma legacy_createBet_fee_guard_unreachable
    (keccak256_packed : address -> bytes32 -> Z -> N -> N -> bytes32)
    data feed target duration joinDuration env (w : W) :
  (forall quotedFee,
     pyth_getUpdateFee env data = Some quotedFee -> msg_value env < quotedFee ->
     createBet keccak256_packed data feed target duration joinDuration env w
     = Revert (Panic ARITHMETIC)) /\
  createBet keccak256_packed data feed target duration joinDuration env w
  <> Revert InsufficientPythFee.
Proof.
  split.
  - intros fee Hq Hlt. apply N.ltb_lt in Hlt.
    unfold createBet. tx_prims. unfold bind. cbn [storage balance trace].
    rewrite Hq, Hlt. reflexivity.
  - intros H. unfold createBet in H.
    tx_revert_cases H; try congruence.
    all: bool_to_prop; lia.
Qed.

End Legacy.

(** * Further properties of the contract *)

(** Forward execution of a chain of tests: rewrite the ones that are known. *)
Ltac guards :=
  tx_prims; unfold bind;
  repeat (cbn [storage balance trace negb orb andb];
    match goal with
    | H : ?c = true |- context [?c] => rewrite H
    | H : ?c = false |- context [?c] => rewrite H
    end);
  cbn [storage balance trace negb orb andb].

(** ** The owner's entry points, characterised *)

Section AdminEntryPoints.
Import Betflix Summary Admin.

Lemma onlyOwner_Ok_iff env (w : W) r :
  onlyOwner env w = Ok r <-> owner (storage w) = msg_sender env /\ r = (tt, w).
Proof.
  unfold onlyOwner. split.
  - intros H. tx_invert H. bool_to_prop. auto.
  - intros [Ho ->]. tx_prims. unfold bind. tx_run. reflexivity.
Qed.

Lemma onlyOwner_stranger env (w : W) :
  owner (storage w) <> msg_sender env ->
  onlyOwner env w = Revert (OwnableUnauthorizedAccount (msg_sender env)).
Proof.
  intros Hne. apply N.eqb_neq in Hne.
  unfold onlyOwner. tx_prims. unfold bind. cbn [storage]. rewrite Hne. reflexivity.
Qed.

Lemma configureENS_Ok_iff wrapper node resolver name env (w w' : W) :
  configureENS wrapper node resolver name env w = Ok (tt, w') <->
  owner_call env w /\ w' = configured_world w wrapper node resolver name.
Proof.
  unfold configureENS, onlyOwner. split.
  - intros H. tx_invert H. bool_to_prop. split; [constructor; assumption|reflexivity].
  - intros [[Hv Ho] ->]. unfold configured_world. tx_prims. unfold bind.
    tx_run. reflexivity.
Qed.

Lemma emergencyWithdrawAll_Ok_iff env (w w' : W) :
  emergencyWithdrawAll env w = Ok (tt, w') <->
  owner_call env w /\ accepts_value env (owner (storage w)) (balance w) = true /\
  w' = swept_world w.
Proof.
  unfold emergencyWithdrawAll, onlyOwner. split.
  - intros H. tx_invert H. bool_to_prop.
    split; [constructor; assumption|]. split; [assumption|].
    unfold swept_world. rewrite N.sub_diag. reflexivity.
  - intros ([Hv Ho] & Hacc & ->). unfold swept_world. tx_prims. unfold bind.
    tx_run. rewrite N.sub_diag. reflexivity.
Qed.

Lemma emergencyUpdatePyth_Ok_iff a env (w w' : W) :
  emergencyUpdatePyth a env w = Ok (tt, w') <->
  owner_call env w /\ a <> 0 /\ w' = repointed_world w a.
Proof.
  unfold emergencyUpdatePyth, onlyOwner, isValidAddress. split.
  - intros H. tx_invert H. bool_to_prop.
    split; [constructor; assumption|]. split; [assumption|reflexivity].
  - intros ([Hv Ho] & Ha & ->). unfold repointed_world. tx_prims. unfold bind.
    tx_run. reflexivity.
Qed.

Lemma transferOwnership_Ok_iff a env (w w' : W) :
  transferOwnership a env w = Ok (tt, w') <->
  owner_call env w /\ a <> 0 /\ w' = handed_over_world w a.
Proof.
  unfold transferOwnership, onlyOwner. split.
  - intros H. tx_invert H. bool_to_prop.
    split; [constructor; assumption|]. split; [assumption|reflexivity].
  - intros ([Hv Ho] & Ha & ->). unfold handed_over_world. tx_prims. unfold bind.
    tx_run. reflexivity.
Qed.

Lemma renounceOwnership_Ok_iff env (w w' : W) :
  renounceOwnership env w = Ok (tt, w') <->
  owner_call env w /\ w' = handed_over_world w 0.
Proof.
  unfold renounceOwnership, onlyOwner. split.
  - intros H. tx_invert H. bool_to_prop.
    split; [constructor; assumption|reflexivity].
  - intros ([Hv Ho] & ->). unfold handed_over_world. tx_prims. unfold bind.
    tx_run. reflexivity.
Qed.

End AdminEntryPoints.

(** ** Every transaction, entry point by entry point *)

Section Transitions.
Import Betflix Summary Admin Wellformed.
Context (keccak256_packed : address -> bytes32 -> N -> N -> N -> bytes32).
Context (keccak256_bytes : string -> bytes32).

Lemma step_transition env c (w : W) :
  transition keccak256_packed keccak256_bytes env w c
    (step keccak256_packed keccak256_bytes env c w).
Proof.
  unfold step, transact.
  destruct (dispatch keccak256_packed keccak256_bytes c env w) as [[[] w']|e] eqn:H;
    cbn [fst]; [|apply tr_reverted].
  destruct c; cbn [dispatch] in H.
  - apply bind_Ok in H as (id & w1 & H & Hret).
    unfold ret in Hret. injection Hret as ->.
    apply createBet_Ok_iff in H as (fee & cp & tp & Hc & Hfree & _ & ->).
    apply tr_create; assumption.
  - apply joinBet_Ok_iff in H as [Hj ->]. apply tr_join; assumption.
  - apply resolveBet_Ok_iff in H as (fee & fp & Hr & Hp & ->).
    apply tr_resolve; assumption.
  - apply cancelBet_Ok_iff in H as [Hc ->]. apply tr_cancel; assumption.
  - apply configureENS_Ok_iff in H as [Ho ->]. apply tr_configure; assumption.
  - apply emergencyWithdrawAll_Ok_iff in H as (Ho & Hacc & ->).
    apply tr_sweep; assumption.
  - apply emergencyUpdatePyth_Ok_iff in H as (Ho & Ha & ->).
    apply tr_repoint; assumption.
  - apply transferOwnership_Ok_iff in H as (Ho & Ha & ->).
    apply tr_transfer; assumption.
  - apply renounceOwnership_Ok_iff in H as (Ho & ->). apply tr_renounce; assumption.
Qed.

End Transitions.

(** ** Every reachable world is sound *)

Section Soundness.
Import Betflix Summary Admin Wellformed.
Context (keccak256_packed : address -> bytes32 -> N -> N -> N -> bytes32).
Context (keccak256_bytes : string -> bytes32).

Abbreviation sound' := (sound keccak256_bytes).
Abbreviation well_formed' := (well_formed keccak256_bytes).

Ltac pick id0 id := destruct (decide (id0 = id)) as [<-|?].

Lemma created_bet_well_formed env (w : W) data feed target duration joinDuration
    label fee cp tp :
  creatable keccak256_packed env w data feed target duration joinDuration label
    fee cp tp ->
  well_formed' (created_bet keccak256_bytes env feed duration joinDuration label fee cp tp).
Proof.
  intros []. unfold MIN_DURATION, MAX_DURATION, MIN_JOIN_DURATION,
    MAX_JOIN_DURATION in *.
  constructor; cbn; try lia; try discriminate; try reflexivity; try assumption.
  exists target. split; [|assumption].
  match goal with
  | H : _convertToPythPrice _ _ = Ok _ |- _ => apply convert_Ok_inv in H; tauto
  end.
Qed.

Lemma set_player2_well_formed a (b : Bet) :
  resolved b = false -> cancelled b = false ->
  well_formed' b -> well_formed' (set_player2 a b).
Proof.
  intros Hr Hc []. constructor; cbn; try assumption; congruence.
Qed.

Lemma resolved_bet_well_formed (b : Bet) p :
  player2 b <> 0 -> cancelled b = false ->
  well_formed' b -> well_formed' (set_winner (winner_of b p) (set_resolved true b)).
Proof.
  intros Hm Hc []. constructor; cbn; try assumption; try congruence.
  intros _. unfold winner_of. destruct (_ >=? _)%Z; auto.
Qed.

Lemma set_cancelled_well_formed (b : Bet) :
  player2 b = 0 -> resolved b = false ->
  well_formed' b -> well_formed' (set_cancelled true b).
Proof.
  intros Hm Hr []. constructor; cbn; try assumption; congruence.
Qed.

(** A change that leaves the bets and the reservations alone. *)
Lemma sound_frame (w w' : W) extra :
  bets (storage w') = bets (storage w) ->
  usedSubdomains (storage w') = usedSubdomains (storage w) ->
  pyth (storage w') <> 0 ->
  trace w' = trace w ++ extra ->
  sound' w -> sound' w'.
Proof.
  intros Hb Hu Hp Ht [S1 S2 S3 S4 S5 S6 S7 S8].
  assert (Hbet : forall id, bet_at (storage w') id = bet_at (storage w) id)
    by (intros id; apply bet_at_same_bets, Hb).
  assert (Hused : forall l, used_at (storage w') l = used_at (storage w) l)
    by (intros l; apply used_at_same_table, Hu).
  constructor; intros *; rewrite ?Hbet, ?Hused, ?Ht; auto.
  - intros H. destruct (S3 _ H) as (id & Hl & Hlab). exists id.
    rewrite Hbet. auto.
  - intros H. apply in_or_app. auto.
  - intros H. apply in_or_app. auto.
  - intros H. destruct (S7 _ H) as (l & p & Hin). exists l, p.
    apply in_or_app. auto.
  - intros H. apply in_or_app. auto.
Qed.

Lemma transition_sound env c (w w' : W) :
  (is_create c -> msg_sender env <> 0) ->
  transition keccak256_packed keccak256_bytes env w c w' ->
  sound' w -> sound' w'.
Proof.
  intros Hsender Htr [S1 S2 S3 S4 S5 S6 S7 S8].
  destruct Htr as [c | data feed target duration joinDuration label fee cp tp Hc Hfree
                  | id0 Hj | id0 data fee fp Hr Hp | id0 Hc
                  | wrapper node resolver name Ho | Ho Hacc | a Ho Ha | a Ho Ha | Ho].
  - constructor; assumption.
  - (* createBet *)
    specialize (Hsender I).
    pose proof (created_bet_well_formed _ _ _ _ _ _ _ _ _ _ _ Hc) as Hwf.
    destruct Hc. unfold created_world.
    set (nid := new_id keccak256_packed env feed target) in *.
    constructor; intros *; cbn [storage trace];
      rewrite ?bet_at_set_bet, ?bet_at_set_used, ?used_at_set_bet, ?used_at_set_used.
    + pick nid id; [intros _; exact Hwf|apply S1].
    + pick nid id; [cbn; congruence|apply S2].
    + destruct (decide (keccak256_bytes label = label0)) as [<-|?].
      * intros _. exists nid. rewrite bet_at_set_bet, decide_True by reflexivity.
        split; [split; [exact Hsender|reflexivity]|reflexivity].
      * intros Hu. destruct (S3 _ Hu) as (id & Hl & Hlab).
        exists id. rewrite bet_at_set_bet, bet_at_set_used.
        pick nid id; [destruct Hl; congruence|auto].
    + exact S4.
    + pick nid id.
      * intros _. apply in_or_app. right. right. left. reflexivity.
      * intros H. apply in_or_app. left. apply S5, H.
    + pick nid id; [cbn; congruence|]. intros H. apply in_or_app. left. apply S6, H.
    + pick nid id; [cbn; congruence|]. intros H.
      destruct (S7 _ H) as (l & p & Hin). exists l, p. apply in_or_app. auto.
    + pick nid id; [cbn; congruence|]. intros H. apply in_or_app. left. apply S8, H.
  - (* joinBet *)
    destruct Hj. unfold joined_world.
    constructor; intros *; cbn [storage trace];
      rewrite ?bet_at_update_bet, ?used_at_update_bet.
    + pick id0 id; [|apply S1]. intros _. apply set_player2_well_formed; auto.
    + pick id0 id; [cbn; congruence|apply S2].
    + intros Hu. destruct (S3 _ Hu) as (id & Hl & Hlab).
      exists id. rewrite bet_at_update_bet. pick id0 id; auto.
    + exact S4.
    + pick id0 id; intros H; apply in_or_app; left; [apply (S5 id0 H)|apply S5, H].
    + pick id0 id; intros H; apply in_or_app.
      * right. left. reflexivity.
      * left. apply S6, H.
    + pick id0 id; [cbn; congruence|]. intros H.
      destruct (S7 _ H) as (l & p & Hin). exists l, p. apply in_or_app. auto.
    + pick id0 id; [cbn; congruence|]. intros H. apply in_or_app. left. apply S8, H.
  - (* resolveBet *)
    destruct Hr. unfold resolved_world.
    assert (Hb : forall id,
      bet_at (update_bet id0 (set_winner (winner_of (bet_at (storage w) id0) (price fp)))
               (update_bet id0 (set_resolved true) (storage w))) id =
      if decide (id0 = id)
      then set_winner (winner_of (bet_at (storage w) id0) (price fp))
             (set_resolved true (bet_at (storage w) id0))
      else bet_at (storage w) id).
    { intros id. rewrite !bet_at_update_bet.
      pick id0 id; [rewrite decide_True by reflexivity|]; reflexivity. }
    constructor; intros *; cbn [storage trace]; rewrite ?Hb, ?used_at_update_bet.
    + pick id0 id; [|apply S1]. intros _. apply resolved_bet_well_formed; auto.
    + pick id0 id; [cbn; congruence|apply S2].
    + intros Hu. destruct (S3 _ Hu) as (id & Hl & Hlab).
      exists id. rewrite Hb. pick id0 id; auto.
    + exact S4.
    + pick id0 id; intros H; apply in_or_app; left; [apply (S5 id0 H)|apply S5, H].
    + pick id0 id; intros H; apply in_or_app; left; [apply (S6 id0 H)|apply S6, H].
    + pick id0 id.
      * intros _. eexists _, _. cbn [winner amount ensSubdomain set_winner set_resolved].
        apply in_or_app. right. apply in_or_app. right. apply in_or_app. right.
        left. reflexivity.
      * intros H. destruct (S7 _ H) as (l & p & Hin). exists l, p.
        apply in_or_app. auto.
    + pick id0 id; [cbn; congruence|]. intros H. apply in_or_app. left. apply S8, H.
  - (* cancelBet *)
    destruct Hc. unfold cancelled_world.
    constructor; intros *; cbn [storage trace];
      rewrite ?bet_at_set_used, ?bet_at_update_bet, ?used_at_set_used,
        ?used_at_update_bet.
    + pick id0 id; [|apply S1]. intros _. apply set_cancelled_well_formed; auto.
    + pick id0 id; [cbn; congruence|apply S2].
    + destruct (decide _) as [|Hne]; [discriminate|].
      intros Hu. destruct (S3 _ Hu) as (id & Hl & Hlab).
      exists id. rewrite bet_at_set_used, bet_at_update_bet.
      pick id0 id; [congruence|auto].
    + exact S4.
    + pick id0 id; intros H; apply in_or_app; left; [apply (S5 id0 H)|apply S5, H].
    + pick id0 id; intros H; apply in_or_app; left; [apply (S6 id0 H)|apply S6, H].
    + pick id0 id; [cbn; congruence|]. intros H.
      destruct (S7 _ H) as (l & p & Hin). exists l, p. apply in_or_app. auto.
    + pick id0 id.
      * intros _. cbn [player1 amount set_cancelled]. apply in_or_app. right.
        right. left. congruence.
      * intros H. apply in_or_app. left. apply S8, H.
  - apply (sound_frame w _ [Emitted (ENSConfigUpdated node resolver)]);
      try reflexivity; [exact S4|constructor; assumption].
  - apply (sound_frame w _ [Sent (owner (storage w)) (balance w)]);
      try reflexivity; [exact S4|constructor; assumption].
  - apply (sound_frame w _ []); try reflexivity;
      [exact Ha|cbn; symmetry; apply app_nil_r|constructor; assumption].
  - apply (sound_frame w _ [Emitted (OwnershipTransferred (owner (storage w)) a)]);
      try reflexivity; [exact S4|constructor; assumption].
  - apply (sound_frame w _ [Emitted (OwnershipTransferred (owner (storage w)) 0)]);
      try reflexivity; [exact S4|constructor; assumption].
Qed.

Lemma deployed_sound addr env (w0 : W) :
  constructor addr env new_world = Ok (tt, w0) -> sound' w0.
Proof.
  intros H. unfold constructor, isValidAddress in H. tx_invert H. bool_to_prop.
  constructor; intros *; unfold bet_at, used_at; cbn;
    rewrite ?lookup_empty; cbn; try congruence.
Qed.

Lemma evolves_sound (w w' : W) :
  evolves keccak256_packed keccak256_bytes w w' -> sound' w -> sound' w'.
Proof.
  induction 1 as [|w' env c _ IH Hs]; intros Hw; [exact Hw|].
  eapply transition_sound; [intros _; exact Hs|apply step_transition|auto].
Qed.

Lemma reachable_sound (w : W) :
  reachable keccak256_packed keccak256_bytes w -> sound' w.
Proof.
  intros [env addr w0 w' Hd Hev].
  eapply evolves_sound; [exact Hev|]. eapply deployed_sound, Hd.
Qed.

End Soundness.

(** ** Creating a bet *)

Section CreateFacts.
Import Betflix Summary Creation.
Context (keccak256_packed : address -> bytes32 -> N -> N -> N -> bytes32).
Context (keccak256_bytes : string -> bytes32).

Abbreviation createBet' := (createBet keccak256_packed keccak256_bytes).
Abbreviation new_id' := (new_id keccak256_packed).


(** [createBet] up to the oracle calls. *)
Lemma createBet_funded_run data feed target duration joinDuration label env (w : W)
    fee cp tp :
  funded env data duration joinDuration fee ->
  priced env data feed target fee cp tp ->
  (player1 (bet_at (storage w) (new_id' env feed target)) <> 0 ->
   createBet' data feed target duration joinDuration label env w
   = Revert BetAlreadyExists) /\
  (player1 (bet_at (storage w) (new_id' env feed target)) = 0 ->
   (byte_length label = 0 \/ 63 < byte_length label ->
    createBet' data feed target duration joinDuration label env w
    = Revert InvalidENSSubdomain) /\
   (1 <= byte_length label <= 63 ->
    used_at (storage w) (keccak256_bytes label) = true ->
    createBet' data feed target duration joinDuration label env w
    = Revert ENSSubdomainTaken)).
Proof.
  intros [] []. unfold new_id.
  split; [|intros Hfresh; split].
  - intros Hex. apply N.eqb_neq in Hex.
    unfold createBet. tx_prims. unfold bind. tx_run.
    rewrite Hex. reflexivity.
  - intros Hlen.
    unfold createBet. tx_prims. unfold bind. tx_run.
    destruct (N.eqb_spec (byte_length label) 0) as [|Hn0]; [reflexivity|].
    destruct (N.ltb_spec 63 (byte_length label)); [reflexivity|lia].
  - intros Hlen Hused.
    unfold createBet. tx_prims. unfold bind. tx_run. reflexivity.
Qed.

(** X2. [createBet] refuses bad arguments before it calls the oracle: once
    the fee is quoted and covered, a stake below [MIN_BET] gives
    [BetAmountTooLow]; otherwise a duration outside 60..3600, a join
    duration outside 60..600 or a join duration above the duration gives
    [BetDurationInvalid], whatever the oracle would answer. *)
Theorem createBet_rejects_bad_arguments (data : list bytes) (feed : bytes32)
    (target duration joinDuration : N) (label : string) (env : Env) (w : W)
    (fee : N) :
  pyth_getUpdateFee env data = Some fee -> fee <= msg_value env ->
  (msg_value env - fee < MIN_BET ->
   createBet' data feed target duration joinDuration label env w
   = Revert BetAmountTooLow) /\
  (MIN_BET <= msg_value env - fee ->
   duration < 60 \/ 3600 < duration \/ joinDuration < 60 \/ 600 < joinDuration \/
   duration < joinDuration ->
   createBet' data feed target duration joinDuration label env w
   = Revert BetDurationInvalid).
Proof.
  intros Hq Hfee. apply N.ltb_ge in Hfee. split.
  - intros Hlow. apply N.ltb_lt in Hlow.
    unfold createBet. tx_prims. unfold bind. cbn [storage balance trace].
    rewrite Hq, Hfee, Hlow. reflexivity.
  - intros Hstake Hbad. apply N.ltb_ge in Hstake.
    unfold createBet. tx_prims. unfold bind. cbn [storage balance trace].
    rewrite Hq, Hfee, Hstake.
    unfold MIN_DURATION, MAX_DURATION, MIN_JOIN_DURATION, MAX_JOIN_DURATION.
    destruct (N.ltb_spec duration 60); [reflexivity|].
    destruct (N.ltb_spec 3600 duration); [reflexivity|]. cbn [orb].
    destruct (N.ltb_spec joinDuration 60); [reflexivity|].
    destruct (N.ltb_spec 600 joinDuration); [reflexivity|]. cbn [orb].
    destruct (N.ltb_spec duration joinDuration); [reflexivity|]. lia.
Qed.

(** X3. Once the payment, the durations and the oracle's price are in
    order, [createBet] never overwrites: on an identifier already in use
    it fails with [BetAlreadyExists]; on a free one it fails with
    [InvalidENSSubdomain] for an empty label or one above 63 bytes, and
    with [ENSSubdomainTaken] for a well-sized label that is reserved. *)
Theorem createBet_collision_and_label_errors (data : list bytes) (feed : bytes32)
    (target duration joinDuration : N) (label : string) (env : Env) (w : W)
    (fee : N) (cp : Price) (tp : Z) :
  funded env data duration joinDuration fee ->
  priced env data feed target fee cp tp ->
  let id := keccak256_packed (msg_sender env) feed target
              (block_timestamp env) (block_prevrandao env) in
  (player1 (bet_at (storage w) id) <> 0 ->
   transact (createBet' data feed target duration joinDuration label) env w
   = (w, Revert BetAlreadyExists)) /\
  (player1 (bet_at (storage w) id) = 0 ->
   byte_length label = 0 \/ 63 < byte_length label ->
   transact (createBet' data feed target duration joinDuration label) env w
   = (w, Revert InvalidENSSubdomain)) /\
  (player1 (bet_at (storage w) id) = 0 ->
   1 <= byte_length label <= 63 ->
   used_at (storage w) (keccak256_bytes label) = true ->
   transact (createBet' data feed target duration joinDuration label) env w
   = (w, Revert ENSSubdomainTaken)).
Proof.
  intros Hf Hp. cbv zeta.
  destruct (createBet_funded_run data feed target duration joinDuration label env w
              fee cp tp Hf Hp) as [Hex Hfree].
  unfold new_id in *.
  split; [|split].
  - intros H. apply transact_Revert. auto.
  - intros H Hlen. apply transact_Revert. apply (proj1 (Hfree H)), Hlen.
  - intros H Hlen Hused. apply transact_Revert. apply (proj2 (Hfree H)); assumption.
Qed.

End CreateFacts.

(** ** Joining, cancelling and resolving: what changes and what is refused *)

Section LifecycleFacts.
Import Betflix Summary.


(** X5. What [joinBet] answers when it refuses, test by test: no bet under
    the identifier, [BetDoesNotExist]; a cancelled or resolved bet,
    [BetAlreadyResolved]; an open bet that has a joiner, [BetAlreadyJoined];
    an unmatched bet after its join deadline or at its deadline,
    [BetExpired]; in time but with a value other than the stake,
    [BetAmountTooLow]. *)
Theorem joinBet_refusals (id : bytes32) (env : Env) (w : W) :
  let bet := bet_at (storage w) id in
  (player1 bet = 0 -> joinBet id env w = Revert BetDoesNotExist) /\
  (player1 bet <> 0 -> cancelled bet = true \/ resolved bet = true ->
   joinBet id env w = Revert BetAlreadyResolved) /\
  (player1 bet <> 0 -> cancelled bet = false -> resolved bet = false ->
   (player2 bet <> 0 -> joinBet id env w = Revert BetAlreadyJoined) /\
   (player2 bet = 0 ->
    (joinDeadline bet < block_timestamp env \/ deadline bet <= block_timestamp env ->
     joinBet id env w = Revert BetExpired) /\
    (block_timestamp env <= joinDeadline bet -> block_timestamp env < deadline bet ->
     msg_value env <> amount bet ->
     joinBet id env w = Revert BetAmountTooLow))).
Proof.
  cbv zeta. unfold joinBet. split; [|split].
  - intros H. apply N.eqb_eq in H. guards. reflexivity.
  - intros H Hflag. apply N.eqb_neq in H. guards.
    destruct (cancelled _); [reflexivity|].
    destruct Hflag as [|Hr]; [discriminate|]. rewrite Hr. reflexivity.
  - intros H Hc Hr. apply N.eqb_neq in H. split.
    + intros Hm. apply N.eqb_neq in Hm. guards. reflexivity.
    + intros Hm. apply N.eqb_eq in Hm. split.
      * intros Hlate. guards.
        destruct (N.ltb_spec (joinDeadline (bet_at (storage w) id)) (block_timestamp env));
          [reflexivity|].
        destruct (N.leb_spec (deadline (bet_at (storage w) id)) (block_timestamp env));
          [reflexivity|lia].
      * intros Hj Hd Hv. apply N.ltb_ge in Hj. apply N.leb_gt in Hd.
        apply N.eqb_neq in Hv. guards. reflexivity.
Qed.

(** X6. A successful [cancelBet] needs the creator as caller, no ether,
    an unmatched bet that is neither cancelled nor resolved, a time
    strictly after the join deadline, and a contract that holds at least
    the stake.  It sets the [cancelled] flag and frees the bet's label;
    the other fields of the bet, the other bets and the other reservations
    stay. *)
Theorem cancelBet_effect (id : bytes32) (env : Env) (w w' : W) :
  cancelBet id env w = Ok (tt, w') ->
  let bet := bet_at (storage w) id in
  player1 bet = msg_sender env /\ player1 bet <> 0 /\ player2 bet = 0 /\
  cancelled bet = false /\ resolved bet = false /\
  joinDeadline bet < block_timestamp env /\
  bet_at (storage w') id = set_cancelled true bet /\
  (forall id', id' <> id -> bet_at (storage w') id' = bet_at (storage w) id') /\
  used_at (storage w') (ensLabel bet) = false /\
  (forall l, l <> ensLabel bet -> used_at (storage w') l = used_at (storage w) l) /\
  msg_value env = 0 /\ amount bet <= balance w.
Proof.
  intros H. cbv zeta. apply cancelBet_Ok_iff in H as [[] ->].
  unfold cancelled_world. cbn [storage balance trace].
  repeat match goal with |- _ /\ _ => split end; try assumption.
  - rewrite bet_at_set_used, bet_at_update_bet, decide_True by reflexivity.
    reflexivity.
  - intros id' Hne.
    rewrite bet_at_set_used, bet_at_update_bet, decide_False by congruence.
    reflexivity.
  - rewrite used_at_set_used, decide_True by reflexivity. reflexivity.
  - intros l Hne. rewrite used_at_set_used, decide_False by congruence.
    reflexivity.
Qed.

(** X7. What [cancelBet] answers when it refuses, for a call without
    ether: no bet, [BetDoesNotExist]; a caller other than the creator,
    [OnlyCreatorCanRefund]; the creator on a cancelled or resolved bet,
    [BetAlreadyResolved]; on a matched bet, [BetAlreadyJoined]; on an open
    bet up to and including the join deadline, [BetNotExpired]. *)
Theorem cancelBet_refusals (id : bytes32) (env : Env) (w : W) :
  msg_value env = 0 ->
  let bet := bet_at (storage w) id in
  (player1 bet = 0 -> cancelBet id env w = Revert BetDoesNotExist) /\
  (player1 bet <> 0 -> player1 bet <> msg_sender env ->
   cancelBet id env w = Revert OnlyCreatorCanRefund) /\
  (player1 bet <> 0 -> player1 bet = msg_sender env ->
   (cancelled bet = true \/ resolved bet = true ->
    cancelBet id env w = Revert BetAlreadyResolved) /\
   (cancelled bet = false -> resolved bet = false ->
    (player2 bet <> 0 -> cancelBet id env w = Revert BetAlreadyJoined) /\
    (player2 bet = 0 -> block_timestamp env <= joinDeadline bet ->
     cancelBet id env w = Revert BetNotExpired))).
Proof.
  intros Hv. cbv zeta. apply N.eqb_eq in Hv. unfold cancelBet.
  split; [|split].
  - intros H. apply N.eqb_eq in H. guards. reflexivity.
  - intros H Hs. apply N.eqb_neq in H. apply N.eqb_neq in Hs. guards. reflexivity.
  - intros H Hs. apply N.eqb_neq in H. apply N.eqb_eq in Hs. split.
    + intros Hflag. guards.
      destruct (cancelled _); [reflexivity|].
      destruct Hflag as [|Hr]; [discriminate|]. rewrite Hr. reflexivity.
    + intros Hc Hr. split.
      * intros Hm. apply N.eqb_neq in Hm. guards. reflexivity.
      * intros Hm Ht. apply N.eqb_eq in Hm. apply N.leb_le in Ht. guards.
        reflexivity.
Qed.


(** X9. What [resolveBet] answers when it refuses a matched bet at or
    after its deadline: already resolved, [BetAlreadyResolved]; a payment
    below the quoted fee, [InsufficientPythFee]; the oracle's price not
    positive, or at an exponent other than the stored one, [PriceStale].
    A cancelled bet is refused with [BetAlreadyResolved] at any time. *)
Theorem resolveBet_refusals (id : bytes32) (data : list bytes) (env : Env) (w : W) :
  let bet := bet_at (storage w) id in
  player1 bet <> 0 ->
  (cancelled bet = true -> resolveBet id data env w = Revert BetAlreadyResolved) /\
  (cancelled bet = false -> player2 bet <> 0 -> deadline bet <= block_timestamp env ->
   (resolved bet = true -> resolveBet id data env w = Revert BetAlreadyResolved) /\
   (resolved bet = false ->
    forall fee, pyth_getUpdateFee env data = Some fee ->
    (msg_value env < fee -> resolveBet id data env w = Revert InsufficientPythFee) /\
    (fee <= msg_value env -> pyth_updatePriceFeeds env data fee = true ->
     forall fp,
       pyth_getPriceNoOlderThan env (priceFeedId bet) MAX_PRICE_AGE = Some fp ->
       (price fp <= 0)%Z \/ expo fp <> priceExponent bet ->
       resolveBet id data env w = Revert PriceStale))).
Proof.
  cbv zeta. intros H. apply N.eqb_neq in H. unfold resolveBet. split.
  - intros Hc. guards. reflexivity.
  - intros Hc Hm Ht. apply N.eqb_neq in Hm. apply N.ltb_ge in Ht. split.
    + intros Hr. guards. reflexivity.
    + intros Hr fee Hq. split.
      * intros Hlow. apply N.ltb_lt in Hlow. guards. rewrite Hq, Hlow. reflexivity.
      * intros Hfee Hup fp Hp Hbad. guards. rewrite Hq.
        destruct (N.ltb_spec (msg_value env) fee); [lia|].
        cbn [storage balance trace].
        destruct (N.ltb_spec (balance w + msg_value env) fee); [lia|].
        rewrite Hup. cbn [storage balance trace]. rewrite Hp.
        destruct (Z.leb_spec (price fp) 0); [reflexivity|].
        destruct (Z.eqb_spec (expo fp) (priceExponent (bet_at (storage w) id)));
          [|reflexivity].
        destruct Hbad; [lia|contradiction].
Qed.

(** X10. An identifier under which no bet was stored: the three lifecycle
    calls fail with [BetDoesNotExist] and leave the world alone,
    [getBetTargetPriceUSD] returns zero and [getBet] the all-zero record. *)
Theorem unknown_bet_is_refused (id : bytes32) (env : Env) (w : W) :
  bets (storage w) !! id = None ->
  transact (joinBet id) env w = (w, Revert BetDoesNotExist) /\
  (forall data, transact (resolveBet id data) env w = (w, Revert BetDoesNotExist)) /\
  (msg_value env = 0 ->
   transact (cancelBet id) env w = (w, Revert BetDoesNotExist)) /\
  getBetTargetPriceUSD id env w = Ok (0, w) /\
  getBet id env w = Ok (zero_bet, w).
Proof.
  intros Hnone.
  assert (Hz : bet_at (storage w) id = zero_bet)
    by (unfold bet_at; rewrite Hnone; reflexivity).
  repeat match goal with |- _ /\ _ => split end.
  - apply transact_Revert. unfold joinBet. guards. rewrite Hz. reflexivity.
  - intros data. apply transact_Revert. unfold resolveBet. guards. rewrite Hz.
    reflexivity.
  - intros Hv. apply N.eqb_eq in Hv. apply transact_Revert. unfold cancelBet.
    guards. rewrite Hz. reflexivity.
  - unfold getBetTargetPriceUSD. guards. rewrite Hz. reflexivity.
  - unfold getBet. guards. rewrite Hz. reflexivity.
Qed.

End LifecycleFacts.

(** ** What holds in every state a deployed contract can reach *)

Section ReachableFacts.
Import Betflix Summary Wellformed.
Context (keccak256_packed : address -> bytes32 -> N -> N -> N -> bytes32).
Context (keccak256_bytes : string -> bytes32).

Abbreviation reachable' := (reachable keccak256_packed keccak256_bytes).
Abbreviation evolves' := (evolves keccak256_packed keccak256_bytes).

(** X11. In every reachable state a stored bet has the shape [createBet]
    checked: the join deadline is no later than the deadline and at most
    3540 seconds before it, the stake is at least [MIN_BET], the start
    price and the target are positive, the exponent lies in -18..-2, the
    target fits 64 bits, the label has 1 to 63 bytes and [ensLabel] is its
    hash.  A slot that holds no bet reads as the all-zero record. *)
Theorem reachable_bet_terms (w : W) (id : bytes32) :
  reachable' w ->
  let bet := bet_at (storage w) id in
  (player1 bet <> 0 ->
   joinDeadline bet <= deadline bet <= joinDeadline bet + 3540 /\
   MIN_BET <= amount bet /\
   (0 < startPrice bet)%Z /\
   (-18 <= priceExponent bet <= -2)%Z /\
   (0 < targetPrice bet <= MAX_INT64)%Z /\
   ensLabel bet = keccak256_bytes (ensSubdomain bet) /\
   1 <= byte_length (ensSubdomain bet) <= 63) /\
  (player1 bet = 0 -> bet = zero_bet).
Proof.
  intros Hr. apply (reachable_sound keccak256_packed keccak256_bytes) in Hr.
  cbv zeta. split.
  - intros Hp. destruct (snd_bets _ _ Hr id Hp).
    destruct wf_target0 as (usd & Husd & Hconv).
    apply convert_Ok_inv in Hconv as (_ & He & Htp & Hmax).
    repeat match goal with |- _ /\ _ => split end; try assumption; lia.
  - apply (snd_unwritten _ _ Hr).
Qed.

(** X12. In every reachable state the flags of a slot agree: [resolved]
    holds exactly when a winner is recorded; a resolved bet has both
    players, is not cancelled, and its winner is one of the two; a
    cancelled bet has a creator, no joiner and no winner; and a joiner is
    recorded only beside a creator. *)
Theorem reachable_outcome_flags (w : W) (id : bytes32) :
  reachable' w ->
  let bet := bet_at (storage w) id in
  (resolved bet = true <-> winner bet <> 0) /\
  (resolved bet = true ->
   player1 bet <> 0 /\ player2 bet <> 0 /\ cancelled bet = false /\
   (winner bet = player1 bet \/ winner bet = player2 bet)) /\
  (cancelled bet = true ->
   player1 bet <> 0 /\ player2 bet = 0 /\ resolved bet = false /\ winner bet = 0) /\
  (player2 bet <> 0 -> player1 bet <> 0).
Proof.
  intros Hr. apply (reachable_sound keccak256_packed keccak256_bytes) in Hr.
  cbv zeta.
  destruct (N.eq_dec (player1 (bet_at (storage w) id)) 0) as [Hz|Hp].
  - rewrite (snd_unwritten _ _ Hr id Hz). cbn.
    repeat split; try discriminate; try congruence.
  - destruct (snd_bets _ _ Hr id Hp).
    assert (Hres : resolved (bet_at (storage w) id) = true ->
                   winner (bet_at (storage w) id) <> 0).
    { intros Ht. destruct (wf_winner_set0 Ht) as [->| ->]; auto. }
    assert (Hexcl : resolved (bet_at (storage w) id) = true ->
                    cancelled (bet_at (storage w) id) = false).
    { intros Ht. destruct (cancelled _) eqn:Ec; [|reflexivity].
      exfalso. apply (wf_resolved_matched0 Ht). auto. }
    remember (bet_at (storage w) id) as b eqn:Eb. clear Eb.
    destruct b as [p1 p2 am tp pe dl jd sp fe r c wi pf el es].
    cbn in *.
    destruct r, c;
      repeat match goal with
      | H : true = true -> _ |- _ => specialize (H eq_refl)
      | H : false = false -> _ |- _ => specialize (H eq_refl)
      | H : true = false -> _ |- _ => clear H
      | H : false = true -> _ |- _ => clear H
      end;
      try congruence;
      repeat split; intros; subst; try discriminate; try congruence; auto.
Qed.

(** X13. In every reachable state a label is reserved exactly when a
    bet that exists and is not cancelled carries it, and that bet is the
    only one; so [isSubdomainAvailable] answers [false] exactly for the
    labels of such bets. *)
Theorem reachable_reservations_exact (w : W) (env : Env) (subdomain : string) :
  reachable' w ->
  let label := keccak256_bytes subdomain in
  let holds id := live (bet_at (storage w) id) /\ ensLabel (bet_at (storage w) id) = label in
  (isSubdomainAvailable keccak256_bytes subdomain env w = Ok (false, w) <->
   exists id, holds id) /\
  (isSubdomainAvailable keccak256_bytes subdomain env w = Ok (true, w) <->
   forall id, ~ holds id) /\
  (forall id1 id2, holds id1 -> holds id2 -> id1 = id2).
Proof.
  intros Hr.
  pose proof (reachable_sound keccak256_packed keccak256_bytes w Hr) as Hs.
  pose proof (reachable_consistent keccak256_packed keccak256_bytes w Hr) as Hc.
  cbv zeta. unfold isSubdomainAvailable, read. cbn.
  assert (Hiff : used_at (storage w) (keccak256_bytes subdomain) = true <->
                 exists id, live (bet_at (storage w) id) /\
                            ensLabel (bet_at (storage w) id) = keccak256_bytes subdomain).
  { split; [apply (snd_reserved _ _ Hs)|].
    intros (id & Hl & <-). apply (inv_label_held _ Hc), Hl. }
  split; [|split].
  - rewrite <- Hiff.
    destruct (used_at _ _); cbn; split; intros; congruence.
  - split.
    + intros H id Hh.
      assert (Hu : used_at (storage w) (keccak256_bytes subdomain) = true)
        by (apply Hiff; eauto).
      rewrite Hu in H. discriminate.
    + intros H. destruct (used_at _ _) eqn:Eu; [|reflexivity].
      exfalso. destruct (proj1 Hiff eq_refl) as [id Hh]. exact (H id Hh).
  - intros id1 id2 [Hl1 He1] [Hl2 He2].
    apply (inv_label_unique _ Hc); congruence.
Qed.

(** X14. In every reachable state the trace holds, for every stored bet,
    the [BetCreated] event with the bet's creator, target, stake,
    deadlines and label; for every matched bet the [BetJoined] event with
    its joiner; for every resolved bet a [BetResolved] event with its
    winner and twice the stake as payout; for every cancelled bet the
    [BetCancelled] event with the creator and the stake. *)
Theorem reachable_events_announce (w : W) (id : bytes32) :
  reachable' w ->
  let bet := bet_at (storage w) id in
  (player1 bet <> 0 ->
   In (Emitted (BetCreated id (player1 bet) (targetPrice bet) (amount bet)
                  (deadline bet) (joinDeadline bet) (ensSubdomain bet))) (trace w)) /\
  (player2 bet <> 0 -> In (Emitted (BetJoined id (player2 bet))) (trace w)) /\
  (resolved bet = true ->
   exists loser finalPrice,
     In (Emitted (BetResolved id (winner bet) loser finalPrice (amount bet * 2)
                    (ensSubdomain bet))) (trace w)) /\
  (cancelled bet = true ->
   In (Emitted (BetCancelled id (player1 bet) (amount bet))) (trace w)).
Proof.
  intros Hr. apply (reachable_sound keccak256_packed keccak256_bytes) in Hr.
  cbv zeta. destruct Hr. auto.
Qed.

(** X15. In every reachable state [getBetTargetPriceUSD] returns without
    reverting, for every identifier: zero for a slot without a bet, and
    for a stored bet the whole-dollar target its creator passed, a number
    from 1 to 100000000 that [_convertToPythPrice] maps to the stored
    target at the stored exponent. *)
Theorem getBetTargetPriceUSD_total (w : W) (id : bytes32) (env : Env) :
  reachable' w ->
  let bet := bet_at (storage w) id in
  exists usd,
    getBetTargetPriceUSD id env w = Ok (usd, w) /\
    (player1 bet = 0 -> usd = 0) /\
    (player1 bet <> 0 ->
     1 <= usd <= 100000000 /\
     _convertToPythPrice usd (priceExponent bet) = Ok (targetPrice bet)).
Proof.
  intros Hr. apply (reachable_sound keccak256_packed keccak256_bytes) in Hr.
  cbv zeta. unfold getBetTargetPriceUSD. tx_prims. unfold bind. cbn.
  destruct (N.eqb_spec (player1 (bet_at (storage w) id)) 0) as [Hz|Hp].
  - exists 0. repeat split; try reflexivity; contradiction.
  - destruct (snd_bets _ _ Hr id Hp).
    destruct wf_target0 as (usd & Husd & Hconv).
    exists usd. rewrite (display_of_convert _ _ _ Hconv).
    repeat split; try reflexivity; try tauto; lia.
Qed.

(** X16. In every reachable state the oracle's address is not zero: the
    constructor and [emergencyUpdatePyth] both refuse the zero address. *)
Theorem reachable_oracle_set (w : W) :
  reachable keccak256_packed keccak256_bytes w -> pyth (storage w) <> 0.
Proof.
  intros Hr. apply (reachable_sound keccak256_packed keccak256_bytes) in Hr.
  apply (snd_pyth _ _ Hr).
Qed.

Lemma effect_keeps_terms env c (w w' : W) id :
  effect_of keccak256_packed keccak256_bytes env w c w' ->
  player1 (bet_at (storage w) id) <> 0 ->
  exists p2 r c' win,
    bet_at (storage w') id
    = set_winner win (set_cancelled c' (set_resolved r
        (set_player2 p2 (bet_at (storage w) id)))) /\
    (player2 (bet_at (storage w) id) <> 0 -> p2 = player2 (bet_at (storage w) id)).
Proof.
  assert (Hsame : forall b : Bet,
    b = set_winner (winner b) (set_cancelled (cancelled b) (set_resolved (resolved b)
          (set_player2 (player2 b) b)))) by (intros []; reflexivity).
  intros He Hp.
  destruct He as [c|data feed target duration joinDuration label fee cp tp Hc Hu
                 |id0|id0 data fee fp Hrs Hpo|id0|c w' Hb Hu].
  - eexists _, _, _, _. split; [apply Hsame|auto].
  - destruct Hc. unfold created_world. cbn [storage].
    rewrite bet_at_set_bet, bet_at_set_used.
    destruct (decide _) as [<-|_]; [contradiction|].
    eexists _, _, _, _. split; [apply Hsame|auto].
  - destruct H. unfold joined_world. cbn [storage]. rewrite bet_at_update_bet.
    destruct (decide _) as [<-|_].
    + exists (msg_sender env), (resolved (bet_at (storage w) id0)),
        (cancelled (bet_at (storage w) id0)), (winner (bet_at (storage w) id0)).
      split; [destruct (bet_at (storage w) id0); reflexivity|contradiction].
    + eexists _, _, _, _. split; [apply Hsame|auto].
  - destruct (decide (id0 = id)) as [<-|Hne].
    + rewrite resolved_world_bet.
      exists (player2 (bet_at (storage w) id0)), true,
        (cancelled (bet_at (storage w) id0)),
        (winner_of (bet_at (storage w) id0) (price fp)).
      split; [destruct (bet_at (storage w) id0); reflexivity|auto].
    + unfold resolved_world. cbn [storage].
      rewrite !bet_at_update_bet, !decide_False by assumption.
      eexists _, _, _, _. split; [apply Hsame|auto].
  - unfold cancelled_world. cbn [storage].
    rewrite bet_at_set_used, bet_at_update_bet.
    destruct (decide _) as [<-|_].
    + exists (player2 (bet_at (storage w) id0)), (resolved (bet_at (storage w) id0)),
        true, (winner (bet_at (storage w) id0)).
      split; [destruct (bet_at (storage w) id0); reflexivity|auto].
    + eexists _, _, _, _. split; [apply Hsame|auto].
  - rewrite (bet_at_same_bets _ _ id Hb).
    eexists _, _, _, _. split; [apply Hsame|auto].
Qed.

(** X17. The terms of a bet never change: once a bet is stored, whatever
    calls follow, its creator, price feed, target, exponent, start price,
    stake, recorded oracle fee, both deadlines and its label stay as they
    are (only the joiner, the two flags and the winner are ever written),
    and a joiner, once recorded, stays. *)
Theorem bet_terms_are_immutable (w w' : W) (id : bytes32) :
  evolves' w w' ->
  let bet := bet_at (storage w) id in
  let bet' := bet_at (storage w') id in
  player1 bet <> 0 ->
  player1 bet' = player1 bet /\ priceFeedId bet' = priceFeedId bet /\
  targetPrice bet' = targetPrice bet /\ priceExponent bet' = priceExponent bet /\
  startPrice bet' = startPrice bet /\ amount bet' = amount bet /\
  pythUpdateFee bet' = pythUpdateFee bet /\
  deadline bet' = deadline bet /\ joinDeadline bet' = joinDeadline bet /\
  ensSubdomain bet' = ensSubdomain bet /\ ensLabel bet' = ensLabel bet /\
  (player2 bet <> 0 -> player2 bet' = player2 bet).
Proof.
  cbv zeta. intros Hev Hp.
  induction Hev as [|w' env c _ IH Hs].
  - repeat split; reflexivity.
  - destruct IH as (E1 & E2 & E3 & E4 & E5 & E6 & E7 & E8 & E9 & E10 & E11 & E12).
    assert (Hp' : player1 (bet_at (storage w') id) <> 0) by congruence.
    destruct (effect_keeps_terms env c w' (step keccak256_packed keccak256_bytes env c w')
                id (step_effect keccak256_packed keccak256_bytes env c w') Hp')
      as (p2 & r & c' & win & -> & Hp2).
    cbn. repeat match goal with |- _ /\ _ => split end; try assumption.
    intros Hm. rewrite Hp2 by (rewrite E12; assumption). auto.
Qed.

End ReachableFacts.

(** ** The owner's calls and the contract's funds *)

Section OwnerFacts.
Import Betflix Summary Admin Wellformed.
Context (keccak256_packed : address -> bytes32 -> N -> N -> N -> bytes32).
Context (keccak256_bytes : string -> bytes32).

(** X18. Every administrative entry point refuses a caller who is not
    the owner with [OwnableUnauthorizedAccount], naming the caller,
    whatever its arguments. *)
Theorem admin_calls_refuse_strangers (env : Env) (w : W) :
  msg_value env = 0 ->
  owner (storage w) <> msg_sender env ->
  let refused : result (unit * W) :=
    Revert (OwnableUnauthorizedAccount (msg_sender env)) in
  (forall wrapper node resolver name,
     configureENS wrapper node resolver name env w = refused) /\
  emergencyWithdrawAll env w = refused /\
  (forall a, emergencyUpdatePyth a env w = refused) /\
  (forall a, transferOwnership a env w = refused) /\
  renounceOwnership env w = refused.
Proof.
  intros Hv Hne. apply N.eqb_eq in Hv. apply N.eqb_neq in Hne. cbv zeta.
  repeat match goal with |- _ /\ _ => split end; intros;
    unfold configureENS, emergencyWithdrawAll, emergencyUpdatePyth,
      transferOwnership, renounceOwnership, onlyOwner;
    tx_prims; unfold bind; cbn [storage balance trace];
    rewrite Hv, Hne; reflexivity.
Qed.


(** X20. Once ownership is renounced it stays so: whatever calls follow,
    the owner stays the zero address and the oracle's address and the ENS
    configuration never change again. *)
Theorem renounced_ownership_is_final (w w' : W) :
  evolves keccak256_packed keccak256_bytes w w' ->
  owner (storage w) = 0 ->
  owner (storage w') = 0 /\
  pyth (storage w') = pyth (storage w) /\
  nameWrapper (storage w') = nameWrapper (storage w) /\
  ensDomainNode (storage w') = ensDomainNode (storage w) /\
  ensResolver (storage w') = ensResolver (storage w) /\
  ensDomainName (storage w') = ensDomainName (storage w).
Proof.
  intros Hev Ho.
  induction Hev as [|w' env c _ IH Hs]; [repeat split; assumption|].
  destruct IH as (I1 & I2 & I3 & I4 & I5 & I6).
  pose proof (step_transition keccak256_packed keccak256_bytes env c w') as Htr.
  remember (step keccak256_packed keccak256_bytes env c w') as w2 eqn:E. clear E.
  assert (Hstranger : ~ owner_call env w').
  { intros [_ Hoc]. congruence. }
  destruct Htr; try contradiction; cbn [storage];
    repeat match goal with |- _ /\ _ => split end; assumption.
Qed.

(** X21. A successful [configureENS] stores the four values and touches
    neither the bets, the reservations, the oracle's address nor the
    balance.  Afterwards [getFullENSDomain] answers every label, reserved
    or not, with the label, a dot and the configured name, and with the
    empty string if the wrapper is the zero address or the name is
    empty. *)
Theorem configureENS_then_getFullENSDomain (wrapper : address) (node : bytes32)
    (resolver : address) (name : string) (env : Env) (w w' : W) :
  configureENS wrapper node resolver name env w = Ok (tt, w') ->
  (nameWrapper (storage w') = wrapper /\ ensDomainNode (storage w') = node /\
   ensResolver (storage w') = resolver /\ ensDomainName (storage w') = name) /\
  (bets (storage w') = bets (storage w) /\
   usedSubdomains (storage w') = usedSubdomains (storage w) /\
   pyth (storage w') = pyth (storage w) /\ owner (storage w') = owner (storage w) /\
   balance w' = balance w) /\
  forall env' subdomain,
    getFullENSDomain subdomain env' w'
    = Ok (if (wrapper =? 0) || (byte_length name =? 0) then EmptyString
          else (subdomain +:+ "." +:+ name)%string, w').
Proof.
  intros H. apply configureENS_Ok_iff in H as [_ ->].
  unfold configured_world. cbn [storage balance trace set_ens nameWrapper
    ensDomainNode ensResolver ensDomainName bets usedSubdomains pyth owner].
  repeat match goal with |- _ /\ _ => split end; try reflexivity.
  intros env' subdomain. unfold getFullENSDomain. tx_prims. unfold bind.
  cbn [storage set_ens nameWrapper ensDomainName].
  destruct ((wrapper =? 0) || (byte_length name =? 0)); reflexivity.
Qed.

(** X22. Deployment: the constructor refuses the zero address as oracle
    with [ZeroAddress]; when it succeeds the deployer owns the contract,
    the oracle is the given address, the balance is zero, no bet is
    stored, every label is available and no ENS domain is configured. *)
Theorem constructor_deploys_empty (_pythAddress : address) (env : Env) :
  msg_value env = 0 -> msg_sender env <> 0 ->
  (_pythAddress = 0 -> constructor _pythAddress env new_world = Revert ZeroAddress) /\
  (_pythAddress <> 0 ->
   exists w0,
     constructor _pythAddress env new_world = Ok (tt, w0) /\
     owner (storage w0) = msg_sender env /\ pyth (storage w0) = _pythAddress /\
     balance w0 = 0 /\
     (forall id, bet_at (storage w0) id = zero_bet) /\
     (forall subdomain env',
        isSubdomainAvailable keccak256_bytes subdomain env' w0 = Ok (true, w0) /\
        getFullENSDomain subdomain env' w0 = Ok (EmptyString, w0))).
Proof.
  intros Hv Hs. apply N.eqb_eq in Hv. apply N.eqb_neq in Hs. split.
  - intros ->. unfold constructor, isValidAddress. tx_prims. unfold bind.
    cbn [storage balance trace]. rewrite Hv, Hs. reflexivity.
  - intros Ha. apply N.eqb_neq in Ha. eexists. split.
    + unfold constructor, isValidAddress. tx_prims. unfold bind.
      cbn [storage balance trace]. rewrite Hv, Hs. cbn [storage balance trace].
      rewrite Ha. reflexivity.
    + cbn. repeat match goal with |- _ /\ _ => split end; try reflexivity.
      intros subdomain env'. split; reflexivity.
Qed.

(** X23. The refund [resolveBet] makes to its caller is paid from what
    the contract holds, not from what the caller sent: the quoted fee has
    gone to the oracle by then.  A resolution succeeds only if balance
    and payment together cover the oracle's fee and the pot; and if they
    cover these but not the refund too (no ether reaching the contract
    while the pot is paid), the call fails in the refund. *)
Theorem resolveBet_refund_from_balance (id : bytes32) (data : list bytes)
    (env : Env) (w : W) (fee : N) (fp : Price) :
  ready_to_settle env w id data fee fp ->
  let bet := bet_at (storage w) id in
  (forall w', resolveBet id data env w = Ok (tt, w') ->
     amount bet * 2 + fee <= balance w + msg_value env) /\
  (accepts_value env (winner_of bet (price fp)) (amount bet * 2) = true ->
   amount bet * 2 + fee <= balance w + msg_value env ->
   balance w + msg_value env < amount bet * 2 + 2 * fee ->
   resolveBet id data env w
   = Revert (InsufficientBalance (balance w + msg_value env - fee - amount bet * 2) fee)).
Proof.
  intros Hr. cbv zeta. split.
  - intros w' H. apply resolveBet_Ok_iff in H as (fee' & fp' & Hr' & Hp & ->).
    destruct Hr, Hr', Hp.
    assert (fee' = fee) by congruence. subst fee'. lia.
  - intros Hacc Hpot Hshort. destruct Hr.
    apply N.eqb_neq in rs_exists0. apply N.eqb_neq in rs_matched0.
    apply N.ltb_ge in rs_deadline0.
    unfold resolveBet. tx_prims. unfold bind. cbn [storage balance trace].
    rewrite rs_exists0, rs_not_cancelled0, rs_matched0, rs_deadline0,
      rs_not_resolved0, rs_quote0.
    cbn [negb storage balance trace].
    destruct (N.ltb_spec (msg_value env) fee); [lia|].
    cbn [storage balance trace].
    destruct (N.ltb_spec (balance w + msg_value env) fee); [lia|].
    rewrite rs_update0. cbn [storage balance trace]. rewrite rs_price0.
    destruct (Z.leb_spec (price fp) 0); [lia|].
    destruct (Z.eqb_spec (expo fp) (priceExponent (bet_at (storage w) id)));
      [|contradiction].
    cbn [negb storage balance trace lift].
    unfold checked_mul.
    destruct (N.ltb_spec MAX_UINT256 (amount (bet_at (storage w) id) * 2)); [lia|].
    cbn [storage balance trace].
    unfold winner_of in Hacc.
    destruct (N.ltb_spec (balance w + msg_value env - fee)
                (amount (bet_at (storage w) id) * 2)); [lia|].
    rewrite Hacc. cbn [storage balance trace].
    destruct (N.ltb_spec (balance w + msg_value env - fee
                          - amount (bet_at (storage w) id) * 2) fee); [|lia].
    reflexivity.
Qed.

End OwnerFacts.

(** ** The price conversion, characterised *)

Section ConversionFacts.

(** X24. [_convertToPythPrice] returns [p] exactly when the price is a
    whole number of dollars from 1 to 100000000, the exponent lies in
    -18..-2, [p] is the price times [10 ^ -e] and [p] fits a signed 64-bit
    integer.  With price and exponent in range but the product above the
    64-bit maximum the call does not answer [PriceStale]: it fails in the
    downcast. *)
Theorem convertToPythPrice_spec (x : N) (e : Z) :
  (forall p,
     _convertToPythPrice x e = Ok p <->
     1 <= x <= 100000000 /\ (-18 <= e <= -2)%Z /\
     p = (Z.of_N x * 10 ^ (- e))%Z /\ (p <= MAX_INT64)%Z) /\
  (1 <= x <= 100000000 -> (-18 <= e <= -2)%Z ->
   (MAX_INT64 < Z.of_N x * 10 ^ (- e))%Z ->
   _convertToPythPrice x e
   = Revert (SafeCastOverflowedIntDowncast 64 (Z.of_N x * 10 ^ (- e))%Z)).
Proof.
  assert (Hprod : (-18 <= e <= -2)%Z ->
                  Z.of_N (x * 10 ^ Z.to_N (- e)) = (Z.of_N x * 10 ^ (- e))%Z).
  { intros He. rewrite N2Z.inj_mul, N2Z.inj_pow, Z2N.id by lia. reflexivity. }
  split.
  - intros p. split.
    + intros H. apply convert_Ok_inv in H as (Hx & He & -> & Hmax).
      rewrite <- Hprod by assumption. auto.
    + intros (Hx & He & -> & Hmax).
      rewrite (convert_in_band x e Hx He), (Hprod He).
      destruct (Z.ltb_spec MAX_INT64 (Z.of_N x * 10 ^ (- e))); [lia|reflexivity].
  - intros Hx He Hbig.
    rewrite (convert_in_band x e Hx He), (Hprod He).
    destruct (Z.ltb_spec MAX_INT64 (Z.of_N x * 10 ^ (- e))); [reflexivity|lia].
Qed.

(** X25. At an exponent from -10 to -2 every price from 1 to 100000000
    converts; and at any exponent the conversion keeps the order of the
    prices it accepts, so different dollar targets are stored as different
    targets. *)
Theorem convertToPythPrice_total_and_monotone (e : Z) :
  (forall x, 1 <= x <= 100000000 -> (-10 <= e <= -2)%Z ->
     exists p, _convertToPythPrice x e = Ok p) /\
  (forall x y p q,
     _convertToPythPrice x e = Ok p -> _convertToPythPrice y e = Ok q ->
     (x < y <-> (p < q)%Z)).
Proof.
  split.
  - intros x Hx He.
    assert (He' : (-18 <= e <= -2)%Z) by lia.
    rewrite (convert_in_band x e Hx He').
    assert (Hprod : Z.of_N (x * 10 ^ Z.to_N (- e)) = (Z.of_N x * 10 ^ (- e))%Z).
    { rewrite N2Z.inj_mul, N2Z.inj_pow, Z2N.id by lia. reflexivity. }
    rewrite Hprod.
    assert (Hpow : (10 ^ (- e) <= 10 ^ 10)%Z) by (apply Z.pow_le_mono_r; lia).
    assert (H0 : (0 < 10 ^ (- e))%Z) by (apply Z.pow_pos_nonneg; lia).
    change (10 ^ 10)%Z with 10000000000%Z in Hpow.
    destruct (Z.ltb_spec MAX_INT64 (Z.of_N x * 10 ^ (- e))) as [Hbig|_]; [|eauto].
    unfold MAX_INT64 in Hbig.
    change (2 ^ 63 - 1)%Z with 9223372036854775807%Z in Hbig. nia.
  - intros x y p q Hp Hq.
    apply convert_Ok_inv in Hp as (Hx & He & -> & _).
    apply convert_Ok_inv in Hq as (Hy & _ & -> & _).
    pose proof (pow10_band (Z.to_N (- e)) ltac:(lia)) as [Hm _].
    remember (10 ^ Z.to_N (- e)) as m eqn:Em. clear Em.
    rewrite <- N2Z.inj_lt. split; intros H; nia.
Qed.

End ConversionFacts.

(** ** The earlier variant: what is stored and what is paid *)

Section LegacyFacts.
Import BetflixLegacy.
Context (keccak256_packed : address -> bytes32 -> Z -> N -> N -> bytes32).

(** X26. Earlier variant: a successful [createBet] stores the bet under
    the hash of caller, feed, target, timestamp and randomness, in a slot
    that held no bet.  The target is stored as the caller gave it, the
    stake is the value sent less the quoted fee and at least [MIN_BET],
    the quoted fee is recorded, and, the fee having gone to the oracle,
    the contract's balance grows by the stake only. *)
Theorem legacy_createBet_records_bet (data : list bytes) (feed : bytes32)
    (target : Z) (duration joinDuration : N) (env : Env) (w w' : W) (id : bytes32) :
  createBet keccak256_packed data feed target duration joinDuration env w = Ok (id, w') ->
  exists fee cp,
    pyth_getUpdateFee env data = Some fee /\
    pyth_getPriceNoOlderThan env feed MAX_PRICE_AGE = Some cp /\
    id = keccak256_packed (msg_sender env) feed target
           (block_timestamp env) (block_prevrandao env) /\
    player1 (bet_at (storage w) id) = 0 /\
    bet_at (storage w') id =
      {| player1 := msg_sender env; player2 := 0; amount := msg_value env - fee;
         targetPrice := target; priceExponent := expo cp;
         deadline := block_timestamp env + duration;
         joinDeadline := block_timestamp env + joinDuration;
         startPrice := price cp; pythUpdateFee := fee;
         resolved := false; cancelled := false; winner := 0;
         priceFeedId := feed |} /\
    fee <= msg_value env /\ MIN_BET <= msg_value env - fee /\
    balance w' = balance w + (msg_value env - fee).
Proof.
  intros H. unfold createBet in H. tx_invert H. bool_to_prop.
  eexists _, _.
  repeat match goal with |- _ /\ _ => split end;
    try first [eassumption | reflexivity | lia].
  unfold bet_at, set_bet. cbn [bets storage]. rewrite lookup_insert_eq. reflexivity.
Qed.


(** X28. Earlier variant: a bet created on a contract without funds
    cannot be cancelled while the contract holds nothing else.  With a
    positive oracle fee, the creator's [cancelBet] after the join deadline
    asks for the whole value sent at creation while the contract kept only
    the stake, and fails in the transfer. *)
Theorem legacy_lone_bet_cannot_be_cancelled (data : list bytes) (feed : bytes32)
    (target : Z) (duration joinDuration : N) (env env' : Env) (w w' : W)
    (id : bytes32) (fee : N) :
  createBet keccak256_packed data feed target duration joinDuration env w = Ok (id, w') ->
  pyth_getUpdateFee env data = Some fee -> 0 < fee ->
  balance w = 0 ->
  msg_value env' = 0 -> msg_sender env' = msg_sender env -> msg_sender env <> 0 ->
  block_timestamp env + joinDuration < block_timestamp env' ->
  cancelBet id env' w'
  = Revert (InsufficientBalance (msg_value env - fee) (msg_value env)).
Proof.
  intros H Hq Hfee Hbal Hv' Hs' Hs Ht.
  unfold createBet in H. tx_invert H. bool_to_prop.
  injection Hq as ->.
  apply N.eqb_eq in Hv'. apply N.eqb_neq in Hs. apply N.leb_gt in Ht.
  unfold cancelBet, checked_add. tx_prims. unfold bind.
  cbn [storage balance trace]. rewrite Hv'. cbn [storage balance trace].
  match goal with
  | |- context [bet_at (set_bet ?i ?b ?s) ?i] =>
      assert (Hbet : bet_at (set_bet i b s) i = b)
        by (unfold bet_at, set_bet; cbn [bets]; rewrite lookup_insert_eq; reflexivity);
      rewrite !Hbet
  end.
  cbn [player1 player2 cancelled resolved joinDeadline amount pythUpdateFee].
  rewrite Hs', Hs, N.eqb_refl, Ht, Hbal, N.add_0_l.
  change (0 =? 0) with true.
  cbn [negb storage balance trace lift].
  match goal with
  | |- context [?v - fee + fee] => replace (v - fee + fee) with v by lia
  end.
  repeat (cbn [storage balance trace];
    match goal with
    | |- context [N.ltb ?a ?b] => destruct (N.ltb_spec a b); try lia
    end).
  reflexivity.
Qed.

(** X29. Earlier variant: a successful [resolveBet] pays the winner both
    stakes plus the creator's recorded oracle fee and returns the quoted
    fee to the caller; it succeeds only if balance and payment together
    cover the quoted fee, both stakes and the recorded fee, which the
    contract did not keep. *)
Theorem legacy_resolveBet_pays_fee_to_winner (id : bytes32) (data : list bytes)
    (env : Env) (w w' : W) :
  resolveBet id data env w = Ok (tt, w') ->
  let bet := bet_at (storage w) id in
  exists fee new,
    pyth_getUpdateFee env data = Some fee /\
    trace w' = trace w ++ new /\
    ether_sent new =
      [(winner (bet_at (storage w') id), amount bet * 2 + pythUpdateFee bet);
       (msg_sender env, fee)] /\
    (winner (bet_at (storage w') id) = player1 bet \/
     winner (bet_at (storage w') id) = player2 bet) /\
    amount bet * 2 + pythUpdateFee bet + fee <= balance w + msg_value env.
Proof.
  intros H. cbv zeta.
  pose proof (legacy_resolveBet_Ok_inv id data env w w' H)
    as (fee & fp & Hq & Hfee & _ & _ & _ & _ & Hw & new & Htr & Hsent).
  exists fee, new.
  repeat match goal with |- _ /\ _ => split end; try assumption.
  - rewrite Hw. destruct (_ >=? _)%Z; auto.
  - unfold resolveBet in H. tx_invert H. bool_to_prop.
    injection Hq as ->. lia.
Qed.

(** X30. Earlier variant: what [resolveBet] answers when it refuses a
    bet that exists and is not cancelled: without a joiner,
    [BetAlreadyJoined]; matched but before the deadline, [BetNotExpired];
    at or after the deadline and already resolved, [BetAlreadyResolved];
    not resolved and paid less than the quoted fee,
    [InsufficientPythFee]. *)
Theorem legacy_resolveBet_refusals (id : bytes32) (data : list bytes)
    (env : Env) (w : W) :
  let bet := bet_at (storage w) id in
  player1 bet <> 0 -> cancelled bet = false ->
  (player2 bet = 0 -> resolveBet id data env w = Revert BetAlreadyJoined) /\
  (player2 bet <> 0 ->
   (block_timestamp env < deadline bet ->
    resolveBet id data env w = Revert BetNotExpired) /\
   (deadline bet <= block_timestamp env ->
    (resolved bet = true -> resolveBet id data env w = Revert BetAlreadyResolved) /\
    (resolved bet = false ->
     forall fee, pyth_getUpdateFee env data = Some fee -> msg_value env < fee ->
     resolveBet id data env w = Revert InsufficientPythFee))).
Proof.
  cbv zeta. intros Hp Hc. apply N.eqb_neq in Hp. unfold resolveBet. split.
  - intros Hm. apply N.eqb_eq in Hm. guards. reflexivity.
  - intros Hm. apply N.eqb_neq in Hm. split.
    + intros Ht. apply N.ltb_lt in Ht. guards. reflexivity.
    + intros Ht. apply N.ltb_ge in Ht. split.
      * intros Hr. guards. reflexivity.
      * intros Hr fee Hq Hlow. apply N.ltb_lt in Hlow. guards.
        rewrite Hq, Hlow. reflexivity.
Qed.

End LegacyFacts.

(** ** The properties above on the worked scenario *)

Section Instances.
Import Betflix Summary Creation.




Lemma called_off_run :
  cancelBet Sample.bet_id Sample.cancel_env Sample.opened = Ok (tt, Sample.called_off).
Proof. vm_compute. reflexivity. Qed.

Lemma create_funded :
  funded Sample.create_env [] 300 60 Sample.quote.
Proof. constructor; by_evaluation. Qed.

Lemma create_priced :
  priced Sample.create_env [] Sample.feed 50000 Sample.quote (Sample.usd 49000)
    5000000000000%Z.
Proof. constructor; by_evaluation. Qed.

Lemma retry_funded :
  funded Sample.retry_env [] 300 60 Sample.quote.
Proof. constructor; by_evaluation. Qed.

Lemma retry_priced :
  priced Sample.retry_env [] Sample.feed 52000 Sample.quote (Sample.usd 51000)
    5200000000000%Z.
Proof. constructor; by_evaluation. Qed.


Lemma createBet_rejects_bad_arguments_witness :
  createBet Sample.hash_packed Sample.hash_bytes [] Sample.feed 50000 300 60 "alpha"
    (Sample.call_env 1000 Sample.creator 15 49000 None) Sample.configured
  = Revert BetAmountTooLow /\
  createBet Sample.hash_packed Sample.hash_bytes [] Sample.feed 50000 30 60 "alpha"
    Sample.create_env Sample.configured
  = Revert BetDurationInvalid.
Proof.
  split.
  - refine (proj1 (createBet_rejects_bad_arguments Sample.hash_packed Sample.hash_bytes
                     [] Sample.feed 50000 300 60 "alpha"
                     (Sample.call_env 1000 Sample.creator 15 49000 None)
                     Sample.configured Sample.quote _ _) _);
      by_evaluation.
  - refine (proj2 (createBet_rejects_bad_arguments Sample.hash_packed Sample.hash_bytes
                     [] Sample.feed 50000 30 60 "alpha" Sample.create_env
                     Sample.configured Sample.quote _ _) _ _);
      first [by_evaluation | left; reflexivity].
Defined.

Lemma createBet_collision_and_label_errors_witness :
  transact (createBet Sample.hash_packed Sample.hash_bytes
              [] Sample.feed 50000 300 60 "beta")
    Sample.create_env Sample.opened
  = (Sample.opened, Revert BetAlreadyExists) /\
  transact (createBet Sample.hash_packed Sample.hash_bytes
              [] Sample.feed 52000 300 60 "")
    Sample.retry_env Sample.opened
  = (Sample.opened, Revert InvalidENSSubdomain) /\
  transact (createBet Sample.hash_packed Sample.hash_bytes
              [] Sample.feed 52000 300 60 "alpha")
    Sample.retry_env Sample.opened
  = (Sample.opened, Revert ENSSubdomainTaken).
Proof.
  split; [|split].
  - refine (proj1 (createBet_collision_and_label_errors
                     Sample.hash_packed Sample.hash_bytes
                     [] Sample.feed 50000 300 60 "beta" Sample.create_env Sample.opened
                     Sample.quote (Sample.usd 49000) 5000000000000%Z
                     create_funded create_priced) _);
      by_evaluation.
  - refine (proj1 (proj2 (createBet_collision_and_label_errors
                            Sample.hash_packed Sample.hash_bytes
                            [] Sample.feed 52000 300 60 "" Sample.retry_env Sample.opened
                            Sample.quote (Sample.usd 51000) 5200000000000%Z
                            retry_funded retry_priced)) _ _);
      first [by_evaluation | left; reflexivity].
  - refine (proj2 (proj2 (createBet_collision_and_label_errors
                            Sample.hash_packed Sample.hash_bytes
                            [] Sample.feed 52000 300 60 "alpha" Sample.retry_env
                            Sample.opened
                            Sample.quote (Sample.usd 51000) 5200000000000%Z
                            retry_funded retry_priced)) _ _ _);
      by_evaluation.
Defined.


Lemma joinBet_refusals_witness :
  joinBet Sample.bet_id Sample.join_env Sample.deployed = Revert BetDoesNotExist /\
  joinBet Sample.bet_id Sample.join_env Sample.settled = Revert BetAlreadyResolved /\
  joinBet Sample.bet_id Sample.join_env Sample.matched = Revert BetAlreadyJoined /\
  joinBet Sample.bet_id Sample.cancel_env Sample.opened = Revert BetExpired /\
  joinBet Sample.bet_id Sample.short_env Sample.opened = Revert BetAmountTooLow.
Proof.
  repeat match goal with |- _ /\ _ => split end.
  - refine (proj1 (joinBet_refusals Sample.bet_id Sample.join_env Sample.deployed) _).
    by_evaluation.
  - refine (proj1 (proj2 (joinBet_refusals Sample.bet_id Sample.join_env Sample.settled))
              _ _);
      first [by_evaluation | right; vm_compute; reflexivity].
  - refine (proj1 (proj2 (proj2 (joinBet_refusals Sample.bet_id Sample.join_env
                                   Sample.matched)) _ _ _) _);
      by_evaluation.
  - refine (proj1 (proj2 (proj2 (proj2 (joinBet_refusals Sample.bet_id Sample.cancel_env
                                          Sample.opened)) _ _ _) _) _);
      first [by_evaluation | left; vm_compute; reflexivity].
  - refine (proj2 (proj2 (proj2 (proj2 (joinBet_refusals Sample.bet_id Sample.short_env
                                          Sample.opened)) _ _ _) _) _ _ _);
      by_evaluation.
Defined.

Lemma cancelBet_effect_witness :
  bet_at (storage Sample.called_off) Sample.bet_id
  = set_cancelled true (bet_at (storage Sample.opened) Sample.bet_id) /\
  used_at (storage Sample.called_off)
    (ensLabel (bet_at (storage Sample.opened) Sample.bet_id)) = false /\
  amount (bet_at (storage Sample.opened) Sample.bet_id) <= balance Sample.opened.
Proof.
  pose proof (cancelBet_effect Sample.bet_id Sample.cancel_env Sample.opened
                Sample.called_off called_off_run) as P.
  cbv zeta in P.
  destruct P as (_ & _ & _ & _ & _ & _ & P1 & _ & P2 & _ & _ & P3).
  exact (conj P1 (conj P2 P3)).
Defined.

Lemma cancelBet_refusals_witness :
  cancelBet Sample.bet_id Sample.cancel_env Sample.deployed = Revert BetDoesNotExist /\
  cancelBet Sample.bet_id Sample.withdraw_env Sample.opened = Revert OnlyCreatorCanRefund /\
  cancelBet Sample.bet_id Sample.cancel_env Sample.called_off = Revert BetAlreadyResolved /\
  cancelBet Sample.bet_id Sample.cancel_env Sample.matched = Revert BetAlreadyJoined /\
  cancelBet Sample.bet_id (Sample.call_env 1060 Sample.creator 0 49500 None) Sample.opened
  = Revert BetNotExpired.
Proof.
  repeat match goal with |- _ /\ _ => split end.
  - refine (proj1 (cancelBet_refusals Sample.bet_id Sample.cancel_env Sample.deployed _) _);
      by_evaluation.
  - refine (proj1 (proj2 (cancelBet_refusals Sample.bet_id Sample.withdraw_env
                            Sample.opened _)) _ _);
      by_evaluation.
  - refine (proj1 (proj2 (proj2 (cancelBet_refusals Sample.bet_id Sample.cancel_env
                                   Sample.called_off _)) _ _) _);
      first [by_evaluation | left; vm_compute; reflexivity].
  - refine (proj1 (proj2 (proj2 (proj2 (cancelBet_refusals Sample.bet_id Sample.cancel_env
                                          Sample.matched _)) _ _) _ _) _);
      by_evaluation.
  - refine (proj2 (proj2 (proj2 (proj2 (cancelBet_refusals Sample.bet_id
                                          (Sample.call_env 1060 Sample.creator 0 49500 None)
                                          Sample.opened _)) _ _) _ _) _ _);
      by_evaluation.
Defined.


Lemma resolveBet_refusals_witness :
  resolveBet Sample.bet_id [] Sample.resolve_env Sample.called_off
  = Revert BetAlreadyResolved /\
  resolveBet Sample.bet_id [] Sample.resolve_env Sample.settled
  = Revert BetAlreadyResolved /\
  resolveBet Sample.bet_id [] (Sample.call_env 1300 Sample.resolver 5 50000 None)
    Sample.matched
  = Revert InsufficientPythFee /\
  resolveBet Sample.bet_id [] (Sample.call_env 1300 Sample.resolver 20 0 None)
    Sample.matched
  = Revert PriceStale.
Proof.
  repeat match goal with |- _ /\ _ => split end.
  - refine (proj1 (resolveBet_refusals Sample.bet_id [] Sample.resolve_env
                     Sample.called_off _) _);
      by_evaluation.
  - refine (proj1 (proj2 (resolveBet_refusals Sample.bet_id [] Sample.resolve_env
                            Sample.settled _) _ _ _) _);
      by_evaluation.
  - refine (proj1 (proj2 (proj2 (resolveBet_refusals Sample.bet_id []
                                   (Sample.call_env 1300 Sample.resolver 5 50000 None)
                                   Sample.matched _) _ _ _) _ Sample.quote _) _);
      by_evaluation.
  - refine (proj2 (proj2 (proj2 (resolveBet_refusals Sample.bet_id []
                                   (Sample.call_env 1300 Sample.resolver 20 0 None)
                                   Sample.matched _) _ _ _) _ Sample.quote _) _ _
              (Sample.usd 0) _ _);
      first [by_evaluation | left; vm_compute; discriminate].
Defined.

Lemma unknown_bet_is_refused_witness :
  transact (joinBet Sample.bet_id) Sample.join_env Sample.deployed
  = (Sample.deployed, Revert BetDoesNotExist) /\
  getBetTargetPriceUSD Sample.bet_id Sample.join_env Sample.deployed
  = Ok (0, Sample.deployed).
Proof.
  assert (H : bets (storage Sample.deployed) !! Sample.bet_id = None)
    by (vm_compute; reflexivity).
  pose proof (unknown_bet_is_refused Sample.bet_id Sample.join_env Sample.deployed H)
    as (P1 & _ & _ & P2 & _).
  exact (conj P1 P2).
Defined.

End Instances.

Section ReachableInstances.
Import Betflix Summary Admin.

Lemma opened_settled_evolves :
  evolves Sample.hash_packed Sample.hash_bytes Sample.opened Sample.settled.
Proof.
  unfold Sample.settled, Sample.matched.
  do 2 (apply evolves_step; [|by_evaluation]).
  apply evolves_refl.
Qed.

Lemma reachable_bet_terms_witness :
  joinDeadline (bet_at (storage Sample.matched) Sample.bet_id)
  <= deadline (bet_at (storage Sample.matched) Sample.bet_id)
  <= joinDeadline (bet_at (storage Sample.matched) Sample.bet_id) + 3540 /\
  MIN_BET <= amount (bet_at (storage Sample.matched) Sample.bet_id).
Proof.
  assert (H : player1 (bet_at (storage Sample.matched) Sample.bet_id) <> 0)
    by by_evaluation.
  pose proof (proj1 (reachable_bet_terms Sample.hash_packed Sample.hash_bytes
                       Sample.matched Sample.bet_id matched_reachable) H)
    as (P1 & P2 & _).
  exact (conj P1 P2).
Defined.

Lemma reachable_outcome_flags_witness :
  player1 (bet_at (storage Sample.settled) Sample.bet_id) <> 0 /\
  player2 (bet_at (storage Sample.settled) Sample.bet_id) <> 0 /\
  cancelled (bet_at (storage Sample.settled) Sample.bet_id) = false /\
  (winner (bet_at (storage Sample.settled) Sample.bet_id)
   = player1 (bet_at (storage Sample.settled) Sample.bet_id) \/
   winner (bet_at (storage Sample.settled) Sample.bet_id)
   = player2 (bet_at (storage Sample.settled) Sample.bet_id)).
Proof.
  assert (H : resolved (bet_at (storage Sample.settled) Sample.bet_id) = true)
    by (vm_compute; reflexivity).
  exact (proj1 (proj2 (reachable_outcome_flags Sample.hash_packed Sample.hash_bytes
                         Sample.settled Sample.bet_id settled_reachable)) H).
Defined.

Lemma reachable_reservations_exact_witness :
  exists id,
    live (bet_at (storage Sample.matched) id) /\
    ensLabel (bet_at (storage Sample.matched) id) = Sample.hash_bytes "alpha".
Proof.
  assert (H : isSubdomainAvailable Sample.hash_bytes "alpha" Sample.join_env Sample.matched
              = Ok (false, Sample.matched)) by (vm_compute; reflexivity).
  exact (proj1 (proj1 (reachable_reservations_exact Sample.hash_packed Sample.hash_bytes
                         Sample.matched Sample.join_env "alpha" matched_reachable)) H).
Defined.

Lemma reachable_events_announce_witness :
  In (Emitted (BetJoined Sample.bet_id
                 (player2 (bet_at (storage Sample.settled) Sample.bet_id))))
    (trace Sample.settled).
Proof.
  assert (H : player2 (bet_at (storage Sample.settled) Sample.bet_id) <> 0)
    by by_evaluation.
  exact (proj1 (proj2 (reachable_events_announce Sample.hash_packed Sample.hash_bytes
                         Sample.settled Sample.bet_id settled_reachable)) H).
Defined.

Lemma getBetTargetPriceUSD_total_witness :
  exists usd,
    getBetTargetPriceUSD Sample.bet_id Sample.join_env Sample.matched
    = Ok (usd, Sample.matched) /\
    (player1 (bet_at (storage Sample.matched) Sample.bet_id) = 0 -> usd = 0) /\
    (player1 (bet_at (storage Sample.matched) Sample.bet_id) <> 0 ->
     1 <= usd <= 100000000 /\
     _convertToPythPrice usd (priceExponent (bet_at (storage Sample.matched) Sample.bet_id))
     = Ok (targetPrice (bet_at (storage Sample.matched) Sample.bet_id))).
Proof.
  exact (getBetTargetPriceUSD_total Sample.hash_packed Sample.hash_bytes
           Sample.matched Sample.bet_id Sample.join_env matched_reachable).
Defined.

Lemma reachable_oracle_set_witness :
  pyth (storage Sample.settled) <> 0.
Proof.
  exact (reachable_oracle_set Sample.hash_packed Sample.hash_bytes Sample.settled
           settled_reachable).
Defined.

Lemma bet_terms_are_immutable_witness :
  player1 (bet_at (storage Sample.settled) Sample.bet_id)
  = player1 (bet_at (storage Sample.opened) Sample.bet_id) /\
  targetPrice (bet_at (storage Sample.settled) Sample.bet_id)
  = targetPrice (bet_at (storage Sample.opened) Sample.bet_id) /\
  amount (bet_at (storage Sample.settled) Sample.bet_id)
  = amount (bet_at (storage Sample.opened) Sample.bet_id) /\
  deadline (bet_at (storage Sample.settled) Sample.bet_id)
  = deadline (bet_at (storage Sample.opened) Sample.bet_id).
Proof.
  assert (H : player1 (bet_at (storage Sample.opened) Sample.bet_id) <> 0)
    by by_evaluation.
  pose proof (bet_terms_are_immutable Sample.hash_packed Sample.hash_bytes
                Sample.opened Sample.settled Sample.bet_id opened_settled_evolves H)
    as P.
  cbv zeta in P.
  destruct P as (P1 & _ & P2 & _ & _ & P3 & _ & P4 & _).
  exact (conj P1 (conj P2 (conj P3 P4))).
Defined.

Lemma admin_calls_refuse_strangers_witness :
  emergencyWithdrawAll Sample.cancel_env Sample.matched
  = Revert (OwnableUnauthorizedAccount (msg_sender Sample.cancel_env)) /\
  renounceOwnership Sample.cancel_env Sample.matched
  = Revert (OwnableUnauthorizedAccount (msg_sender Sample.cancel_env)).
Proof.
  assert (Hv : msg_value Sample.cancel_env = 0) by reflexivity.
  assert (Ho : owner (storage Sample.matched) <> msg_sender Sample.cancel_env)
    by by_evaluation.
  pose proof (admin_calls_refuse_strangers Sample.cancel_env Sample.matched Hv Ho) as P.
  cbv zeta in P.
  destruct P as (_ & P1 & _ & _ & P2).
  exact (conj P1 P2).
Defined.


Lemma renounced_ownership_is_final_witness :
  owner (storage Variations.after_renounce) = 0 /\
  nameWrapper (storage Variations.after_renounce)
  = nameWrapper (storage Variations.renounced).
Proof.
  assert (Hev : evolves Sample.hash_packed Sample.hash_bytes
                  Variations.renounced Variations.after_renounce).
  { unfold Variations.after_renounce.
    apply evolves_step; [apply evolves_refl|by_evaluation]. }
  assert (Ho : owner (storage Variations.renounced) = 0) by (vm_compute; reflexivity).
  pose proof (renounced_ownership_is_final Sample.hash_packed Sample.hash_bytes
                Variations.renounced Variations.after_renounce Hev Ho)
    as (P1 & _ & P2 & _).
  exact (conj P1 P2).
Defined.

Lemma configureENS_then_getFullENSDomain_witness :
  getFullENSDomain "alpha" Sample.join_env Sample.configured
  = Ok (if (77 =? 0) || (byte_length "betflix.eth" =? 0) then EmptyString
        else ("alpha" +:+ "." +:+ "betflix.eth")%string, Sample.configured).
Proof.
  assert (Hrun : configureENS 77 88 66 "betflix.eth" Sample.config_env Sample.deployed
                 = Ok (tt, Sample.configured)) by (vm_compute; reflexivity).
  exact (proj2 (proj2 (configureENS_then_getFullENSDomain 77 88 66 "betflix.eth"
                         Sample.config_env Sample.deployed Sample.configured Hrun))
           Sample.join_env "alpha").
Defined.

Lemma constructor_deploys_empty_witness :
  constructor 0 Sample.deploy_env new_world = Revert ZeroAddress /\
  exists w0,
    constructor Sample.oracle Sample.deploy_env new_world = Ok (tt, w0) /\
    owner (storage w0) = msg_sender Sample.deploy_env /\
    pyth (storage w0) = Sample.oracle /\
    balance w0 = 0 /\
    (forall id, bet_at (storage w0) id = zero_bet) /\
    (forall subdomain env',
       isSubdomainAvailable Sample.hash_bytes subdomain env' w0 = Ok (true, w0) /\
       getFullENSDomain subdomain env' w0 = Ok (EmptyString, w0)).
Proof.
  assert (Hv : msg_value Sample.deploy_env = 0) by reflexivity.
  assert (Hs : msg_sender Sample.deploy_env <> 0) by by_evaluation.
  assert (Ha : Sample.oracle <> 0) by by_evaluation.
  split.
  - exact (proj1 (constructor_deploys_empty Sample.hash_bytes 0 Sample.deploy_env Hv Hs)
             eq_refl).
  - exact (proj2 (constructor_deploys_empty Sample.hash_bytes Sample.oracle
                    Sample.deploy_env Hv Hs) Ha).
Defined.

Lemma matched_ready_exact_fee :
  ready_to_settle Variations.exact_fee_env Sample.matched Sample.bet_id []
    Sample.quote (Sample.usd 50000).
Proof. constructor; by_evaluation. Qed.

Lemma resolveBet_refund_from_balance_witness :
  amount (bet_at (storage Sample.matched) Sample.bet_id) * 2 + Sample.quote
  <= balance Sample.matched + msg_value Sample.resolve_env /\
  resolveBet Sample.bet_id [] Variations.exact_fee_env Sample.matched
  = Revert (InsufficientBalance
              (balance Sample.matched + msg_value Variations.exact_fee_env - Sample.quote
               - amount (bet_at (storage Sample.matched) Sample.bet_id) * 2)
              Sample.quote).
Proof.
  split.
  - refine (proj1 (resolveBet_refund_from_balance Sample.bet_id [] Sample.resolve_env
                     Sample.matched Sample.quote (Sample.usd 50000) matched_ready)
              Sample.settled _).
    vm_compute. reflexivity.
  - refine (proj2 (resolveBet_refund_from_balance Sample.bet_id []
                     Variations.exact_fee_env Sample.matched Sample.quote
                     (Sample.usd 50000) matched_ready_exact_fee) _ _ _);
      by_evaluation.
Defined.

End ReachableInstances.

Section ConversionInstances.

Lemma convertToPythPrice_spec_witness :
  _convertToPythPrice 50000 (-8) = Ok 5000000000000%Z /\
  _convertToPythPrice 100000000 (-18)
  = Revert (SafeCastOverflowedIntDowncast 64 (Z.of_N 100000000 * 10 ^ (- -18))%Z).
Proof.
  split.
  - apply (proj1 (convertToPythPrice_spec 50000 (-8))). by_evaluation.
  - apply (proj2 (convertToPythPrice_spec 100000000 (-18))); by_evaluation.
Defined.

Lemma convertToPythPrice_total_and_monotone_witness :
  (exists p, _convertToPythPrice 100000000 (-10) = Ok p) /\
  (50000 < 52000 <-> (5000000000000 < 5200000000000)%Z).
Proof.
  split.
  - apply (proj1 (convertToPythPrice_total_and_monotone (-10))); by_evaluation.
  - apply (proj2 (convertToPythPrice_total_and_monotone (-8)) 50000 52000);
      vm_compute; reflexivity.
Defined.

End ConversionInstances.

Section LegacyInstances.
Import BetflixLegacy.

Lemma legacy_opened_run :
  createBet LegacySample.hash_packed [] Sample.feed LegacySample.target 300 60
    LegacySample.create_env LegacySample.deployed
  = Ok (LegacySample.bet_id, LegacySample.opened).
Proof. vm_compute. reflexivity. Qed.

Lemma legacy_createBet_records_bet_witness :
  exists fee cp,
    pyth_getUpdateFee LegacySample.create_env [] = Some fee /\
    pyth_getPriceNoOlderThan LegacySample.create_env Sample.feed MAX_PRICE_AGE = Some cp /\
    LegacySample.bet_id
    = LegacySample.hash_packed (msg_sender LegacySample.create_env) Sample.feed
        LegacySample.target (block_timestamp LegacySample.create_env)
        (block_prevrandao LegacySample.create_env) /\
    player1 (bet_at (storage LegacySample.deployed) LegacySample.bet_id) = 0 /\
    bet_at (storage LegacySample.opened) LegacySample.bet_id =
      {| player1 := msg_sender LegacySample.create_env; player2 := 0;
         amount := msg_value LegacySample.create_env - fee;
         targetPrice := LegacySample.target; priceExponent := expo cp;
         deadline := block_timestamp LegacySample.create_env + 300;
         joinDeadline := block_timestamp LegacySample.create_env + 60;
         startPrice := price cp; pythUpdateFee := fee;
         resolved := false; cancelled := false; winner := 0;
         priceFeedId := Sample.feed |} /\
    fee <= msg_value LegacySample.create_env /\
    MIN_BET <= msg_value LegacySample.create_env - fee /\
    balance LegacySample.opened
    = balance LegacySample.deployed + (msg_value LegacySample.create_env - fee).
Proof.
  exact (legacy_createBet_records_bet LegacySample.hash_packed [] Sample.feed
           LegacySample.target 300 60 LegacySample.create_env LegacySample.deployed
           LegacySample.opened LegacySample.bet_id legacy_opened_run).
Defined.


Lemma legacy_lone_bet_cannot_be_cancelled_witness :
  cancelBet LegacySample.bet_id Sample.cancel_env LegacySample.opened
  = Revert (InsufficientBalance (msg_value LegacySample.create_env - Sample.quote)
              (msg_value LegacySample.create_env)).
Proof.
  refine (legacy_lone_bet_cannot_be_cancelled LegacySample.hash_packed [] Sample.feed
            LegacySample.target 300 60 LegacySample.create_env Sample.cancel_env
            LegacySample.deployed LegacySample.opened LegacySample.bet_id Sample.quote
            legacy_opened_run _ _ _ _ _ _ _);
    by_evaluation.
Defined.

Lemma legacy_resolveBet_pays_fee_to_winner_witness :
  exists fee new,
    pyth_getUpdateFee LegacySample.resolve_env [] = Some fee /\
    trace LegacySample.settled = trace LegacySample.matched ++ new /\
    ether_sent new =
      [(winner (bet_at (storage LegacySample.settled) LegacySample.bet_id),
        amount (bet_at (storage LegacySample.matched) LegacySample.bet_id) * 2
        + pythUpdateFee (bet_at (storage LegacySample.matched) LegacySample.bet_id));
       (msg_sender LegacySample.resolve_env, fee)] /\
    (winner (bet_at (storage LegacySample.settled) LegacySample.bet_id)
     = player1 (bet_at (storage LegacySample.matched) LegacySample.bet_id) \/
     winner (bet_at (storage LegacySample.settled) LegacySample.bet_id)
     = player2 (bet_at (storage LegacySample.matched) LegacySample.bet_id)) /\
    amount (bet_at (storage LegacySample.matched) LegacySample.bet_id) * 2
    + pythUpdateFee (bet_at (storage LegacySample.matched) LegacySample.bet_id) + fee
    <= balance LegacySample.matched + msg_value LegacySample.resolve_env.
Proof.
  assert (Hrun : resolveBet LegacySample.bet_id [] LegacySample.resolve_env
                   LegacySample.matched = Ok (tt, LegacySample.settled))
    by (vm_compute; reflexivity).
  exact (legacy_resolveBet_pays_fee_to_winner LegacySample.bet_id []
           LegacySample.resolve_env LegacySample.matched LegacySample.settled Hrun).
Defined.

Lemma legacy_resolveBet_refusals_witness :
  resolveBet LegacySample.bet_id [] LegacySample.resolve_env LegacySample.opened
  = Revert BetAlreadyJoined /\
  resolveBet LegacySample.bet_id [] Sample.early_env LegacySample.matched
  = Revert BetNotExpired /\
  resolveBet LegacySample.bet_id [] LegacySample.resolve_env LegacySample.settled
  = Revert BetAlreadyResolved.
Proof.
  repeat match goal with |- _ /\ _ => split end.
  - refine (proj1 (legacy_resolveBet_refusals LegacySample.bet_id []
                     LegacySample.resolve_env LegacySample.opened _ _) _);
      by_evaluation.
  - refine (proj1 (proj2 (legacy_resolveBet_refusals LegacySample.bet_id []
                            Sample.early_env LegacySample.matched _ _) _) _);
      by_evaluation.
  - refine (proj1 (proj2 (proj2 (legacy_resolveBet_refusals LegacySample.bet_id []
                                   LegacySample.resolve_env LegacySample.settled _ _) _)
                     _) _);
      by_evaluation.
Defined.

End LegacyInstances.
